(** * A schema-driven data-access layer: column resolver, CRUD operator,
      schema registry and mock synthesizer

    Shallow embedding of [db_operator.py], [mock/schema_registry.py] and
    [mock/mock_data_generator.py], followed by the properties established
    about them. *)

From Stdlib Require Import Bool Arith ZArith List String Ascii Lia QArith.
From Stdlib Require Import DecimalString DecimalPos DecimalZ.
From Stdlib Require DecimalNat.
Import ListNotations.

Local Close Scope Q_scope.
Local Open Scope list_scope.
Local Open Scope string_scope.

Set Implicit Arguments.
#[local] Set Warnings "-register-all".

(* ================================================================== *)
(** * Part I.  The embedding                                            *)
(* ================================================================== *)

(** ** Python text primitives

    Column names, type tags and messages are text.  The case functions
    act on the ASCII letters, which is where identifiers live; any other
    character is left as it is. *)

Module PyStr.

Definition is_upper (c : ascii) : bool :=
  (65 <=? nat_of_ascii c)%nat && (nat_of_ascii c <=? 90)%nat.

Definition is_lower (c : ascii) : bool :=
  (97 <=? nat_of_ascii c)%nat && (nat_of_ascii c <=? 122)%nat.

Definition is_cased (c : ascii) : bool := is_upper c || is_lower c.

Definition lower_char (c : ascii) : ascii :=
  if is_upper c then ascii_of_nat (nat_of_ascii c + 32) else c.

Definition upper_char (c : ascii) : ascii :=
  if is_lower c then ascii_of_nat (nat_of_ascii c - 32) else c.

(** [s.lower()] *)
Fixpoint lower (s : string) : string :=
  match s with
  | EmptyString => EmptyString
  | String c r => String (lower_char c) (lower r)
  end.

(** [s.title()]: a cased character is upper-cased when the character
    before it is not cased, and lower-cased otherwise. *)
Fixpoint title_from (prev_cased : bool) (s : string) : string :=
  match s with
  | EmptyString => EmptyString
  | String c r =>
      String (if prev_cased then lower_char c else upper_char c)
             (title_from (is_cased c) r)
  end.

Definition title (s : string) : string := title_from false s.

(** [s.split(sep)] for a one-character separator: always at least one
    piece, empty pieces kept. *)
Fixpoint split (sep : ascii) (s : string) : list string :=
  match s with
  | EmptyString => [EmptyString]
  | String c r =>
      if Ascii.eqb c sep then EmptyString :: split sep r
      else match split sep r with
           | w :: ws => String c w :: ws
           | [] => [String c EmptyString]
           end
  end.

(** [sep.join(parts)] *)
Definition join (sep : string) (parts : list string) : string :=
  String.concat sep parts.

(** [s.startswith(p)] *)
Definition startswith (p s : string) : bool := String.prefix p s.

(** [sub in s] *)
Fixpoint contains (sub s : string) : bool :=
  String.prefix sub s ||
  match s with
  | EmptyString => false
  | String _ r => contains sub r
  end.

(** [s.endswith(p)] *)
Definition endswith (p s : string) : bool :=
  (String.length p <=? String.length s)%nat &&
  String.eqb (String.substring (String.length s - String.length p)
                               (String.length p) s) p.

(** [s[:-n]] for [n > 0] *)
Definition drop_last (n : nat) (s : string) : string :=
  String.substring 0 (String.length s - n) s.

Definition newline : string := String (ascii_of_nat 10) EmptyString.

(** [x in xs] on a list of texts *)
Definition mem (x : string) (xs : list string) : bool :=
  existsb (String.eqb x) xs.

(** [str(n)] for integers *)
Definition of_nat (n : nat) : string :=
  NilZero.string_of_uint (Nat.to_uint n).

Definition of_Z (z : Z) : string :=
  NilZero.string_of_int (Z.to_int z).

(** [s.replace(old, new)], leftmost non-overlapping occurrences;
    [old] is not empty at the one call site. *)
Fixpoint replace_fuel (fuel : nat) (old new s : string) : string :=
  match fuel with
  | O => s
  | S fuel' =>
      if String.prefix old s then
        new ++ replace_fuel fuel' old new
                 (String.substring (String.length old)
                    (String.length s - String.length old) s)
      else match s with
           | EmptyString => EmptyString
           | String c r => String c (replace_fuel fuel' old new r)
           end
  end.

Definition replace (old new s : string) : string :=
  match old with
  | EmptyString => s
  | _ => replace_fuel (S (String.length s)) old new s
  end.

(** [c.isspace()] on the code points below 256. *)
Definition is_space (c : ascii) : bool :=
  let n := nat_of_ascii c in
  ((9 <=? n) && (n <=? 13) || (28 <=? n) && (n <=? 32)
   || (n =? 133) || (n =? 160))%nat.

(** [s.lstrip()], [s.rstrip()] and [s.strip()] *)
Fixpoint lstrip (s : string) : string :=
  match s with
  | String c r => if is_space c then lstrip r else s
  | EmptyString => EmptyString
  end.

Fixpoint rstrip (s : string) : string :=
  match s with
  | EmptyString => EmptyString
  | String c r =>
      match rstrip r with
      | EmptyString => if is_space c then EmptyString else String c EmptyString
      | r' => String c r'
      end
  end.

Definition strip (s : string) : string := rstrip (lstrip s).

(** [s.split()]: the runs of characters that are not white space.  The
    helper gives the word that starts at the head of the text, empty when
    there is none, and the words after it. *)
Definition push_word (w : string) (ws : list string) : list string :=
  match w with
  | EmptyString => ws
  | _ => w :: ws
  end.

Fixpoint split_ws_from (s : string) : string * list string :=
  match s with
  | EmptyString => (EmptyString, [])
  | String c r =>
      let '(w, ws) := split_ws_from r in
      if is_space c then (EmptyString, push_word w ws)
      else (String c w, ws)
  end.

Definition split_ws (s : string) : list string :=
  let '(w, ws) := split_ws_from s in push_word w ws.

(** [s.splitlines()]: the line boundaries below 256 are LF, VT, FF, CR,
    FS, GS, RS and NEL, and CR LF counts once; the boundaries are not
    kept and a final boundary opens no further line. *)
Definition is_linebreak (c : ascii) : bool :=
  let n := nat_of_ascii c in
  ((10 <=? n) && (n <=? 13) || (28 <=? n) && (n <=? 30) || (n =? 133))%nat.

Fixpoint splitlines_from (after_cr : bool) (s : string) : list string :=
  match s with
  | EmptyString => []
  | String c r =>
      if after_cr && (nat_of_ascii c =? 10)%nat then splitlines_from false r
      else if is_linebreak c then
        EmptyString :: splitlines_from (nat_of_ascii c =? 13)%nat r
      else
        match splitlines_from false r with
        | [] => [String c EmptyString]
        | l :: ls => String c l :: ls
        end
  end.

Definition splitlines (s : string) : list string := splitlines_from false s.

(** [int(s)] for a piece of [s.split()], which holds no white space: an
    optional sign, then decimal digits, single underscores allowed between
    two digits.  [None] stands for [ValueError]. *)
Definition is_decimal (c : ascii) : bool :=
  ((48 <=? nat_of_ascii c) && (nat_of_ascii c <=? 57))%nat.

Fixpoint int_digits (after_digit : bool) (acc : nat) (s : string)
  : option nat :=
  match s with
  | EmptyString => if after_digit then Some acc else None
  | String c r =>
      if is_decimal c then
        int_digits true (10 * acc + (nat_of_ascii c - 48)) r
      else if after_digit && Ascii.eqb c "_" then int_digits false acc r
      else None
  end.

Definition int_of (s : string) : option Z :=
  match s with
  | String "-" r =>
      match int_digits false 0 r with
      | Some n => Some (- Z.of_nat n)%Z
      | None => None
      end
  | String "+" r =>
      match int_digits false 0 r with
      | Some n => Some (Z.of_nat n)
      | None => None
      end
  | _ =>
      match int_digits false 0 s with
      | Some n => Some (Z.of_nat n)
      | None => None
      end
  end.

End PyStr.

(** ** Exceptions and results *)

Inductive exn : Type :=
| ValueError (msg : string)
| RuntimeError (msg : string)
| SchemaError (msg : string)
| QueryError (msg : string)
| KeyError (msg : string)
| TypeError (msg : string)
| JSONDecodeError (msg : string)
| OSError (msg : string)
| ColumnMatchError (column_name : string) (available_columns : list string)
                   (schema table : option string) (msg : string).

(** [str(e)]: every exception carries the message it was built with. *)
Definition exn_str (e : exn) : string :=
  match e with
  | ValueError m | RuntimeError m | SchemaError m | QueryError m
  | KeyError m | TypeError m | JSONDecodeError m | OSError m => m
  | ColumnMatchError _ _ _ _ m => m
  end.

(** [isinstance(e, ValueError)]; [json.JSONDecodeError] is a subclass of
    [ValueError]. *)
Definition isinstance_ValueError (e : exn) : bool :=
  match e with
  | ValueError _ | JSONDecodeError _ => true
  | _ => false
  end.

Inductive result (A : Type) : Type :=
| Ok (a : A)
| Raise (e : exn).

Arguments Ok {A} a.
Arguments Raise {A} e.

(** ** Column resolver ([db_operator.py], module level) *)

Module Resolver.
Section WithInflect.

(** The [inflect] engine [p] is a linguistic collaborator:
    [p.singular_noun(w)] is a text or [False], [p.plural(w)] a text. *)
Variable singular_noun : string -> option string.
Variable plural : string -> string.

(** [p.singular_noun(w) or w] *)
Definition singular_or_self (w : string) : string :=
  match singular_noun w with
  | Some EmptyString => w
  | Some s => s
  | None => w
  end.

(** [re.sub(r'(?<!^)(?=[A-Z])', '_', name)]: an underscore goes in
    front of every capital that is not the first character. *)
Fixpoint underscore_tail (s : string) : string :=
  match s with
  | EmptyString => EmptyString
  | String c r =>
      if PyStr.is_upper c then String "_" (String c (underscore_tail r))
      else String c (underscore_tail r)
  end.

Definition re_sub_capitals (name : string) : string :=
  match name with
  | EmptyString => EmptyString
  | String c r => String c (underscore_tail r)
  end.

Definition to_underscore (name : string) : string :=
  PyStr.lower (re_sub_capitals name).

(** [''.join(w.title() if i > 0 else w
             for i, w in enumerate(name.split('_')))] *)
Definition to_camel (name : string) : string :=
  match PyStr.split "_" name with
  | [] => EmptyString
  | w :: ws => PyStr.join "" (w :: map PyStr.title ws)
  end.

(** The three loop bodies of [match_column], as tests on a candidate. *)
Definition case_hit (column_name col : string) : bool :=
  String.eqb (PyStr.lower col) (PyStr.lower column_name).

Definition plural_hit (column_name col : string) : bool :=
  let singular := singular_or_self column_name in
  let plural_form := plural column_name in
  let col_singular := singular_or_self col in
  if String.eqb (PyStr.lower col_singular) (PyStr.lower singular) then true
  else String.eqb (PyStr.lower col) (PyStr.lower plural_form).

Definition convention_hit (column_name col : string) : bool :=
  let name_underscore := to_underscore column_name in
  let name_camel := to_camel column_name in
  let col_underscore := to_underscore col in
  let col_camel := to_camel col in
  String.eqb col_underscore name_underscore || String.eqb col_camel name_camel.

(** [find_closest_matches(name, available, limit)]: the same tiers,
    collecting every hit of the first tier that has one. *)
Definition find_closest_matches (name : string) (available : list string)
           (limit : nat) : list string :=
  if PyStr.mem name available then [name]
  else
    match filter (case_hit name) available with
    | (_ :: _) as matches => firstn limit matches
    | [] =>
        match filter (plural_hit name) available with
        | (_ :: _) as matches => firstn limit matches
        | [] => firstn limit (filter (convention_hit name) available)
        end
    end.

Definition truthy (o : option string) : bool :=
  match o with
  | Some (String _ _) => true
  | _ => false
  end.

Definition text_of (o : option string) : string :=
  match o with Some s => s | None => "None" end.

(** [ColumnMatchError.__init__]: the message is built when the
    exception is. *)
Definition mkColumnMatchError (column_name : string)
           (available_columns : list string) (schema table : option string)
  : exn :=
  let msg := "Column '" ++ column_name ++ "' not found" in
  let msg :=
    if truthy schema && truthy table then
      msg ++ " in table '" ++ text_of schema ++ "." ++ text_of table ++ "'"
    else if truthy table then
      msg ++ " in table '" ++ text_of table ++ "'"
    else msg in
  let msg := msg ++ ". Available columns: "
                 ++ PyStr.join ", " available_columns in
  let closest := find_closest_matches column_name available_columns 3 in
  let msg :=
    match closest with
    | [] => msg
    | _ => msg ++ ". Did you mean: " ++ PyStr.join ", " closest ++ "?"
    end in
  ColumnMatchError column_name available_columns schema table msg.

(** [match_column(column_name, available_columns, strict)] *)
Definition match_column (column_name : string)
           (available_columns : list string) (strict : bool)
  : result string :=
  if PyStr.mem column_name available_columns then Ok column_name
  else if strict then
    Raise (mkColumnMatchError column_name available_columns None None)
  else
    match find (case_hit column_name) available_columns with
    | Some col => Ok col
    | None =>
        match find (plural_hit column_name) available_columns with
        | Some col => Ok col
        | None =>
            match find (convention_hit column_name) available_columns with
            | Some col => Ok col
            | None =>
                Raise (mkColumnMatchError column_name available_columns
                                          None None)
            end
        end
    end.

End WithInflect.
End Resolver.

(** ** Python values

    The values that travel in rows, parameters and synthesized records.
    [bool] is a subclass of [int] in Python; the [isinstance] tests below
    take that into account. *)

Inductive pyval : Type :=
| VNone
| VBool (b : bool)
| VInt (z : Z)
| VFloat (q : Q)
| VStr (s : string)
| VList (items : list pyval)
| VTuple (items : list pyval)
| VDict (entries : list (pyval * pyval))
| VDatetime (iso : string)
| VDate (iso : string)
| VTime (iso : string)
| VObject (type_name : string).

(** A [dict] keyed by text keeps its insertion order. *)
(** [l.append(x)] *)
Definition append {A : Type} (l : list A) (x : A) : list A := (l ++ [x])%list.

Definition dict (V : Type) : Type := list (string * V).

Definition row : Type := dict pyval.

Module Dict.
Section Ops.
Variable V : Type.

(** [k in d] *)
Definition has (k : string) (d : dict V) : bool :=
  existsb (fun kv => String.eqb (fst kv) k) d.

(** [d.get(k)] *)
Fixpoint get (k : string) (d : dict V) : option V :=
  match d with
  | [] => None
  | (k', v) :: rest => if String.eqb k' k then Some v else get k rest
  end.

(** [d[k] = v]: an existing key keeps its place, a new one goes last. *)
Fixpoint set (k : string) (v : V) (d : dict V) : dict V :=
  match d with
  | [] => [(k, v)]
  | (k', v') :: rest =>
      if String.eqb k' k then (k', v) :: rest
      else (k', v') :: set k v rest
  end.

Definition keys (d : dict V) : list string := map fst d.
Definition values (d : dict V) : list V := map snd d.

(** A well-formed dictionary has no repeated key. *)
Definition wf (d : dict V) : Prop := NoDup (keys d).
End Ops.
End Dict.

(** ** A state-and-exception monad

    Python code that mutates [self] and may raise: the state survives a
    raise, as it does in Python. *)

Definition M (S A : Type) : Type := S -> result A * S.

Definition ret {S A : Type} (a : A) : M S A := fun s => (Ok a, s).

Definition raise {S A : Type} (e : exn) : M S A := fun s => (Raise e, s).

Definition bind {S A B : Type} (m : M S A) (k : A -> M S B) : M S B :=
  fun s =>
    match m s with
    | (Ok a, s') => k a s'
    | (Raise e, s') => (Raise e, s')
    end.

(** [try: m  except Exception as e: h e] *)
Definition try_except {S A : Type} (m : M S A) (h : exn -> M S A) : M S A :=
  fun s =>
    match m s with
    | (Ok a, s') => (Ok a, s')
    | (Raise e, s') => h e s'
    end.

Definition lift {S A : Type} (r : result A) : M S A := fun s => (r, s).

Declare Scope monad_scope.
Delimit Scope monad_scope with monad.
Notation "x <- m ;; k" := (bind m (fun x => k))
  (at level 61, m at next level, right associativity) : monad_scope.
Notation "m ;;; k" := (bind m (fun _ => k))
  (at level 61, right associativity) : monad_scope.

(** ** CRUD operator ([db_operator.py], class [DBOperator]) *)

Module Operator.

(** The [fetch_row] / [fetch_all] flags of [DBConnector.execute] and the
    shape of what each one returns. *)
Inductive fetch_mode : Type := FetchStatus | FetchRow | FetchAll.

Definition reply (m : fetch_mode) : Type :=
  match m with
  | FetchStatus => string
  | FetchRow => option row
  | FetchAll => list row
  end.

(** [uuid_value: Union[str, uuid.UUID]] *)
Inductive key_value : Type :=
| KeyText (s : string)
| KeyUUID (canonical : string).

(** [str(uuid_value)] *)
Definition str_of_key (v : key_value) : string :=
  match v with
  | KeyText s => s
  | KeyUUID c => c
  end.

(** [value is None] *)
Definition is_null (value : pyval) : bool :=
  match value with
  | VNone => true
  | _ => false
  end.

(** *** Formatting for logs and storage (class [DBOperatorFormatting]) *)

(** [text[:n]] *)
Definition slice_to (n : Z) (text : string) : string :=
  if (0 <=? n)%Z then String.substring 0 (Z.to_nat n) text
  else String.substring 0 (String.length text - Z.to_nat (- n)) text.

(** [_truncate_text(text, max_length)] *)
Definition _truncate_text (text : string) (max_length : Z) : string :=
  if (Z.of_nat (String.length text) <=? max_length)%Z then text
  else
    slice_to max_length text ++ "... [truncated "
      ++ PyStr.of_Z (Z.of_nat (String.length text) - max_length)
      ++ " chars]".

(** [_format_variable(value, max_length)] *)
Fixpoint _format_variable (value : pyval) (max_length : Z) : pyval :=
  match value with
  | VDict entries =>
      VDict (map (fun kv =>
                    match kv with
                    | (k, v) => (k, _format_variable v max_length)
                    end) entries)
  | VList items =>
      VList (map (fun item => _format_variable item max_length) items)
  | VStr s =>
      if (max_length <? Z.of_nat (String.length s))%Z
      then VStr (_truncate_text s max_length)
      else value
  | _ => value
  end.

(** [_format_for_logging(data, max_value_length)] *)
Fixpoint _format_for_logging (data : pyval) (max_value_length : Z) : pyval :=
  match data with
  | VDict entries =>
      VDict (map (fun kv =>
                    match kv with
                    | (k, v) => (k, _format_for_logging v max_value_length)
                    end) entries)
  | VList items =>
      VList (map (fun item => _format_for_logging item max_value_length)
                 items)
  | VStr s =>
      if (max_value_length <? Z.of_nat (String.length s))%Z
      then VStr (slice_to max_value_length s ++ "... [truncated "
                   ++ PyStr.of_Z (Z.of_nat (String.length s)
                                  - max_value_length)
                   ++ " chars]")
      else data
  | _ => data
  end.

Section WithCollaborators.

Variable singular_noun : string -> option string.
Variable plural : string -> string.

(** [datetime.fromisoformat]: the parsed instant, or [ValueError]. *)
Variable fromisoformat : string -> option string.

(** [json.loads] on text read from the database: the decoded value, or
    [JSONDecodeError]. *)
Variable json_loads : string -> option pyval.

(** The connection collaborator: [DBConnector.execute(query, params,
    fetch_*, schema)]. *)
Variable Conn : Type.
Variable execute :
  forall m : fetch_mode,
    string -> option (list pyval) -> option string -> Conn ->
    result (reply m) * Conn.

Record DBOperator : Type := mkOperator {
  connector : Conn;
  table_columns_cache : dict (list string)
}.

Local Abbreviation Op := (M DBOperator).
Local Open Scope monad_scope.

Definition match_column := Resolver.match_column singular_noun plural.
Definition mkColumnMatchError :=
  Resolver.mkColumnMatchError singular_noun plural.

(** [await self._connector.execute(...)] *)
Definition connector_execute (m : fetch_mode) (query : string)
           (params : option (list pyval)) (schema : option string)
  : Op (reply m) :=
  fun self =>
    let (r, c) := execute m query params schema (connector self) in
    (r, mkOperator c (table_columns_cache self)).

(** The catalog query of [_get_table_columns], line by line. *)
Definition columns_query : string :=
  PyStr.join PyStr.newline
    [""; "        SELECT column_name ";
     "        FROM information_schema.columns ";
     "        WHERE table_schema = $1 ";
     "        AND table_name = $2"; "        "].

(** [[col['column_name'] for col in columns]]; the catalog view holds
    text in that column. *)
Fixpoint column_names (rows : list row) : result (list string) :=
  match rows with
  | [] => Ok []
  | r :: rest =>
      match Dict.get "column_name" r with
      | Some (VStr name) =>
          match column_names rest with
          | Ok names => Ok (name :: names)
          | Raise e => Raise e
          end
      | Some _ => Raise (TypeError "column_name")
      | None => Raise (KeyError "'column_name'")
      end
  end.

(** [_get_table_columns(table, schema)] *)
Definition _get_table_columns (table schema : string) : Op (list string) :=
  let cache_key := schema ++ "." ++ table in
  fun self =>
    match Dict.get cache_key (table_columns_cache self) with
    | Some cols => (Ok cols, self)
    | None =>
        (columns <- connector_execute FetchAll columns_query
                      (Some [VStr schema; VStr table]) None ;;
         match columns with
         | [] => raise (SchemaError
                          ("Table " ++ schema ++ "." ++ table
                                    ++ " does not exist"))
         | _ =>
             result_ <- lift (column_names columns) ;;
             fun self' =>
               (Ok result_,
                mkOperator (connector self')
                  (Dict.set cache_key result_ (table_columns_cache self')))
         end) self
    end.

(** The conversion of timestamp texts inside [_format_record]. *)
Definition convert_value (matched_key : string) (value : pyval) : pyval :=
  match value with
  | VStr s =>
      if PyStr.contains "created_at" matched_key
         || PyStr.contains "updated_at" matched_key
      then match fromisoformat (PyStr.replace " +00:00" "+00:00" s) with
           | Some d => VDatetime d
           | None => value
           end
      else value
  | _ => value
  end.

(** The [for key, value in record.items()] loop of [_format_record];
    [n] is [len(record)]. *)
Fixpoint format_loop (n : nat) (allowed_columns : list string)
         (items : row) (formatted_record : row)
         (unknown_columns : list string)
  : result (row * list string) :=
  match items with
  | [] => Ok (formatted_record, unknown_columns)
  | (key, value) :: rest =>
      match match_column key allowed_columns false with
      | Ok matched_key =>
          format_loop n allowed_columns rest
            (Dict.set matched_key (convert_value matched_key value)
                      formatted_record)
            unknown_columns
      | Raise (ColumnMatchError _ _ _ _ _) =>
          if (n =? 1)%nat then
            Raise (mkColumnMatchError key allowed_columns None None)
          else
            format_loop n allowed_columns rest formatted_record
                        (append unknown_columns key)
      | Raise e => Raise e
      end
  end.

(** [_format_record(record, columns, allowed_columns)] *)
Definition _format_record (record : row) (columns : option (list string))
           (allowed_columns : option (list string))
  : result (row * list string) :=
  let allowed_columns :=
    match allowed_columns with
    | Some ((_ :: _) as a) => a
    | _ => Dict.keys record
    end in
  match format_loop (List.length record) allowed_columns record [] [] with
  | Raise e => Raise e
  | Ok (formatted_record, _) =>
      match columns with
      | Some ((_ :: _) as cols) =>
          Ok (filter (fun kv => PyStr.mem (fst kv) cols) formatted_record,
              Dict.keys formatted_record)
      | _ => Ok (formatted_record, Dict.keys formatted_record)
      end
  end.


(** The [WHERE] loop of [fetch]: [i] is the [enumerate] index. *)
Fixpoint fetch_where_loop (i : nat) (items : row)
         (where_clauses : list string) (params : list pyval)
  : list string * list pyval :=
  match items with
  | [] => (where_clauses, params)
  | (col, value) :: rest =>
      match value with
      | VNone =>
          fetch_where_loop (S i) rest
            (append where_clauses (col ++ " IS NULL")) params
      | _ =>
          fetch_where_loop (S i) rest
            (append where_clauses
               (col ++ " = $" ++ PyStr.of_nat (List.length params + 1)))
            (append params value)
      end
  end.

Definition strip_leading_dash (order_by : string) : string * bool :=
  match order_by with
  | String "-" r => (r, true)
  | _ => (order_by, false)
  end.

(** [fetch(table, conditions, order_by, limit, offset, schema)] *)
Definition fetch (table : string) (conditions : option row)
           (order_by : option string) (limit offset : option Z)
           (schema : string) : Op (list row) :=
  columns <- _get_table_columns table schema ;;
  let query_parts := ["SELECT * FROM " ++ schema ++ "." ++ table] in
  let params := @nil pyval in
  st1 <- match conditions with
         | Some ((_ :: _) as conds) =>
             fc <- lift (_format_record conds None (Some columns)) ;;
             let '(where_clauses, params) :=
               fetch_where_loop 0 (fst fc) [] params in
             match where_clauses with
             | [] => ret (query_parts, params)
             | _ =>
                 ret (append query_parts
                        ("WHERE " ++ PyStr.join " AND " where_clauses),
                      params)
             end
         | _ => ret (query_parts, params)
         end ;;
  let '(query_parts, params) := st1 in
  query_parts <-
    match order_by with
    | Some ((String _ _) as ob) =>
        let '(ob, desc) := strip_leading_dash ob in
        matched_column <- lift (match_column ob columns false) ;;
        let direction := if desc then "DESC" else "ASC" in
        ret (append query_parts
               ("ORDER BY " ++ matched_column ++ " " ++ direction))
    | _ => ret query_parts
    end ;;
  let '(query_parts, params) :=
    match limit with
    | Some l =>
        (append query_parts
           ("LIMIT $" ++ PyStr.of_nat (List.length params + 1)),
         append params (VInt l))
    | None => (query_parts, params)
    end in
  let '(query_parts, params) :=
    match offset with
    | Some o =>
        (append query_parts
           ("OFFSET $" ++ PyStr.of_nat (List.length params + 1)),
         append params (VInt o))
    | None => (query_parts, params)
    end in
  let query := PyStr.join " " query_parts in
  connector_execute FetchAll query
    (match params with [] => None | _ => Some params end) None.

(** [[f"${i+1}" for i in range(n)]] *)
Definition placeholders (n : nat) : list string :=
  map (fun i => "$" ++ PyStr.of_nat (i + 1)) (seq 0 n).

(** [insert(table, data, returning, schema)] *)
Definition insert (table : string) (data : row) (returning : bool)
           (schema : string) : Op (option row) :=
  columns <- _get_table_columns table schema ;;
  fd <- lift (_format_record data None (Some columns)) ;;
  let formatted_data := fst fd in
  match formatted_data with
  | [] => raise (ValueError "No valid columns to insert")
  | _ =>
      let column_names := Dict.keys formatted_data in
      let values := Dict.values formatted_data in
      let query :=
        "INSERT INTO " ++ schema ++ "." ++ table
          ++ " (" ++ PyStr.join ", " column_names ++ ") VALUES ("
          ++ PyStr.join ", " (placeholders (List.length values)) ++ ")" in
      if returning then
        connector_execute FetchRow (query ++ " RETURNING *")
                          (Some values) None
      else
        connector_execute FetchStatus query (Some values) None ;;;
        ret None
  end.

(** The [SET] loop of [update]. *)
Fixpoint update_set_loop (i : nat) (items : row)
         (set_parts : list string) (params : list pyval)
  : list string * list pyval :=
  match items with
  | [] => (set_parts, params)
  | (col, value) :: rest =>
      update_set_loop (S i) rest
        (append set_parts (col ++ " = $" ++ PyStr.of_nat (i + 1)))
        (append params value)
  end.

(** The [WHERE] loop of [update]: the placeholder is numbered
    [len(params) + i + 1], with [i] the [enumerate] index over the
    conditions and [params] growing as the loop goes. *)
Fixpoint update_where_loop (i : nat) (items : row)
         (where_parts : list string) (params : list pyval)
  : list string * list pyval :=
  match items with
  | [] => (where_parts, params)
  | (col, value) :: rest =>
      match value with
      | VNone =>
          update_where_loop (S i) rest
            (append where_parts (col ++ " IS NULL")) params
      | _ =>
          update_where_loop (S i) rest
            (append where_parts (col ++ " = $"
                       ++ PyStr.of_nat (List.length params + i + 1)))
            (append params value)
      end
  end.

(** The statement text and the parameter tuple that [update] builds. *)
Definition update_statement (table schema : string)
           (formatted_data formatted_conditions : row)
  : string * list pyval :=
  let '(set_parts, params) := update_set_loop 0 formatted_data [] [] in
  let '(where_parts, params) :=
    update_where_loop 0 formatted_conditions [] params in
  ("UPDATE " ++ schema ++ "." ++ table
     ++ " SET " ++ PyStr.join ", " set_parts
     ++ " WHERE " ++ PyStr.join " AND " where_parts,
   params).

(** [update(table, data, conditions, returning, schema)] *)
Definition update (table : string) (data conditions : row)
           (returning : bool) (schema : string) : Op (option row) :=
  columns <- _get_table_columns table schema ;;
  fd <- lift (_format_record data None (Some columns)) ;;
  fc <- lift (_format_record conditions None (Some columns)) ;;
  let formatted_data := fst fd in
  let formatted_conditions := fst fc in
  match formatted_data, formatted_conditions with
  | [], _ => raise (ValueError "No valid columns to update")
  | _, [] => raise (ValueError "No valid conditions for update")
  | _, _ =>
      let '(query, params) :=
        update_statement table schema formatted_data formatted_conditions in
      if returning then
        connector_execute FetchRow (query ++ " RETURNING *")
                          (Some params) None
      else
        connector_execute FetchStatus query (Some params) None ;;;
        ret None
  end.

(** The result loop of [get_by_uuid]:
    [for key, value in record.items(): ...  record[key] = json.loads(value)] *)
Definition json_columns : list string := ["metadata"; "variables"; "content"].

Fixpoint decode_loop (items : row) (record : row) : row :=
  match items with
  | [] => record
  | (key, value) :: rest =>
      match value with
      | VStr s =>
          if PyStr.mem key json_columns then
            match json_loads s with
            | Some parsed => decode_loop rest (Dict.set key parsed record)
            | None => decode_loop rest record
            end
          else decode_loop rest record
      | _ => decode_loop rest record
      end
  end.

(** [get_by_uuid(table, uuid_value, uuid_column, schema)] *)
Definition get_by_uuid (table : string) (uuid_value : key_value)
           (uuid_column : option string) (schema : string)
  : Op (option row) :=
  columns <- _get_table_columns table schema ;;
  let column_list := "*" in
  let uuid_column :=
    match uuid_column with
    | Some c => c
    | None => if PyStr.mem "uuid" columns then "uuid" else "id"
    end in
  if negb (PyStr.mem uuid_column columns) then
    raise (mkColumnMatchError uuid_column columns (Some schema) (Some table))
  else
    let query :=
      "SELECT " ++ column_list ++ " FROM " ++ schema ++ "." ++ table
                ++ " WHERE " ++ uuid_column ++ " = $1" in
    try_except
      (record <- connector_execute FetchRow query
                   (Some [VStr (str_of_key uuid_value)]) (Some schema) ;;
       match record with
       | None | Some [] => ret None
       | Some rec => ret (Some (decode_loop rec rec))
       end)
      (fun e => raise (QueryError
                         ("Failed to get record by UUID: " ++ exn_str e))).

(** [fetch_one(table, conditions, schema)] *)
Definition fetch_one (table : string) (conditions : row) (schema : string)
  : Op (option row) :=
  results <- fetch table (Some conditions) None (Some 1%Z) None schema ;;
  ret (match results with
       | r :: _ => Some r
       | [] => None
       end).

(** [get_by_name(table, name_value, name_column, schema)] *)
Definition get_by_name (table name_value name_column schema : string)
  : Op (option row) :=
  columns <- _get_table_columns table schema ;;
  matched_column <- lift (match_column name_column columns false) ;;
  fetch_one table [(matched_column, VStr name_value)] schema.

(** [get_by_column(table, column_name, column_value, schema)] *)
Definition get_by_column (table column_name : string) (column_value : pyval)
           (schema : string) : Op (option row) :=
  columns <- _get_table_columns table schema ;;
  matched_column <- lift (match_column column_name columns false) ;;
  fetch_one table [(matched_column, column_value)] schema.

(** The loop of [upsert] over [unique_columns]. *)
Fixpoint match_unique (unique_columns columns matched_unique : list string)
  : result (list string) :=
  match unique_columns with
  | [] => Ok matched_unique
  | col :: rest =>
      match match_column col columns false with
      | Ok matched_col =>
          match_unique rest columns (append matched_unique matched_col)
      | Raise e => Raise e
      end
  end.

(** The loop of [upsert] that builds the [DO UPDATE SET] list. *)
Fixpoint upsert_update_parts (column_names matched_unique : list string)
         (update_parts : list string) : list string :=
  match column_names with
  | [] => update_parts
  | col :: rest =>
      if negb (PyStr.mem col matched_unique) then
        upsert_update_parts rest matched_unique
          (append update_parts (col ++ " = EXCLUDED." ++ col))
      else upsert_update_parts rest matched_unique update_parts
  end.

(** The statement text of [upsert]: the template, line by line, then the
    [SET] list. *)
Definition upsert_statement (table schema : string)
           (column_names : list string) (n_values : nat)
           (matched_unique : list string) : string :=
  PyStr.join PyStr.newline
    [""; "        INSERT INTO " ++ schema ++ "." ++ table
           ++ " (" ++ PyStr.join ", " column_names ++ ")";
     "        VALUES (" ++ PyStr.join ", " (placeholders n_values) ++ ")";
     "        ON CONFLICT (" ++ PyStr.join ", " matched_unique
           ++ ") DO UPDATE SET ";
     "        "]
    ++ PyStr.join ", " (upsert_update_parts column_names matched_unique []).

(** [upsert(table, data, unique_columns, returning, schema)] *)
Definition upsert (table : string) (data : row)
           (unique_columns : list string) (returning : bool)
           (schema : string) : Op (option row) :=
  columns <- _get_table_columns table schema ;;
  fd <- lift (_format_record data None (Some columns)) ;;
  let formatted_data := fst fd in
  match formatted_data with
  | [] => raise (ValueError "No valid columns to upsert")
  | _ =>
      matched_unique <- lift (match_unique unique_columns columns []) ;;
      match matched_unique with
      | [] => raise (ValueError "No valid unique columns for upsert")
      | _ =>
          let column_names := Dict.keys formatted_data in
          let values := Dict.values formatted_data in
          let query :=
            upsert_statement table schema column_names (List.length values)
                             matched_unique in
          if returning then
            connector_execute FetchRow (query ++ " RETURNING *")
                              (Some values) None
          else
            connector_execute FetchStatus query (Some values) None ;;;
            ret None
      end
  end.

(** The [WHERE] loop of [delete]: the placeholder is numbered [i + 1],
    with [i] the [enumerate] index over the conditions. *)
Fixpoint delete_where_loop (i : nat) (items : row)
         (where_parts : list string) (params : list pyval)
  : list string * list pyval :=
  match items with
  | [] => (where_parts, params)
  | (col, value) :: rest =>
      match value with
      | VNone =>
          delete_where_loop (S i) rest
            (append where_parts (col ++ " IS NULL")) params
      | _ =>
          delete_where_loop (S i) rest
            (append where_parts (col ++ " = $" ++ PyStr.of_nat (i + 1)))
            (append params value)
      end
  end.

(** What [delete] returns: the deleted rows, or their number. *)
Inductive deleted : Type :=
| DeletedRows (rows : list row)
| DeletedCount (n : Z).

(** [int(result.split()[1])], with [0] for [IndexError] and
    [ValueError]. *)
Definition affected_rows (result_ : string) : Z :=
  match PyStr.split_ws result_ with
  | _ :: count :: _ =>
      match PyStr.int_of count with
      | Some n => n
      | None => 0%Z
      end
  | _ => 0%Z
  end.

(** [delete(table, conditions, returning, schema)] *)
Definition delete (table : string) (conditions : row) (returning : bool)
           (schema : string) : Op deleted :=
  columns <- _get_table_columns table schema ;;
  fc <- lift (_format_record conditions None (Some columns)) ;;
  let formatted_conditions := fst fc in
  match formatted_conditions with
  | [] => raise (ValueError "No valid conditions for delete")
  | _ =>
      let '(where_parts, params) :=
        delete_where_loop 0 formatted_conditions [] [] in
      let query :=
        "DELETE FROM " ++ schema ++ "." ++ table
          ++ " WHERE " ++ PyStr.join " AND " where_parts in
      if returning then
        rows <- connector_execute FetchAll (query ++ " RETURNING *")
                  (Some params) None ;;
        ret (DeletedRows rows)
      else
        result_ <- connector_execute FetchStatus query (Some params) None ;;
        ret (DeletedCount (affected_rows result_))
  end.

(** The line scan of [run_sql_script]. *)
Record scan : Type := mkScan {
  statements : list string;
  current_statement : list string;
  in_copy_block : bool;
  copy_data : list string
}.

Definition copy_terminator : string :=
  String (ascii_of_nat 92) (String "." EmptyString).

Definition scan_line (st : scan) (line : string) : scan :=
  let stripped_line := PyStr.strip line in
  if negb (in_copy_block st)
     && PyStr.startswith "COPY " stripped_line
     && PyStr.contains "FROM stdin;" (PyStr.lower stripped_line)
  then
    mkScan (statements st) (append (current_statement st) line) true
           (copy_data st)
  else if in_copy_block st && String.eqb stripped_line copy_terminator then
    let copy_data_ := append (copy_data st) line in
    let copy_text := PyStr.join PyStr.newline copy_data_ in
    let current := append (current_statement st) copy_text in
    mkScan (append (statements st) (PyStr.join PyStr.newline current))
           [] false []
  else if in_copy_block st then
    mkScan (statements st) (current_statement st) true
           (append (copy_data st) line)
  else if negb (in_copy_block st) && PyStr.endswith ";" stripped_line then
    let current := append (current_statement st) line in
    mkScan (append (statements st) (PyStr.join PyStr.newline current))
           [] (in_copy_block st) (copy_data st)
  else if negb (in_copy_block st) then
    match stripped_line with
    | EmptyString => st
    | _ =>
        if negb (PyStr.startswith "--" stripped_line) then
          mkScan (statements st) (append (current_statement st) line)
                 (in_copy_block st) (copy_data st)
        else st
    end
  else st.

Definition scan_script (script : string) : scan :=
  fold_left scan_line (PyStr.splitlines script) (mkScan [] [] false []).

(** The execution loop of [run_sql_script]; [i] is the [enumerate]
    index and [n] is [len(statements)]. *)
Fixpoint run_statements (i n : nat) (stmts : list string) : Op unit :=
  match stmts with
  | [] => ret tt
  | statement :: rest =>
      match PyStr.strip statement with
      | EmptyString => run_statements (S i) n rest
      | _ =>
          try_except
            (connector_execute FetchStatus statement None None ;;; ret tt)
            (fun e =>
               raise (QueryError
                        ("Error executing statement " ++ PyStr.of_nat (i + 1)
                           ++ "/" ++ PyStr.of_nat n ++ ": " ++ exn_str e))) ;;;
          run_statements (S i) n rest
      end
  end.

(** [run_sql_script(script, script_name)]; the name only goes to the
    log. *)
Definition run_sql_script (script script_name : string) : Op unit :=
  let stmts := statements (scan_script script) in
  run_statements 0 (List.length stmts) stmts.

End WithCollaborators.
End Operator.

(** ** Schema registry ([mock/schema_registry.py]) *)

Module Registry.

(** One entry of ["columns"]. *)
Record ColumnInfo : Type := mkColumn {
  col_type : string;
  nullable : bool;
  default : option string;
  max_length : option Z
}.

Record ForeignKey : Type := mkForeignKey {
  ref_schema : string;
  ref_table : string;
  ref_column : string
}.

Record IndexInfo : Type := mkIndex {
  index_columns : list string;
  unique : bool
}.

(** What [get_table_schema] returns. *)
Record TableSchema : Type := mkTable {
  columns : dict ColumnInfo;
  primary_keys : list string;
  foreign_keys : dict ForeignKey;
  indexes : dict IndexInfo
}.

(** [self.table_schemas]: schema name, then table name. *)
Definition Cache : Type := dict (dict TableSchema).

(** The registry object.  [C] is how the cache is represented: [Cache]
    for everything that reads table metadata, the raw Python value for
    the snapshot import, which stores whatever the document holds. *)
Record SchemaRegistry (C : Type) : Type := mkRegistry {
  schema_source : string;
  schema_file : option string;
  table_schemas : C;
  initialized : bool
}.

(** [datetime.datetime.now()] rendered the three ways the synthesizer
    uses it. *)
Record Clock : Type := mkClock {
  now_isoformat : string;
  now_date_isoformat : string;
  now_time_isoformat : string
}.

(** ** Value checks (pure) *)

(** [type(value).__name__] *)
Definition type_name (value : pyval) : string :=
  match value with
  | VNone => "NoneType"
  | VBool _ => "bool"
  | VInt _ => "int"
  | VFloat _ => "float"
  | VStr _ => "str"
  | VList _ => "list"
  | VTuple _ => "tuple"
  | VDict _ => "dict"
  | VDatetime _ => "datetime"
  | VDate _ => "date"
  | VTime _ => "time"
  | VObject n => n
  end.

Definition isinstance_int (v : pyval) : bool :=
  match v with VInt _ | VBool _ => true | _ => false end.

Definition isinstance_str (v : pyval) : bool :=
  match v with VStr _ => true | _ => false end.

Definition isinstance_number (v : pyval) : bool :=
  match v with VInt _ | VBool _ | VFloat _ => true | _ => false end.

Definition isinstance_bool (v : pyval) : bool :=
  match v with VBool _ => true | _ => false end.

(** [isinstance(value, (str, datetime, date, time))] *)
Definition isinstance_temporal (v : pyval) : bool :=
  match v with
  | VStr _ | VDatetime _ | VDate _ | VTime _ => true
  | _ => false
  end.

(** What makes [json.dumps(value)] raise, if anything: the message of
    its [TypeError]. *)
Definition json_key_ok (k : pyval) : bool :=
  match k with
  | VStr _ | VInt _ | VFloat _ | VBool _ | VNone => true
  | _ => false
  end.

Fixpoint json_dumps_error (value : pyval) : option string :=
  match value with
  | VNone | VBool _ | VInt _ | VFloat _ | VStr _ => None
  | VList items | VTuple items =>
      (fix each (l : list pyval) : option string :=
         match l with
         | [] => None
         | x :: r =>
             match json_dumps_error x with
             | Some e => Some e
             | None => each r
             end
         end) items
  | VDict entries =>
      (fix each (l : list (pyval * pyval)) : option string :=
         match l with
         | [] => None
         | (k, x) :: r =>
             if json_key_ok k then
               match json_dumps_error x with
               | Some e => Some e
               | None => each r
               end
             else Some ("keys must be str, int, float, bool or None, not "
                          ++ type_name k)
         end) entries
  | _ => Some ("Object of type " ++ type_name value
                                 ++ " is not JSON serializable")
  end.

(** [re.match(r'^[0-9a-f]{8}-[0-9a-f]{4}-[0-9a-f]{4}-[0-9a-f]{4}-[0-9a-f]{12}$',
             value, re.I)]; [$] also matches before a final newline. *)
Definition is_hex (c : ascii) : bool :=
  let n := nat_of_ascii c in
  ((48 <=? n) && (n <=? 57) || (97 <=? n) && (n <=? 102)
   || (65 <=? n) && (n <=? 70))%nat.

Fixpoint eat_hex (n : nat) (s : string) : option string :=
  match n with
  | O => Some s
  | S n' =>
      match s with
      | String c r => if is_hex c then eat_hex n' r else None
      | EmptyString => None
      end
  end.

Definition eat_dash (s : string) : option string :=
  match s with
  | String "-" r => Some r
  | _ => None
  end.

Definition opt_bind {A B : Type} (o : option A) (f : A -> option B)
  : option B :=
  match o with Some a => f a | None => None end.

Definition uuid_match (value : string) : bool :=
  match
    opt_bind (eat_hex 8 value) (fun s =>
    opt_bind (eat_dash s) (fun s =>
    opt_bind (eat_hex 4 s) (fun s =>
    opt_bind (eat_dash s) (fun s =>
    opt_bind (eat_hex 4 s) (fun s =>
    opt_bind (eat_dash s) (fun s =>
    opt_bind (eat_hex 4 s) (fun s =>
    opt_bind (eat_dash s) (fun s =>
    eat_hex 12 s))))))))
  with
  | Some rest => String.eqb rest "" || String.eqb rest PyStr.newline
  | None => false
  end.

Definition integer_types : list string :=
  ["integer"; "smallint"; "bigint"; "int"].

Definition numeric_types : list string :=
  ["numeric"; "decimal"; "real"; "double precision"; "float"].

Definition temporal_types : list string := ["timestamp"; "date"; "time"].

Definition is_character_type (data_type : string) : bool :=
  PyStr.startswith "character" data_type
  || PyStr.startswith "varchar" data_type
  || String.eqb data_type "text".

Definition opt_text (o : option string) : string :=
  match o with Some s => s | None => "None" end.

(** [max_length and len(value) > max_length] *)
Definition too_long (s : string) (max_length : option Z) : option Z :=
  match max_length with
  | Some m =>
      if negb (m =? 0)%Z && (m <? Z.of_nat (String.length s))%Z
      then Some m else None
  | None => None
  end.

(** [_validate_data_type(value, data_type, max_length)] *)
Fixpoint _validate_data_type (value : pyval) (data_type : string)
         (max_length : option Z) {struct value} : bool * option string :=
  if PyStr.mem data_type integer_types then
    if isinstance_int value then (true, None)
    else (false, Some ("Expected integer, got " ++ type_name value))
  else if is_character_type data_type then
    match value with
    | VStr s =>
        match too_long s max_length with
        | Some m =>
            (false, Some ("String exceeds maximum length of " ++ PyStr.of_Z m))
        | None => (true, None)
        end
    | _ => (false, Some ("Expected string, got " ++ type_name value))
    end
  else if PyStr.mem data_type numeric_types then
    if isinstance_number value then (true, None)
    else (false, Some ("Expected number, got " ++ type_name value))
  else if String.eqb data_type "boolean" then
    if isinstance_bool value then (true, None)
    else (false, Some ("Expected boolean, got " ++ type_name value))
  else if PyStr.mem data_type temporal_types then
    if isinstance_temporal value then (true, None)
    else (false, Some ("Expected timestamp/date/time, got "
                         ++ type_name value))
  else if String.eqb data_type "jsonb" || String.eqb data_type "json" then
    match json_dumps_error value with
    | Some e => (false, Some e)
    | None => (true, None)
    end
  else if String.eqb data_type "uuid" then
    match value with
    | VStr s =>
        if uuid_match s then (true, None)
        else (false, Some ("Invalid UUID format: " ++ s))
    | _ => (false, Some ("Expected string for UUID, got " ++ type_name value))
    end
  else if PyStr.endswith "[]" data_type then
    match value with
    | VList items | VTuple items =>
        let base_type := PyStr.drop_last 2 data_type in
        (fix each (l : list pyval) : bool * option string :=
           match l with
           | [] => (true, None)
           | item :: r =>
               let '(item_valid, item_error) :=
                 _validate_data_type item base_type None in
               if item_valid then each r
               else (false, Some ("Array element invalid: "
                                    ++ opt_text item_error))
           end) items
    | _ => (false, Some ("Expected array, got " ++ type_name value))
    end
  else (true, None).

(** The auto-generation test shared by validation and synthesis:
    [default and ("nextval" in str(default) or
                  "gen_random_uuid" in str(default))]. *)
Definition has_default (col_info : ColumnInfo) : bool :=
  match default col_info with
  | Some (String _ _) => true
  | _ => false
  end.

Definition is_auto_generated (col_info : ColumnInfo) : bool :=
  match default col_info with
  | Some ((String _ _) as d) =>
      PyStr.contains "nextval" d || PyStr.contains "gen_random_uuid" d
  | _ => false
  end.

(** First loop of [validate_insert_data]. *)
Fixpoint missing_required (cols : dict ColumnInfo) (data : row)
  : option string :=
  match cols with
  | [] => None
  | (col_name, col_info) :: rest =>
      if negb (nullable col_info) && negb (has_default col_info)
         && negb (is_auto_generated col_info)
         && negb (Dict.has col_name data)
      then Some col_name
      else missing_required rest data
  end.

(** Second loop of [validate_insert_data]. *)
Fixpoint check_values (cols : dict ColumnInfo) (items : row)
  : bool * option string :=
  match items with
  | [] => (true, None)
  | (col_name, value) :: rest =>
      match Dict.get col_name cols with
      | None => (false, Some ("Unknown column: " ++ col_name))
      | Some col_info =>
          match value with
          | VNone =>
              if negb (nullable col_info) then
                (false, Some ("Column " ++ col_name ++ " cannot be null"))
              else check_values cols rest
          | _ =>
              let '(type_valid, error) :=
                _validate_data_type value (col_type col_info)
                                    (max_length col_info) in
              if type_valid then check_values cols rest
              else (false, Some ("Invalid value for column " ++ col_name
                                   ++ ": " ++ opt_text error))
          end
      end
  end.

(** The body of [validate_insert_data] once the table is at hand. *)
Definition validate_against (table_schema : TableSchema) (data : row)
  : bool * option string :=
  match missing_required (columns table_schema) data with
  | Some col_name => (false, Some ("Missing required column: " ++ col_name))
  | None => check_values (columns table_schema) data
  end.

(** ** Schema drift ([_compare_schemas]) *)

(** One entry of ["type_differences"] and of
    ["constraint_differences"]. *)
Record TypeDifference : Type := mkTypeDifference {
  type_self : string;
  type_other : string
}.

Record ConstraintDifference : Type := mkConstraintDifference {
  constraint : string;
  constraint_self : bool;
  constraint_other : bool
}.

(** The [differences] dictionary. *)
Record Differences : Type := mkDifferences {
  missing_schemas : list string;
  missing_tables : dict (list string);
  missing_columns : dict (list string);
  type_differences : dict (dict TypeDifference);
  constraint_differences : dict (dict ConstraintDifference)
}.

Definition no_differences : Differences := mkDifferences [] [] [] [] [].

Definition entry_or {V : Type} (fresh : V) (o : option V) : V :=
  match o with Some v => v | None => fresh end.

(** [if key not in d: d[key] = []] then [d[key].append(x)] *)
Definition append_under (key x : string) (d : dict (list string))
  : dict (list string) :=
  Dict.set key (append (entry_or [] (Dict.get key d)) x) d.

(** [if key not in d: d[key] = {}] then [d[key][name] = v] *)
Definition set_under {V : Type} (key name : string) (v : V)
           (d : dict (dict V)) : dict (dict V) :=
  Dict.set key (Dict.set name v (entry_or [] (Dict.get key d))) d.

(** The loop over the columns of one table; [key] is
    [f"{schema}.{table}"]. *)
Fixpoint compare_columns (key : string)
         (self_columns other_columns : dict ColumnInfo)
         (differences : Differences) : Differences :=
  match self_columns with
  | [] => differences
  | (col_name, self_info) :: rest =>
      match Dict.get col_name other_columns with
      | None =>
          compare_columns key rest other_columns
            (mkDifferences
               (missing_schemas differences)
               (missing_tables differences)
               (append_under key col_name (missing_columns differences))
               (type_differences differences)
               (constraint_differences differences))
      | Some other_info =>
          let differences :=
            if negb (String.eqb (col_type self_info) (col_type other_info))
            then
              mkDifferences
                (missing_schemas differences)
                (missing_tables differences)
                (missing_columns differences)
                (set_under key col_name
                   (mkTypeDifference (col_type self_info)
                                     (col_type other_info))
                   (type_differences differences))
                (constraint_differences differences)
            else differences in
          let differences :=
            if negb (Bool.eqb (nullable self_info) (nullable other_info))
            then
              mkDifferences
                (missing_schemas differences)
                (missing_tables differences)
                (missing_columns differences)
                (type_differences differences)
                (set_under key col_name
                   (mkConstraintDifference "nullable" (nullable self_info)
                                           (nullable other_info))
                   (constraint_differences differences))
            else differences in
          compare_columns key rest other_columns differences
      end
  end.

(** The loop over the tables of one schema. *)
Fixpoint compare_tables (schema : string)
         (self_tables other_tables : dict TableSchema)
         (differences : Differences) : Differences :=
  match self_tables with
  | [] => differences
  | (table, self_table) :: rest =>
      match Dict.get table other_tables with
      | None =>
          compare_tables schema rest other_tables
            (mkDifferences
               (missing_schemas differences)
               (append_under schema table (missing_tables differences))
               (missing_columns differences)
               (type_differences differences)
               (constraint_differences differences))
      | Some other_table =>
          compare_tables schema rest other_tables
            (compare_columns (schema ++ "." ++ table)
               (columns self_table) (columns other_table) differences)
      end
  end.

(** The loop over the schemas. *)
Fixpoint compare_caches (self_schemas other_schemas : Cache)
         (differences : Differences) : Differences :=
  match self_schemas with
  | [] => differences
  | (schema, self_tables) :: rest =>
      match Dict.get schema other_schemas with
      | None =>
          compare_caches rest other_schemas
            (mkDifferences
               (append (missing_schemas differences) schema)
               (missing_tables differences)
               (missing_columns differences)
               (type_differences differences)
               (constraint_differences differences))
      | Some other_tables =>
          compare_caches rest other_schemas
            (compare_tables schema self_tables other_tables differences)
      end
  end.

(** [self._compare_schemas(other_registry)] *)
Definition _compare_schemas (self other_registry : SchemaRegistry Cache)
  : Differences :=
  compare_caches (table_schemas self) (table_schemas other_registry)
                 no_differences.

Section Lifecycle.

(** The outside world of the registry: the [random] module, the live
    catalog and the file system with its dump parser.

    [db_extract] is the catalog scan of [_load_schema_from_db]: it
    writes into the cache as it goes and reports the reason when the
    connection or a query fails.  [parse_dump] is the [CREATE TABLE]
    scan of [_load_schema_from_file]. *)
Variable C : Type.
Variable Rng : Type.
Variable db_extract : C -> C * option string.
Variable path_exists : string -> bool.
Variable parse_dump : string -> C -> C * option string.

(** The registry object, the generator state, and a count of the
    extraction passes run against the source. *)
Record World : Type := mkWorld {
  self : SchemaRegistry C;
  random_state : Rng;
  extractions : nat
}.

Local Abbreviation Reg := (M World).
Local Open Scope monad_scope.

Definition with_cache (c : C) (r : SchemaRegistry C) : SchemaRegistry C :=
  mkRegistry (schema_source r) (schema_file r) c (initialized r).

Definition with_initialized (b : bool) (r : SchemaRegistry C)
  : SchemaRegistry C :=
  mkRegistry (schema_source r) (schema_file r) (table_schemas r) b.

(** [_load_schema_from_db()] *)
Definition _load_schema_from_db : Reg unit :=
  fun w =>
    let '(c, failure) := db_extract (table_schemas (self w)) in
    let w' := mkWorld (with_cache c (self w)) (random_state w)
                      (S (extractions w)) in
    match failure with
    | None => (Ok tt, w')
    | Some reason =>
        (Raise (RuntimeError
                  ("Failed to load schema from database: " ++ reason)), w')
    end.

(** [_load_schema_from_file()] *)
Definition _load_schema_from_file : Reg unit :=
  fun w =>
    match schema_file (self w) with
    | Some ((String _ _) as path) =>
        if path_exists path then
          let '(c, failure) := parse_dump path (table_schemas (self w)) in
          let w' := mkWorld (with_cache c (self w)) (random_state w)
                            (S (extractions w)) in
          match failure with
          | None => (Ok tt, w')
          | Some reason =>
              (Raise (ValueError
                        ("Failed to parse schema file: " ++ reason)), w')
          end
        else (Raise (ValueError ("Schema file not found: " ++ path)), w)
    | other =>
        (Raise (ValueError ("Schema file not found: " ++ opt_text other)), w)
    end.

Definition set_initialized : Reg unit :=
  fun w =>
    (Ok tt, mkWorld (with_initialized true (self w)) (random_state w)
                    (extractions w)).

(** [initialize()] *)
Definition initialize : Reg unit :=
  fun w =>
    if initialized (self w) then (Ok tt, w)
    else
      ((if String.eqb (schema_source (self w)) "db" then
          _load_schema_from_db
        else if String.eqb (schema_source (self w)) "file" then
          _load_schema_from_file
        else
          raise (ValueError ("Unsupported schema source: "
                               ++ schema_source (self w)))) ;;;
       set_initialized) w.

(** The guard that opens [get_table_schema] and [to_json]:
    [if not self.initialized: self.initialize()] *)
Definition ensure_initialized : Reg unit :=
  fun w => if initialized (self w) then (Ok tt, w) else initialize w.

(** A computation that leaves the registry object as it found it (it
    may still advance the random generator). *)
Definition keeps_registry {A : Type} (m : Reg A) : Prop :=
  forall w, self (snd (m w)) = self w.

(** A computation that returns whatever the state, with a value that
    satisfies [P], and leaves the registry object as it found it. *)
Definition yields {A : Type} (m : Reg A) (P : A -> Prop) : Prop :=
  forall w, exists a w', m w = (Ok a, w') /\ self w' = self w /\ P a.

End Lifecycle.

Section WithWorld.

Variable Rng : Type.
Variable random_bits : Rng -> N * Rng.
Variable db_extract : Cache -> Cache * option string.
Variable path_exists : string -> bool.
Variable parse_dump : string -> Cache -> Cache * option string.

(** [datetime.datetime.now()] *)
Variable clock : Clock.

Local Abbreviation Reg := (M (World Cache Rng)).
Local Open Scope monad_scope.

(** The existence checks of [get_table_schema]. *)
Definition lookup_table (schema table : string) : Reg TableSchema :=
  fun w =>
    match Dict.get schema (table_schemas (self w)) with
    | None =>
        (Raise (ValueError ("Schema '" ++ schema
                              ++ "' not found in schema registry")), w)
    | Some tables =>
        match Dict.get table tables with
        | None =>
            (Raise (ValueError ("Table '" ++ table
                                  ++ "' not found in schema '" ++ schema
                                  ++ "'")), w)
        | Some table_schema => (Ok table_schema, w)
        end
    end.

(** [get_table_schema(schema, table)] *)
Definition get_table_schema (schema table : string) : Reg TableSchema :=
  ensure_initialized db_extract path_exists parse_dump ;;;
  lookup_table schema table.

(** [validate_insert_data(schema, table, data)]:
    [try: ... except ValueError as e: return False, str(e)] *)
Definition validate_insert_data (schema table : string) (data : row)
  : Reg (bool * option string) :=
  fun w =>
    match get_table_schema schema table w with
    | (Ok table_schema, w') => (Ok (validate_against table_schema data), w')
    | (Raise e, w') =>
        if isinstance_ValueError e then (Ok (false, Some (exn_str e)), w')
        else (Raise e, w')
    end.

(** ** The [random] module and [uuid.uuid4] *)

Definition draw : Reg N :=
  fun w =>
    let '(n, g) := random_bits (random_state w) in
    (Ok n, mkWorld (self w) g (extractions w)).

(** [random.randint(a, b)] *)
Definition randint (a b : Z) : Reg Z :=
  n <- draw ;; ret (a + Z.of_N n mod (b - a + 1))%Z.

(** [random.choice(options)] on a non-empty list *)
Definition choice {A : Type} (fallback : A) (options : list A) : Reg A :=
  n <- draw ;;
  ret (nth (N.to_nat n mod List.length options) options fallback).

Definition alphabet : list ascii :=
  list_ascii_of_string "abcdefghijklmnopqrstuvwxyz".

(** [''.join(random.choices('abc...z', k=k))]; no letter for [k <= 0]. *)
Fixpoint choices_text (k : nat) : Reg string :=
  match k with
  | O => ret EmptyString
  | S k' =>
      c <- choice "a"%char alphabet ;;
      r <- choices_text k' ;;
      ret (String c r)
  end.

(** [round(random.uniform(lo, hi), 2)] *)
Definition uniform_rounded (lo hi : Z) : Reg pyval :=
  n <- draw ;;
  ret (VFloat (Qmake (lo * 100 + Z.of_N n mod ((hi - lo) * 100 + 1)) 100)).

Definition hex_digit (n : nat) : ascii :=
  nth (n mod 16) (list_ascii_of_string "0123456789abcdef") "0"%char.

Fixpoint hex_text (k : nat) : Reg string :=
  match k with
  | O => ret EmptyString
  | S k' =>
      n <- draw ;;
      r <- hex_text k' ;;
      ret (String (hex_digit (N.to_nat n)) r)
  end.

(** [str(uuid.uuid4())]: random hexadecimal text, version 4, RFC 4122
    variant. *)
Definition uuid4 : Reg string :=
  a <- hex_text 8 ;;
  b <- hex_text 4 ;;
  c <- hex_text 3 ;;
  v <- draw ;;
  d <- hex_text 3 ;;
  e <- hex_text 12 ;;
  ret (a ++ "-" ++ b ++ "-4" ++ c ++ "-"
         ++ String (hex_digit (8 + N.to_nat v mod 4)) d ++ "-" ++ e).

(** ** Synthesis *)

Definition any_contains (terms : list string) (s : string) : bool :=
  existsb (fun term => PyStr.contains term s) terms.

Definition domains : list string :=
  ["example.com"; "test.org"; "mock.net"; "sample.io"].

(** [_generate_mock_scalar_value(data_type, max_length)] *)
Definition _generate_mock_scalar_value (data_type : string)
           (max_length : option Z) : Reg pyval :=
  if PyStr.mem data_type integer_types then
    n <- randint 1 1000 ;; ret (VInt n)
  else if is_character_type data_type then
    let length :=
      Z.min (match max_length with
             | Some m => if (m =? 0)%Z then 10 else m
             | None => 10
             end) 10 in
    s <- choices_text (Z.to_nat length) ;; ret (VStr s)
  else if PyStr.mem data_type numeric_types then
    uniform_rounded 1 100
  else if String.eqb data_type "boolean" then
    b <- choice true [true; false] ;; ret (VBool b)
  else if String.eqb data_type "uuid" then
    u <- uuid4 ;; ret (VStr u)
  else ret (VStr ("mock-" ++ data_type ++ "-value")).

Fixpoint repeat_scalar (count : nat) (base_type : string)
  : Reg (list pyval) :=
  match count with
  | O => ret []
  | S count' =>
      x <- _generate_mock_scalar_value base_type None ;;
      r <- repeat_scalar count' base_type ;;
      ret (x :: r)
  end.

(** The type-directed tail of [_generate_mock_value]. *)
Definition mock_value_by_type (col_name : string) (col_info : ColumnInfo)
  : Reg pyval :=
  let data_type := col_type col_info in
  if PyStr.mem data_type integer_types then
    n <- randint 1 1000 ;; ret (VInt n)
  else if is_character_type data_type then
    let length :=
      Z.min (match max_length col_info with
             | Some m => if (m =? 0)%Z then 50 else m
             | None => 50
             end) 50 in
    let k := (length - Z.of_nat (String.length col_name) - 6)%Z in
    s <- choices_text (Z.to_nat k) ;;
    ret (VStr ("mock-" ++ col_name ++ "-" ++ s))
  else if PyStr.mem data_type numeric_types then
    uniform_rounded 1 1000
  else if String.eqb data_type "boolean" then
    b <- choice true [true; false] ;; ret (VBool b)
  else if String.eqb data_type "jsonb" || String.eqb data_type "json" then
    value <- randint 1 100 ;;
    active <- choice true [true; false] ;;
    ret (VDict [(VStr "mock", VBool true);
                (VStr "field", VStr ("mock-" ++ col_name));
                (VStr "value", VInt value);
                (VStr "active", VBool active)])
  else if String.eqb data_type "uuid" then
    u <- uuid4 ;; ret (VStr u)
  else if PyStr.endswith "[]" data_type then
    let base_type := PyStr.drop_last 2 data_type in
    count <- randint 1 3 ;;
    items <- repeat_scalar (Z.to_nat count) base_type ;;
    ret (VList items)
  else ret (VStr ("mock-" ++ col_name)).

(** [_generate_mock_value(col_name, col_info, table_schema)] *)
Definition _generate_mock_value (col_name : string) (col_info : ColumnInfo)
           (table_schema : TableSchema) : Reg pyval :=
  let data_type := col_type col_info in
  let name_lower := PyStr.lower col_name in
  match Dict.get col_name (foreign_keys table_schema) with
  | Some fk_info =>
      n <- randint 1000 9999 ;;
      ret (VStr ("mock-" ++ ref_table fk_info ++ "-ref-" ++ PyStr.of_Z n))
  | None =>
      if String.eqb name_lower "id" || PyStr.endswith "_id" name_lower then
        if String.eqb data_type "uuid" then
          u <- uuid4 ;; ret (VStr u)
        else
          n <- randint 1000 9999 ;; ret (VInt n)
      else if PyStr.contains "name" name_lower then
        prefix <- choice "Test"
                    ["Test"; "Mock"; "Sample"; "Demo"; "Example"] ;;
        ret (VStr (prefix ++ " " ++ PyStr.title col_name))
      else if any_contains ["date"; "time"; "created"; "updated"]
                           name_lower then
        if String.eqb data_type "date" then
          ret (VStr (now_date_isoformat clock))
        else if String.eqb data_type "time" then
          ret (VStr (now_time_isoformat clock))
        else ret (VStr (now_isoformat clock))
      else if PyStr.contains "status" name_lower then
        s <- choice "active"
               ["active"; "inactive"; "pending"; "completed"] ;;
        ret (VStr s)
      else if PyStr.contains "email" name_lower then
        n <- randint 1000 9999 ;;
        d <- choice "example.com" domains ;;
        ret (VStr ("mock.user." ++ PyStr.of_Z n ++ "@" ++ d))
      else if any_contains ["url"; "link"; "website"] name_lower then
        d <- choice "example.com" domains ;;
        p <- choice "home"
               ["home"; "about"; "contact"; "product"; "service"] ;;
        ret (VStr ("https://" ++ d ++ "/" ++ p))
      else mock_value_by_type col_name col_info
  end.

(** The column loop of [generate_mock_data]. *)
Fixpoint mock_loop (cols : dict ColumnInfo) (table_schema : TableSchema)
         (mock_data : row) : Reg row :=
  match cols with
  | [] => ret mock_data
  | (col_name, col_info) :: rest =>
      if Dict.has col_name mock_data then
        mock_loop rest table_schema mock_data
      else if is_auto_generated col_info then
        mock_loop rest table_schema mock_data
      else
        v <- _generate_mock_value col_name col_info table_schema ;;
        mock_loop rest table_schema (Dict.set col_name v mock_data)
  end.

(** [mock_data.update(override_values)] *)
Definition dict_update (d : row) (other : row) : row :=
  fold_left (fun acc kv => Dict.set (fst kv) (snd kv) acc) other d.

(** [generate_mock_data(schema, table, override_values)] *)
Definition generate_mock_data (schema table : string)
           (override_values : option row) : Reg row :=
  table_schema <- get_table_schema schema table ;;
  let mock_data :=
    match override_values with
    | Some ((_ :: _) as o) => dict_update [] o
    | _ => []
    end in
  mock_loop (columns table_schema) table_schema mock_data.

(** ** Mock synthesizer ([mock/mock_data_generator.py]) *)

(** [MockDataGenerator.__init__] with a registry supplied. *)
Definition new_generator : Reg unit :=
  ensure_initialized db_extract path_exists parse_dump.

(** [MockDataGenerator.generate_row(schema, table, override_values)] *)
Definition generate_row (schema table : string)
           (override_values : option row) : Reg row :=
  try_except
    (mock_data <- generate_mock_data schema table override_values ;;
     _ <- validate_insert_data schema table mock_data ;;
     ret mock_data)
    (fun e => ret [("mock_error", VStr (exn_str e))]).

(** The loop of [generate_rows]. *)
Fixpoint rows_loop (count : nat) (schema table : string)
         (base_values : option row) (rows : list row) : Reg (list row) :=
  match count with
  | O => ret rows
  | S count' =>
      let override_values :=
        match base_values with
        | Some ((_ :: _) as b) => Some b
        | _ => None
        end in
      row_ <- generate_row schema table override_values ;;
      rows_loop count' schema table base_values (append rows row_)
  end.

(** [generate_rows(schema, table, count, base_values)]; [range(count)]
    is empty for a negative count. *)
Definition generate_rows (schema table : string) (count : Z)
           (base_values : option row) : Reg (list row) :=
  rows_loop (Z.to_nat count) schema table base_values [].

(** [_parse_table_reference(table_ref)]: the unpacking of
    [table_ref.split('.')] raises when there are more than two pieces. *)
Definition _parse_table_reference (table_ref : string)
  : result (string * string) :=
  if PyStr.contains "." table_ref then
    match PyStr.split "." table_ref with
    | [schema; table] => Ok (schema, table)
    | _ => Raise (ValueError "too many values to unpack (expected 2)")
    end
  else Ok ("public", table_ref).

(** The patterns of [_extract_table_from_query], matched at the head of
    a text.  [after_prefix] reads a literal, [spaces_then] reads [\s+]
    and [table_ref_here] the group [([a-zA-Z0-9_\.]+)]. *)
Fixpoint after_prefix (p s : string) : option string :=
  match p with
  | EmptyString => Some s
  | String a p' =>
      match s with
      | String b s' => if Ascii.eqb a b then after_prefix p' s' else None
      | EmptyString => None
      end
  end.

Definition spaces_then {A : Type} (k : string -> option A) (s : string)
  : option A :=
  match s with
  | String c r => if PyStr.is_space c then k (PyStr.lstrip r) else None
  | EmptyString => None
  end.

Definition is_ref_char (c : ascii) : bool :=
  let n := nat_of_ascii c in
  ((97 <=? n) && (n <=? 122) || (65 <=? n) && (n <=? 90)
   || (48 <=? n) && (n <=? 57) || (n =? 95) || (n =? 46))%nat.

Fixpoint ref_run (s : string) : string :=
  match s with
  | String c r => if is_ref_char c then String c (ref_run r) else EmptyString
  | EmptyString => EmptyString
  end.

Definition table_ref_here (s : string) : option string :=
  match ref_run s with
  | EmptyString => None
  | t => Some t
  end.

Definition keyword (word : string) (k : string -> option string)
           (s : string) : option string :=
  match after_prefix word s with
  | Some r => spaces_then k r
  | None => None
  end.

Definition select_pattern : string -> option string :=
  keyword "from" table_ref_here.

Definition insert_pattern : string -> option string :=
  keyword "insert" (keyword "into" table_ref_here).

Definition update_pattern : string -> option string :=
  keyword "update" table_ref_here.

Definition delete_pattern : string -> option string :=
  keyword "delete" (keyword "from" table_ref_here).

(** [re.search(pattern, text)] and the group it captures: the leftmost
    position where the pattern matches. *)
Fixpoint re_search (pattern : string -> option string) (text : string)
  : option string :=
  match pattern text with
  | Some group => Some group
  | None =>
      match text with
      | String _ r => re_search pattern r
      | EmptyString => None
      end
  end.

(** [_extract_table_from_query(query)] *)
Definition _extract_table_from_query (query : string)
  : result (string * string) :=
  let query := PyStr.lower (PyStr.join " " (PyStr.split_ws query)) in
  match re_search select_pattern query with
  | Some table_ref => _parse_table_reference table_ref
  | None =>
      match re_search insert_pattern query with
      | Some table_ref => _parse_table_reference table_ref
      | None =>
          match re_search update_pattern query with
          | Some table_ref => _parse_table_reference table_ref
          | None =>
              match re_search delete_pattern query with
              | Some table_ref => _parse_table_reference table_ref
              | None =>
                  Raise (ValueError
                           ("Could not extract table from query: " ++ query))
              end
          end
      end
  end.

(** [generate_mock_query_result(query, params, row_count)]; [params] is
    not looked at. *)
Definition generate_mock_query_result (query : string)
           (params : option (list pyval)) (row_count : option Z)
  : Reg (list row) :=
  try_except
    (st <- lift (_extract_table_from_query query) ;;
     let '(schema, table) := st in
     row_count <- match row_count with
                  | Some n => ret n
                  | None => randint 1 5
                  end ;;
     generate_rows schema table row_count None)
    (fun e =>
       ret [[("mock_warning",
              VStr "Could not extract schema information from query");
             ("query", VStr query);
             ("mock_data", VBool true)]]).

(** [compare_with_db()]: a second registry is filled from the live
    catalog and compared with this one. *)
Definition compare_with_db : Reg Differences :=
  fun w =>
    let db_registry := mkRegistry "db" None ([] : Cache) false in
    let '(r, w1) :=
      initialize db_extract path_exists parse_dump
        (mkWorld db_registry (random_state w) (extractions w)) in
    let w' := mkWorld (self w) (random_state w1) (extractions w1) in
    match r with
    | Ok _ => (Ok (_compare_schemas (self w) (self w1)), w')
    | Raise e => (Raise e, w')
    end.

End WithWorld.
End Registry.

(** ** Schema snapshots ([SchemaRegistry.to_json], [from_json])

    The cache as the Python value it is, and Python's [json] codec on the
    values a cache is made of: [None], booleans, integers, text, lists and
    dictionaries keyed by text.  Text is a sequence of code points below
    256; the decoder gives no value for a literal outside this fragment
    (a fraction, an exponent, [NaN], [Infinity], a code point from 256
    on). *)

Module Snapshot.

Inductive jval : Type :=
| JNull
| JBool (b : bool)
| JInt (z : Z)
| JStr (s : string)
| JList (items : list jval)
| JDict (members : list (string * jval)).

Definition dquote : ascii := ascii_of_nat 34.
Definition backslash : ascii := ascii_of_nat 92.
Definition linefeed : ascii := ascii_of_nat 10.

(** *** [json.dumps(obj, indent=2, default=str)]

    Every printer takes the text that follows, so that what is printed
    reads as the decoder consumes it.  [default] is only called for an
    object the encoder does not know; a [jval] never is one. *)

Definition hex_char (n : nat) : ascii :=
  nth n (list_ascii_of_string "0123456789abcdef") "0"%char.

(** [encode_basestring_ascii], one character. *)
Definition escape_char (c : ascii) (rest : string) : string :=
  let n := nat_of_ascii c in
  if (n =? 34)%nat then String backslash (String dquote rest)
  else if (n =? 92)%nat then String backslash (String backslash rest)
  else if (n =? 10)%nat then String backslash (String "n" rest)
  else if (n =? 13)%nat then String backslash (String "r" rest)
  else if (n =? 9)%nat then String backslash (String "t" rest)
  else if (n =? 8)%nat then String backslash (String "b" rest)
  else if (n =? 12)%nat then String backslash (String "f" rest)
  else if (n <? 32)%nat || (126 <? n)%nat then
    String backslash
      (String "u" (String "0" (String "0"
         (String (hex_char (n / 16)) (String (hex_char (n mod 16)) rest)))))
  else String c rest.

Fixpoint escape (s : string) (rest : string) : string :=
  match s with
  | EmptyString => rest
  | String c r => escape_char c (escape r rest)
  end.

Definition emit_text (s : string) (rest : string) : string :=
  String dquote (escape s (String dquote rest)).

Fixpoint spaces (n : nat) (rest : string) : string :=
  match n with
  | O => rest
  | S n' => String " " (spaces n' rest)
  end.

(** A line break and the indentation of [level]. *)
Definition break (level : nat) (rest : string) : string :=
  String linefeed (spaces (2 * level) rest).

Fixpoint emit (level : nat) (v : jval) (rest : string) : string :=
  match v with
  | JNull => "null" ++ rest
  | JBool true => "true" ++ rest
  | JBool false => "false" ++ rest
  | JInt z => PyStr.of_Z z ++ rest
  | JStr s => emit_text s rest
  | JList [] => "[]" ++ rest
  | JList (x :: more) =>
      String "["
        (break (S level)
           (emit (S level) x
              ((fix tail (l : list jval) : string :=
                  match l with
                  | [] => break level (String "]" rest)
                  | y :: l' =>
                      String "," (break (S level) (emit (S level) y (tail l')))
                  end) more)))
  | JDict [] => "{}" ++ rest
  | JDict ((k, x) :: more) =>
      String "{"
        (break (S level)
           (emit_text k
              (String ":" (String " "
                 (emit (S level) x
                    ((fix tail (l : list (string * jval)) : string :=
                        match l with
                        | [] => break level (String "}" rest)
                        | (k', y) :: l' =>
                            String ","
                              (break (S level)
                                 (emit_text k'
                                    (String ":" (String " "
                                       (emit (S level) y (tail l'))))))
                        end) more))))))
  end.

Definition dumps (v : jval) : string := emit 0 v "".

(** *** [json.loads] *)

Definition is_ws (c : ascii) : bool :=
  let n := nat_of_ascii c in
  ((n =? 32) || (n =? 9) || (n =? 10) || (n =? 13))%nat.

Fixpoint skip_ws (s : string) : string :=
  match s with
  | String c r => if is_ws c then skip_ws r else s
  | EmptyString => s
  end.

Definition hex_value (c : ascii) : option nat :=
  let n := nat_of_ascii c in
  if ((48 <=? n) && (n <=? 57))%nat then Some (n - 48)
  else if ((97 <=? n) && (n <=? 102))%nat then Some (n - 87)
  else if ((65 <=? n) && (n <=? 70))%nat then Some (n - 55)
  else None.

(** The [BACKSLASH] table of the decoder. *)
Definition unescape (e : ascii) : option ascii :=
  let n := nat_of_ascii e in
  if (n =? 34)%nat then Some dquote
  else if (n =? 92)%nat then Some backslash
  else if (n =? 47)%nat then Some "/"%char
  else if (n =? 98)%nat then Some (ascii_of_nat 8)
  else if (n =? 102)%nat then Some (ascii_of_nat 12)
  else if (n =? 110)%nat then Some (ascii_of_nat 10)
  else if (n =? 114)%nat then Some (ascii_of_nat 13)
  else if (n =? 116)%nat then Some (ascii_of_nat 9)
  else None.

Definition cons_text (c : ascii) (r : option (string * string))
  : option (string * string) :=
  match r with
  | Some (t, rest) => Some (String c t, rest)
  | None => None
  end.

(** [scanstring] (strict), from just after the opening quote: the text
    and what follows the closing quote. *)
Fixpoint scanstring (s : string) : option (string * string) :=
  match s with
  | EmptyString => None
  | String c r =>
      if Ascii.eqb c dquote then Some (EmptyString, r)
      else if Ascii.eqb c backslash then
        match r with
        | String e r1 =>
            if Ascii.eqb e "u" then
              match r1 with
              | String a (String b (String c1 (String d r2))) =>
                  match hex_value a, hex_value b, hex_value c1, hex_value d with
                  | Some x3, Some x2, Some x1, Some x0 =>
                      let code := ((x3 * 16 + x2) * 16 + x1) * 16 + x0 in
                      if (code <? 256)%nat
                      then cons_text (ascii_of_nat code) (scanstring r2)
                      else None
                  | _, _, _, _ => None
                  end
              | _ => None
              end
            else
              match unescape e with
              | Some ch => cons_text ch (scanstring r1)
              | None => None
              end
        | EmptyString => None
        end
      else if (nat_of_ascii c <? 32)%nat then None
      else cons_text c (scanstring r)
  end.

Definition is_digit (c : ascii) : bool :=
  ((48 <=? nat_of_ascii c) && (nat_of_ascii c <=? 57))%nat.

(** The longest run of digits at the head of a text. *)
Fixpoint span_digits (s : string) : string * string :=
  match s with
  | String c r =>
      if is_digit c then
        let '(ds, rest) := span_digits r in (String c ds, rest)
      else (EmptyString, s)
  | EmptyString => (EmptyString, EmptyString)
  end.

(** An integer literal: an optional minus sign, then a lone zero or
    digits that do not start with a zero.  These are the decimal writings
    of the integers, and [-0]. *)
Definition split_sign (s : string) : string * string :=
  match s with
  | String c r => if Ascii.eqb c "-" then ("-", r) else ("", s)
  | EmptyString => ("", s)
  end.

Definition scan_int (s : string) : option (Z * string) :=
  let '(sign, body) := split_sign s in
  let '(digits, rest) := span_digits body in
  match NilZero.int_of_string (sign ++ digits) with
  | Some d =>
      let z := Z.of_int d in
      if String.eqb (PyStr.of_Z z) (sign ++ digits)
         || String.eqb (sign ++ digits) "-0"
      then Some (z, rest) else None
  | None => None
  end.

(** [dict(pairs)]: a repeated key keeps its first place and takes the
    last value. *)
Definition dict_of_pairs (pairs : list (string * jval))
  : list (string * jval) :=
  fold_left (fun d kv => Dict.set (fst kv) (snd kv) d) pairs [].

(** [s[n:]] *)
Fixpoint drop (n : nat) (s : string) : string :=
  match n, s with
  | S n', String _ r => drop n' r
  | _, _ => s
  end.

Definition head_is (c : ascii) (s : string) : bool :=
  match s with
  | String c' _ => Ascii.eqb c' c
  | EmptyString => false
  end.

(** [scan_once], [JSONArray] and [JSONObject].  The fuel bounds the depth
    of the calls; [loads] gives more than any text can use. *)
Fixpoint scan_once (fuel : nat) (s : string) : option (jval * string) :=
  match fuel with
  | O => None
  | S fuel' =>
      match s with
      | EmptyString => None
      | String c r =>
          if Ascii.eqb c dquote then
            match scanstring r with
            | Some (t, rest) => Some (JStr t, rest)
            | None => None
            end
          else if Ascii.eqb c "{" then
            let r1 := skip_ws r in
            if head_is "}" r1 then Some (JDict [], drop 1 r1)
            else
              match scan_members fuel' r1 with
              | Some (pairs, rest) => Some (JDict (dict_of_pairs pairs), rest)
              | None => None
              end
          else if Ascii.eqb c "[" then
            let r1 := skip_ws r in
            if head_is "]" r1 then Some (JList [], drop 1 r1)
            else
              match scan_elements fuel' r1 with
              | Some (items, rest) => Some (JList items, rest)
              | None => None
              end
          else if String.prefix "null" s then Some (JNull, drop 4 s)
          else if String.prefix "true" s then Some (JBool true, drop 4 s)
          else if String.prefix "false" s then Some (JBool false, drop 5 s)
          else
            match scan_int s with
            | Some (z, rest) => Some (JInt z, rest)
            | None => None
            end
      end
  end

with scan_elements (fuel : nat) (s : string)
  : option (list jval * string) :=
  match fuel with
  | O => None
  | S fuel' =>
      match scan_once fuel' s with
      | Some (v, r) =>
          let r1 := skip_ws r in
          if head_is "]" r1 then Some ([v], drop 1 r1)
          else if head_is "," r1 then
            match scan_elements fuel' (skip_ws (drop 1 r1)) with
            | Some (vs, rest) => Some (v :: vs, rest)
            | None => None
            end
          else None
      | None => None
      end
  end

with scan_members (fuel : nat) (s : string)
  : option (list (string * jval) * string) :=
  match fuel with
  | O => None
  | S fuel' =>
      if head_is dquote s then
        match scanstring (drop 1 s) with
        | Some (k, r1) =>
            let r2 := skip_ws r1 in
            if head_is ":" r2 then
              match scan_once fuel' (skip_ws (drop 1 r2)) with
              | Some (v, r3) =>
                  let r4 := skip_ws r3 in
                  if head_is "}" r4 then Some ([(k, v)], drop 1 r4)
                  else if head_is "," r4 then
                    match scan_members fuel' (skip_ws (drop 1 r4)) with
                    | Some (ms, rest) => Some ((k, v) :: ms, rest)
                    | None => None
                    end
                  else None
              | None => None
              end
            else None
        | None => None
        end
      else None
  end.

(** [json.loads(text)]: one value, white space around it, nothing else. *)
Definition loads (text : string) : option jval :=
  match scan_once (2 * String.length text + 2) (skip_ws text) with
  | Some (v, rest) =>
      match skip_ws rest with
      | EmptyString => Some v
      | _ => None
      end
  | None => None
  end.

(** The tails of a printed list and a printed dictionary, by name. *)
Fixpoint list_tail (level : nat) (rest : string) (l : list jval) : string :=
  match l with
  | [] => break level (String "]" rest)
  | y :: l' =>
      String "," (break (S level) (emit (S level) y (list_tail level rest l')))
  end.

Fixpoint dict_tail (level : nat) (rest : string) (l : list (string * jval))
  : string :=
  match l with
  | [] => break level (String "}" rest)
  | (k, y) :: l' =>
      String ","
        (break (S level)
           (emit_text k
              (String ":" (String " "
                 (emit (S level) y (dict_tail level rest l'))))))
  end.

(** A value as Python holds it: the keys of a dictionary are distinct. *)
Fixpoint wf (v : jval) : Prop :=
  match v with
  | JList items =>
      (fix all (l : list jval) : Prop :=
         match l with
         | [] => True
         | x :: r => wf x /\ all r
         end) items
  | JDict members =>
      NoDup (map fst members)
      /\ (fix all (l : list (string * jval)) : Prop :=
            match l with
            | [] => True
            | (_, x) :: r => wf x /\ all r
            end) members
  | _ => True
  end.

(** A bound on the depth of calls the decoder needs for a value. *)
Fixpoint weight (v : jval) : nat :=
  match v with
  | JList items =>
      S ((fix sum (l : list jval) : nat :=
            match l with
            | [] => 0
            | x :: r => S (weight x) + sum r
            end) items)
  | JDict members =>
      S ((fix sum (l : list (string * jval)) : nat :=
            match l with
            | [] => 0
            | (_, x) :: r => S (weight x) + sum r
            end) members)
  | _ => 1
  end.

Fixpoint weights (items : list jval) : nat :=
  match items with
  | [] => 0
  | x :: r => S (weight x) + weights r
  end.

Fixpoint member_weights (members : list (string * jval)) : nat :=
  match members with
  | [] => 0
  | (_, x) :: r => S (weight x) + member_weights r
  end.

Fixpoint all_wf (items : list jval) : Prop :=
  match items with
  | [] => True
  | x :: r => wf x /\ all_wf r
  end.

Fixpoint all_members_wf (members : list (string * jval)) : Prop :=
  match members with
  | [] => True
  | (_, x) :: r => wf x /\ all_members_wf r
  end.

(** A text that opens with a character no white space and no closing
    bracket is. *)
Definition opens_value (s : string) : Prop :=
  exists c r, s = String c r /\ is_ws c = false
              /\ Ascii.eqb c "]" = false /\ Ascii.eqb c "}" = false.

(** A text after which a number can end: it does not go on with a
    digit. *)
Definition delimited (rest : string) : Prop :=
  match rest with
  | String c _ => is_digit c = false
  | EmptyString => True
  end.

(** *** The registry over a raw cache *)

(** [type(v).__name__] *)
Definition type_name (v : jval) : string :=
  match v with
  | JNull => "NoneType"
  | JBool _ => "bool"
  | JInt _ => "int"
  | JStr _ => "str"
  | JList _ => "list"
  | JDict _ => "dict"
  end.

(** [key in container], for a text key *)
Definition contains (container : jval) (key : string) : result bool :=
  match container with
  | JDict members => Ok (Dict.has key members)
  | JList items =>
      Ok (existsb (fun x => match x with
                            | JStr s => String.eqb s key
                            | _ => false
                            end) items)
  | JStr s => Ok (PyStr.contains key s)
  | other =>
      Raise (TypeError ("argument of type '" ++ type_name other
                          ++ "' is not iterable"))
  end.

(** [container[key]], for a text key *)
Definition getitem (container : jval) (key : string) : result jval :=
  match container with
  | JDict members =>
      match Dict.get key members with
      | Some v => Ok v
      | None => Raise (KeyError ("'" ++ key ++ "'"))
      end
  | JList _ =>
      Raise (TypeError "list indices must be integers or slices, not str")
  | JStr _ => Raise (TypeError "string indices must be integers, not 'str'")
  | other =>
      Raise (TypeError ("'" ++ type_name other
                          ++ "' object is not subscriptable"))
  end.

(** The existence checks and the final indexing of [get_table_schema]. *)
Definition lookup (cache : jval) (schema table : string) : result jval :=
  match contains cache schema with
  | Raise e => Raise e
  | Ok false =>
      Raise (ValueError ("Schema '" ++ schema
                           ++ "' not found in schema registry"))
  | Ok true =>
      match getitem cache schema with
      | Raise e => Raise e
      | Ok tables =>
          match contains tables table with
          | Raise e => Raise e
          | Ok false =>
              Raise (ValueError ("Table '" ++ table
                                   ++ "' not found in schema '" ++ schema
                                   ++ "'"))
          | Ok true => getitem tables table
          end
      end
  end.

(** [json_data: Union[str, Dict]] *)
Inductive json_source : Type :=
| Text (s : string)
| Document (d : jval).

(** What [to_json] does with the text: hand it back, or write it. *)
Inductive to_json_outcome : Type :=
| Returned (json_data : string)
| Written (output_file : string) (json_data : string).

Section WithSource.

Variable Rng : Type.
Variable db_extract : jval -> jval * option string.
Variable path_exists : string -> bool.
Variable parse_dump : string -> jval -> jval * option string.

(** [open(path).read()] *)
Variable read_file : string -> result string.

Local Abbreviation Reg := (M (Registry.World jval Rng)).
Local Open Scope monad_scope.

(** [get_table_schema(schema, table)] *)
Definition get_table_schema (schema table : string) : Reg jval :=
  Registry.ensure_initialized db_extract path_exists parse_dump ;;;
  fun w =>
    (lookup (Registry.table_schemas (Registry.self w)) schema table, w).

(** [to_json(output_file)] *)
Definition to_json (output_file : option string) : Reg to_json_outcome :=
  Registry.ensure_initialized db_extract path_exists parse_dump ;;;
  fun w =>
    let json_data := dumps (Registry.table_schemas (Registry.self w)) in
    match output_file with
    | Some ((String _ _) as path) => (Ok (Written path json_data), w)
    | _ => (Ok (Returned json_data), w)
    end.

(** [json.loads] / [json.load], raising [JSONDecodeError]. *)
Definition loads_or_raise (text : string) : result jval :=
  match loads text with
  | Some d => Ok d
  | None => Raise (JSONDecodeError "Expecting value")
  end.

(** [SchemaRegistry.from_json(json_data, is_file)] *)
Definition from_json (json_data : json_source) (is_file : bool)
  : result (Registry.SchemaRegistry jval) :=
  let registry := Registry.mkRegistry "json" None in
  let table_schemas :=
    if is_file then
      match json_data with
      | Text path =>
          match read_file path with
          | Ok content => loads_or_raise content
          | Raise e => Raise e
          end
      | Document _ =>
          Raise (TypeError
                   "expected str, bytes or os.PathLike object, not dict")
      end
    else
      match json_data with
      | Text s => loads_or_raise s
      | Document d => Ok d
      end in
  match table_schemas with
  | Ok d => Ok (registry d true)
  | Raise e => Raise e
  end.

End WithSource.

(** *** Typed metadata as the Python value it is *)

Definition of_option_text (o : option string) : jval :=
  match o with Some s => JStr s | None => JNull end.

Definition of_option_int (o : option Z) : jval :=
  match o with Some z => JInt z | None => JNull end.

Definition of_column (c : Registry.ColumnInfo) : jval :=
  JDict [("type", JStr (Registry.col_type c));
         ("nullable", JBool (Registry.nullable c));
         ("default", of_option_text (Registry.default c));
         ("max_length", of_option_int (Registry.max_length c))].

Definition of_foreign_key (f : Registry.ForeignKey) : jval :=
  JDict [("schema", JStr (Registry.ref_schema f));
         ("table", JStr (Registry.ref_table f));
         ("column", JStr (Registry.ref_column f))].

Definition of_index (i : Registry.IndexInfo) : jval :=
  JDict [("columns", JList (map JStr (Registry.index_columns i)));
         ("unique", JBool (Registry.unique i))].

Definition of_dict {V : Type} (f : V -> jval) (d : dict V) : jval :=
  JDict (map (fun kv => (fst kv, f (snd kv))) d).

Definition of_table (t : Registry.TableSchema) : jval :=
  JDict [("columns", of_dict of_column (Registry.columns t));
         ("primary_keys", JList (map JStr (Registry.primary_keys t)));
         ("foreign_keys", of_dict of_foreign_key (Registry.foreign_keys t));
         ("indexes", of_dict of_index (Registry.indexes t))].

Definition of_cache (c : Registry.Cache) : jval :=
  of_dict (of_dict of_table) c.

(** The typed cache has distinct keys at every level, as a dictionary
    has. *)
Definition table_wf (t : Registry.TableSchema) : Prop :=
  Dict.wf (Registry.columns t) /\ Dict.wf (Registry.foreign_keys t)
  /\ Dict.wf (Registry.indexes t).

Definition cache_wf (c : Registry.Cache) : Prop :=
  Dict.wf c
  /\ Forall (fun st => Dict.wf (snd st)
                       /\ Forall (fun tt => table_wf (snd tt)) (snd st)) c.

End Snapshot.

(** ** Reference readings of the specification

    Definitions that follow the words of the specification, to be compared
    with the code above. *)

Module Reading.

(** The resolver tiers, in the order the specification ranks them. *)
Inductive tier : Type := Exact | CaseInsensitive | SingularPlural | Convention.

Definition tier_rank (t : tier) : nat :=
  match t with
  | Exact => 0
  | CaseInsensitive => 1
  | SingularPlural => 2
  | Convention => 3
  end.

Section Tiers.
Variable singular_noun : string -> option string.
Variable plural : string -> string.

(** Does [col] answer [requested] at tier [t]? *)
Definition tier_hit (t : tier) (requested col : string) : bool :=
  match t with
  | Exact => String.eqb col requested
  | CaseInsensitive => Resolver.case_hit requested col
  | SingularPlural =>
      Resolver.plural_hit singular_noun plural requested col
  | Convention => Resolver.convention_hit requested col
  end.

(** The first available column, in catalog order, that answers at
    tier [t]. *)
Definition first_hit (t : tier) (requested : string)
           (available : list string) : option string :=
  find (tier_hit t requested) available.
End Tiers.

(** The columns the keys of a record resolve to, in the order of the
    keys; a key that does not resolve contributes nothing. *)
Definition resolved_names (singular_noun : string -> option string)
           (plural : string -> string)
           (keys available : list string) : list string :=
  flat_map (fun k =>
              match Resolver.match_column singular_noun plural k available
                                          false with
              | Ok c => [c]
              | Raise _ => []
              end) keys.

(** A key resolves when the resolver returns a column for it. *)
Definition resolves (singular_noun : string -> option string)
           (plural : string -> string) (k : string) (available : list string)
  : Prop :=
  exists c, Resolver.match_column singular_noun plural k available false
            = Ok c.

(** Keep the first occurrence of every name. *)
Definition keep_first (seen : list string) (x : string) : list string :=
  if PyStr.mem x seen then seen else append seen x.

Definition uniq (names : list string) : list string :=
  fold_left keep_first names [].

(** The [INSERT] statement for a record whose keys are column names:
    the columns in the order of the record, and one placeholder [$1],
    [$2], ... for each. *)
Definition insert_text (schema table : string) (formatted : row) : string :=
  "INSERT INTO " ++ schema ++ "." ++ table
    ++ " (" ++ PyStr.join ", " (Dict.keys formatted) ++ ") VALUES ("
    ++ PyStr.join ", "
         (map (fun i => "$" ++ PyStr.of_nat i)
              (seq 1 (List.length formatted)))
    ++ ")".

(** The text that is read as a timestamp before it is bound: a text
    value under a column whose name contains [created_at] or
    [updated_at], with the offset [ +00:00] closed up. *)
Definition timestamp_text (column : string) (value : pyval)
  : option string :=
  match value with
  | VStr s =>
      if PyStr.contains "created_at" column
         || PyStr.contains "updated_at" column
      then Some (PyStr.replace " +00:00" "+00:00" s)
      else None
  | _ => None
  end.

(** The well-known columns of [getByKey] and what becomes of a fetched
    value under them. *)
Definition decoded (json_loads : string -> option pyval)
           (key : string) (value : pyval) : pyval :=
  match value with
  | VStr s =>
      if PyStr.mem key ["metadata"; "variables"; "content"] then
        match json_loads s with
        | Some parsed => parsed
        | None => value
        end
      else value
  | _ => value
  end.

(** A column the caller has to supply: not nullable, no default, not
    system-generated. *)
Definition required (info : Registry.ColumnInfo) : Prop :=
  Registry.nullable info = false
  /\ Registry.has_default info = false
  /\ Registry.is_auto_generated info = false.

(** The semantic type tag behind a declared type. *)
Inductive semantic : Type :=
| SInteger | SText | SNumeric | SBoolean | STemporal | SJson | SUuid
| SArray (element : string)
| SOpaque.

Definition semantic_of (data_type : string) : semantic :=
  if PyStr.mem data_type Registry.integer_types then SInteger
  else if Registry.is_character_type data_type then SText
  else if PyStr.mem data_type Registry.numeric_types then SNumeric
  else if String.eqb data_type "boolean" then SBoolean
  else if PyStr.mem data_type Registry.temporal_types then STemporal
  else if String.eqb data_type "jsonb" || String.eqb data_type "json"
  then SJson
  else if String.eqb data_type "uuid" then SUuid
  else if PyStr.endswith "[]" data_type
  then SArray (PyStr.drop_last 2 data_type)
  else SOpaque.

(** A value is type-correct for a declared type: integer, text within
    the maximum length, number, boolean, timestamp, serializable
    document, UUID text, or an array of type-correct elements; a type
    the registry does not know accepts anything. *)
Fixpoint type_correct (value : pyval) (data_type : string)
         (max_length : option Z) {struct value} : Prop :=
  match semantic_of data_type with
  | SInteger => (exists z, value = VInt z) \/ (exists b, value = VBool b)
  | SText =>
      exists s, value = VStr s
                /\ match max_length with
                   | Some m => m = 0%Z \/ (Z.of_nat (String.length s) <= m)%Z
                   | None => True
                   end
  | SNumeric =>
      (exists z, value = VInt z) \/ (exists b, value = VBool b)
      \/ (exists q, value = VFloat q)
  | SBoolean => exists b, value = VBool b
  | STemporal =>
      (exists s, value = VStr s) \/ (exists s, value = VDatetime s)
      \/ (exists s, value = VDate s) \/ (exists s, value = VTime s)
  | SJson => Registry.json_dumps_error value = None
  | SUuid => exists s, value = VStr s /\ Registry.uuid_match s = true
  | SArray element =>
      match value with
      | VList items | VTuple items =>
          (fix all (l : list pyval) : Prop :=
             match l with
             | [] => True
             | x :: r => type_correct x element None /\ all r
             end) items
      | _ => False
      end
  | SOpaque => True
  end.

(** A plain name, as schemas and tables usually have: lower-case
    letters, digits and underscores. *)
Definition is_name_char (c : ascii) : bool :=
  let n := nat_of_ascii c in
  ((97 <=? n) && (n <=? 122) || (48 <=? n) && (n <=? 57) || (n =? 95))%nat.

Fixpoint plain_name (s : string) : bool :=
  match s with
  | EmptyString => true
  | String c r => is_name_char c && plain_name r
  end.

End Reading.

(** ** Concrete collaborators and inputs used in the examples *)

Module Demo.

(** A stand-in for the [inflect] engine: no singular form known, plural
    by appending an s. *)
Definition singular_noun (w : string) : option string := None.
Definition plural (w : string) : string := w ++ "s".

Definition fromisoformat (s : string) : option string := None.

(** A decoder that knows two documents. *)
Definition json_loads (s : string) : option pyval :=
  if String.eqb s "{}" then Some (VDict [])
  else if String.eqb s "[1]" then Some (VList [VInt 1])
  else None.

(** A connection that records every statement with its parameters and
    answers from a fixed table [t(id, metadata, content, a, b, c)]. *)
Definition Conn : Type := list (string * option (list pyval)).

Definition stored_row : row :=
  [("id", VStr "7"); ("metadata", VStr "{}"); ("content", VStr "plain");
   ("a", VInt 1); ("b", VNone); ("c", VInt 3)].

Definition execute (m : Operator.fetch_mode) (query : string)
           (params : option (list pyval)) (schema : option string)
           (c : Conn) : result (Operator.reply m) * Conn :=
  (match m return result (Operator.reply m) with
   | Operator.FetchStatus => Ok "OK"
   | Operator.FetchRow => Ok (Some stored_row)
   | Operator.FetchAll =>
       Ok (map (fun n => [("column_name", VStr n)])
               ["id"; "metadata"; "content"; "a"; "b"; "c"])
   end, append c (query, params)).

Definition table_columns : list string :=
  ["id"; "metadata"; "content"; "a"; "b"; "c"].

(** A fresh operator, and the same one once it has looked up [public.t]. *)
Definition operator : Operator.DBOperator Conn := Operator.mkOperator [] [].

Definition warm_operator : Operator.DBOperator Conn :=
  Operator.mkOperator
    [(Operator.columns_query, Some [VStr "public"; VStr "t"])]
    [("public.t", table_columns)].

Definition update :=
  Operator.update singular_noun plural fromisoformat execute.
Definition insert :=
  Operator.insert singular_noun plural fromisoformat execute.
Definition get_by_uuid :=
  Operator.get_by_uuid singular_noun plural json_loads execute.

(** A generator that counts, a catalog that is down, one that answers,
    and a file system without dump files. *)
Definition random_bits (g : nat) : N * nat := (N.of_nat (7 * g + 3), S g).

Definition db_down (c : Registry.Cache) : Registry.Cache * option string :=
  (c, Some "connection refused").

Definition path_exists (path : string) : bool := false.

Definition parse_dump (path : string) (c : Registry.Cache)
  : Registry.Cache * option string := (c, None).

Definition clock : Registry.Clock :=
  Registry.mkClock "2024-05-01T12:00:00" "2024-05-01" "12:00:00".

(** [orders(id serial primary key,
           user_id integer not null references users(id))] *)
Definition orders : Registry.TableSchema :=
  Registry.mkTable
    [("id", Registry.mkColumn "integer" false
              (Some "nextval('orders_id_seq'::regclass)") None);
     ("user_id", Registry.mkColumn "integer" false None None)]
    ["id"]
    [("user_id", Registry.mkForeignKey "public" "users" "id")]
    [].

(** [tickets(id serial primary key, priority integer not null,
            note varchar(40))] *)
Definition tickets : Registry.TableSchema :=
  Registry.mkTable
    [("id", Registry.mkColumn "integer" false
              (Some "nextval('tickets_id_seq'::regclass)") None);
     ("priority", Registry.mkColumn "integer" false None None);
     ("note", Registry.mkColumn "character varying" true None (Some 40%Z))]
    ["id"] [] [].

Definition cache : Registry.Cache :=
  [("public", [("orders", orders); ("tickets", tickets)])].

Definition db_up (c : Registry.Cache) : Registry.Cache * option string :=
  (cache, None).

(** A registry imported from a snapshot, and one that has not read its
    database yet. *)
Definition registry : Registry.SchemaRegistry Registry.Cache :=
  Registry.mkRegistry "json" None cache true.

Definition fresh_registry : Registry.SchemaRegistry Registry.Cache :=
  Registry.mkRegistry "db" None [] false.

Definition world : Registry.World Registry.Cache nat :=
  Registry.mkWorld registry 0 0.

Definition fresh_world : Registry.World Registry.Cache nat :=
  Registry.mkWorld fresh_registry 0 0.

Definition validate_insert_data :=
  Registry.validate_insert_data (Rng := nat) db_down path_exists parse_dump.

Definition generate_row :=
  Registry.generate_row random_bits db_down path_exists parse_dump clock.

(** A registry that holds the cache as imported from a snapshot; it has
    no catalog and no dump to read, and no file to open. *)
Definition no_catalog (c : Snapshot.jval) : Snapshot.jval * option string :=
  (c, Some "no database").

Definition no_dump (path : string) (c : Snapshot.jval)
  : Snapshot.jval * option string := (c, None).

Definition read_file (path : string) : result string :=
  Raise (OSError ("No such file or directory: '" ++ path ++ "'")).

Definition snapshot_world : Registry.World Snapshot.jval nat :=
  Registry.mkWorld
    (Registry.mkRegistry "json" None (Snapshot.of_cache cache) true) 0 0.

End Demo.

(* ================================================================== *)
(** * Part II.  Properties                                              *)
(* ================================================================== *)

(** ** Lists and dictionaries *)

Lemma mem_true_iff (x : string) (xs : list string) :
  PyStr.mem x xs = true <-> In x xs.
Proof.
  unfold PyStr.mem. rewrite existsb_exists. split.
  - intros [y [Hin Heq]]. apply String.eqb_eq in Heq. now subst.
  - intros Hin. exists x. split; [assumption | apply String.eqb_refl].
Qed.

Lemma mem_false_iff (x : string) (xs : list string) :
  PyStr.mem x xs = false <-> ~ In x xs.
Proof.
  rewrite <- mem_true_iff. destruct (PyStr.mem x xs); split; intros H;
    try reflexivity; try discriminate; try (intro; discriminate).
  exfalso. apply H. reflexivity.
Qed.

Lemma find_none_iff {A : Type} (f : A -> bool) (l : list A) :
  find f l = None <-> forall x, In x l -> f x = false.
Proof.
  split.
  - apply find_none.
  - induction l as [| a l IH]; intros H; simpl; [reflexivity |].
    rewrite (H a (or_introl eq_refl)). apply IH.
    intros x Hx. apply H. now right.
Qed.

(** ** The column resolver *)

Section ResolverFacts.

Variable singular_noun : string -> option string.
Variable plural : string -> string.

Local Abbreviation match_column :=
  (Resolver.match_column singular_noun plural).
Local Abbreviation first_hit :=
  (Reading.first_hit singular_noun plural).

Lemma exact_hit_is_membership (requested : string) (available : list string) :
  first_hit Reading.Exact requested available
  = if PyStr.mem requested available then Some requested else None.
Proof.
  unfold Reading.first_hit. simpl.
  induction available as [| c cs IH]; simpl; [reflexivity |].
  rewrite (String.eqb_sym requested c).
  destruct (String.eqb c requested) eqn:E; simpl.
  - apply String.eqb_eq in E. now subst.
  - exact IH.
Qed.

(** The body of [match_column] read as a cascade over the four tiers. *)
Lemma match_column_cascade (requested : string) (available : list string) :
  match_column requested available false =
  match first_hit Reading.Exact requested available with
  | Some c => Ok c
  | None =>
      match first_hit Reading.CaseInsensitive requested available with
      | Some c => Ok c
      | None =>
          match first_hit Reading.SingularPlural requested available with
          | Some c => Ok c
          | None =>
              match first_hit Reading.Convention requested available with
              | Some c => Ok c
              | None =>
                  Raise (Resolver.mkColumnMatchError singular_noun plural
                           requested available None None)
              end
          end
      end
  end.
Proof.
  rewrite exact_hit_is_membership. unfold Resolver.match_column.
  destruct (PyStr.mem requested available); reflexivity.
Qed.

(** C3. [match_column] (not strict) answers from the first tier, in the
    order exact, case-insensitive, singular/plural, naming convention,
    that has a hit among the available columns, with the first such
    column in catalog order, and never looks at a later tier; it raises
    [ColumnMatchError] only when no tier has a hit.  In particular
    ["UserName"] against [["username"; "user_names"]] resolves to
    ["username"], at the case-insensitive tier, whatever the plural tier
    would make of ["user_names"]. *)
Theorem match_column_tier_order :
  (forall requested available t col,
      first_hit t requested available = Some col ->
      (forall t', Reading.tier_rank t' < Reading.tier_rank t ->
                  first_hit t' requested available = None) ->
      match_column requested available false = Ok col)
  /\ (forall requested available,
         (forall t, first_hit t requested available = None) ->
         match_column requested available false
         = Raise (Resolver.mkColumnMatchError singular_noun plural
                    requested available None None))
  /\ (match_column "UserName" ["username"; "user_names"] false
      = Ok "username"
      /\ first_hit Reading.Exact "UserName" ["username"; "user_names"]
         = None
      /\ first_hit Reading.CaseInsensitive "UserName"
                   ["username"; "user_names"] = Some "username").
Proof.
  split; [| split].
  - intros requested available t col Hhit Hearlier.
    rewrite match_column_cascade.
    destruct t; simpl in Hearlier.
    + now rewrite Hhit.
    + rewrite (Hearlier Reading.Exact) by (simpl; lia). now rewrite Hhit.
    + rewrite (Hearlier Reading.Exact) by (simpl; lia).
      rewrite (Hearlier Reading.CaseInsensitive) by (simpl; lia).
      now rewrite Hhit.
    + rewrite (Hearlier Reading.Exact) by (simpl; lia).
      rewrite (Hearlier Reading.CaseInsensitive) by (simpl; lia).
      rewrite (Hearlier Reading.SingularPlural) by (simpl; lia).
      now rewrite Hhit.
  - intros requested available Hnone.
    rewrite match_column_cascade.
    now rewrite !Hnone.
  - repeat split; reflexivity.
Qed.

End ResolverFacts.

(** The tier order at work on the stand-in engine: ["post_id"] reaches
    ["postId"] only at the convention tier. *)
Lemma match_column_tier_order_witness :
  Reading.first_hit Demo.singular_noun Demo.plural Reading.Convention
                    "post_id" ["postId"] = Some "postId"
  /\ Resolver.match_column Demo.singular_noun Demo.plural
                           "post_id" ["postId"] false = Ok "postId".
Proof.
  split; [reflexivity |].
  apply (proj1 (match_column_tier_order Demo.singular_noun Demo.plural)
               "post_id" ["postId"] Reading.Convention "postId").
  - reflexivity.
  - intros t' Hlt. destruct t'; simpl in Hlt; try lia; reflexivity.
Defined.

(** ** The CRUD operator *)

Lemma has_is_mem_keys {V : Type} (k : string) (d : dict V) :
  Dict.has k d = PyStr.mem k (Dict.keys d).
Proof.
  unfold Dict.has, PyStr.mem, Dict.keys.
  induction d as [| [k' v] d IH]; simpl; [reflexivity |].
  rewrite IH, (String.eqb_sym k k'). reflexivity.
Qed.

Lemma keys_set {V : Type} (k : string) (v : V) (d : dict V) :
  Dict.keys (Dict.set k v d)
  = if Dict.has k d then Dict.keys d else append (Dict.keys d) k.
Proof.
  induction d as [| [k' v'] d IH]; simpl; [reflexivity |].
  destruct (String.eqb k' k) eqn:E; simpl; [reflexivity |].
  rewrite IH. destruct (Dict.has k d); reflexivity.
Qed.

Lemma get_set {V : Type} (k k0 : string) (v : V) (d : dict V) :
  Dict.get k (Dict.set k0 v d)
  = if String.eqb k0 k then Some v else Dict.get k d.
Proof.
  induction d as [| [k' v'] d IH]; simpl.
  - reflexivity.
  - destruct (String.eqb k' k0) eqn:E0; simpl.
    + apply String.eqb_eq in E0. subst k'.
      destruct (String.eqb k0 k); reflexivity.
    + rewrite IH. destruct (String.eqb k' k) eqn:E; [| reflexivity].
      apply String.eqb_eq in E. subst k'.
      now rewrite String.eqb_sym, E0.
Qed.

Lemma keep_first_fold_in (l seen : list string) (c : string) :
  In c (fold_left Reading.keep_first l seen) <-> In c seen \/ In c l.
Proof.
  revert seen. induction l as [| x l IH]; intros seen; simpl.
  - tauto.
  - rewrite IH. unfold Reading.keep_first, append.
    destruct (PyStr.mem x seen) eqn:E.
    + apply mem_true_iff in E. split; [tauto |].
      intros [H | [H | H]]; subst; tauto.
    + rewrite in_app_iff. simpl. tauto.
Qed.

Lemma uniq_in (l : list string) (c : string) :
  In c (Reading.uniq l) <-> In c l.
Proof.
  unfold Reading.uniq.
  rewrite keep_first_fold_in. simpl. tauto.
Qed.

Section OperatorFacts.

Variable singular_noun : string -> option string.
Variable plural : string -> string.
Variable fromisoformat : string -> option string.
Variable json_loads : string -> option pyval.
Variable Conn : Type.
Variable execute :
  forall m : Operator.fetch_mode,
    string -> option (list pyval) -> option string -> Conn ->
    result (Operator.reply m) * Conn.

Local Abbreviation match_column :=
  (Resolver.match_column singular_noun plural).
Local Abbreviation mkColumnMatchError :=
  (Resolver.mkColumnMatchError singular_noun plural).
Local Abbreviation resolves :=
  (Reading.resolves singular_noun plural).
Local Abbreviation resolved_names :=
  (Reading.resolved_names singular_noun plural).
Local Abbreviation format_loop :=
  (Operator.format_loop singular_noun plural fromisoformat).
Local Abbreviation _format_record :=
  (Operator._format_record singular_noun plural fromisoformat).
Local Abbreviation _get_table_columns :=
  (Operator._get_table_columns execute).
Local Abbreviation connector_execute :=
  (Operator.connector_execute execute).
Local Abbreviation insert :=
  (Operator.insert singular_noun plural fromisoformat execute).
Local Abbreviation get_by_uuid :=
  (Operator.get_by_uuid singular_noun plural json_loads execute).

Lemma mkColumnMatchError_shape (k : string) (cols : list string)
      (schema table : option string) :
  mkColumnMatchError k cols schema table
  = ColumnMatchError k cols schema table
                     (exn_str (mkColumnMatchError k cols schema table)).
Proof. reflexivity. Qed.

Lemma match_column_raises (k : string) (cols : list string) (e : exn) :
  match_column k cols false = Raise e ->
  e = mkColumnMatchError k cols None None.
Proof.
  unfold Resolver.match_column.
  destruct (PyStr.mem k cols); [discriminate |].
  destruct (find _ cols); [discriminate |].
  destruct (find _ cols); [discriminate |].
  destruct (find _ cols); [discriminate |].
  intros H. now inversion H.
Qed.

Lemma not_resolves_raises (k : string) (cols : list string) :
  ~ resolves k cols ->
  match_column k cols false = Raise (mkColumnMatchError k cols None None).
Proof.
  intros H. destruct (match_column k cols false) as [c | e] eqn:E.
  - exfalso. apply H. now exists c.
  - now rewrite (match_column_raises _ _ E).
Qed.

(** The loop of [_format_record] when it cannot raise: the record has
    not exactly one key, or every remaining key resolves. *)
Lemma format_loop_keys (n : nat) (cols : list string) (items acc : row)
      (unknown : list string) :
  n <> 1 \/ (forall k, In k (Dict.keys items) -> resolves k cols) ->
  exists formatted unknown',
    format_loop n cols items acc unknown = Ok (formatted, unknown')
    /\ Dict.keys formatted
       = fold_left Reading.keep_first (resolved_names (Dict.keys items) cols)
                   (Dict.keys acc).
Proof.
  revert acc unknown.
  induction items as [| [k v] items IH]; intros acc unknown Hsafe.
  - simpl. now exists acc, unknown.
  - assert (Hrest : n <> 1
                    \/ (forall k', In k' (Dict.keys items)
                                   -> resolves k' cols)).
    { destruct Hsafe as [H | H]; [now left | right].
      intros k' Hk'. apply H. simpl. now right. }
    cbn [Operator.format_loop Dict.keys map fst Reading.resolved_names
         flat_map].
    unfold Operator.match_column.
    destruct (match_column k cols false) as [c | e] eqn:E.
    + destruct (IH (Dict.set c (Operator.convert_value fromisoformat c v) acc)
                   unknown Hrest) as [f [u [Hf Hk]]].
      exists f, u. split; [exact Hf |].
      rewrite Hk. simpl. rewrite keys_set, has_is_mem_keys.
      reflexivity.
    + rewrite (match_column_raises _ _ E), mkColumnMatchError_shape.
      destruct Hsafe as [Hn | Hall].
      * apply Nat.eqb_neq in Hn. rewrite Hn.
        destruct (IH acc (append unknown k) Hrest) as [f [u [Hf Hk]]].
        exists f, u. split; [exact Hf |]. now rewrite Hk.
      * exfalso. destruct (Hall k) as [c Hc]; [simpl; now left |].
        rewrite Hc in E. discriminate.
Qed.

Lemma format_loop_from_empty (n : nat) (cols : list string) (items : row) :
  n <> 1 \/ (forall k, In k (Dict.keys items) -> resolves k cols) ->
  exists formatted unknown',
    format_loop n cols items [] [] = Ok (formatted, unknown')
    /\ Dict.keys formatted
       = Reading.uniq (resolved_names (Dict.keys items) cols).
Proof.
  intros Hsafe.
  destruct (format_loop_keys items [] [] Hsafe) as [f [u [Hf Hk]]].
  now exists f, u.
Qed.

Lemma resolved_names_in (keys cols : list string) (c : string) :
  In c (resolved_names keys cols)
  <-> exists k, In k keys /\ match_column k cols false = Ok c.
Proof.
  unfold Reading.resolved_names. rewrite in_flat_map. split.
  - intros [k [Hk Hc]]. exists k. split; [exact Hk |].
    destruct (match_column k cols false) as [c' | e]; simpl in Hc.
    + destruct Hc as [-> | []]. reflexivity.
    + contradiction.
  - intros [k [Hk Hc]]. exists k. split; [exact Hk |].
    rewrite Hc. now left.
Qed.

Lemma format_record_allowed (data : row) (cols : list string) :
  cols <> [] ->
  _format_record data None (Some cols)
  = match format_loop (List.length data) cols data [] [] with
    | Raise e => Raise e
    | Ok (formatted, _) => Ok (formatted, Dict.keys formatted)
    end.
Proof.
  intros H. unfold Operator._format_record.
  destruct cols as [| c cs]; [contradiction | reflexivity].
Qed.

Lemma placeholders_numbered (n : nat) :
  Operator.placeholders n = map (fun i => "$" ++ PyStr.of_nat i) (seq 1 n).
Proof.
  unfold Operator.placeholders. rewrite <- seq_shift, map_map.
  apply map_ext. intros i. now rewrite Nat.add_1_r.
Qed.

(** The conversion of [_format_record] by cases: only a text under a
    timestamp column is touched, and only when it parses. *)
Lemma convert_value_cases (c : string) (v : pyval) :
  Operator.convert_value fromisoformat c v
  = match Reading.timestamp_text c v with
    | Some s =>
        match fromisoformat s with
        | Some d => VDatetime d
        | None => v
        end
    | None => v
    end.
Proof.
  destruct v; try reflexivity. simpl.
  destruct (PyStr.contains "created_at" c || PyStr.contains "updated_at" c);
    reflexivity.
Qed.

(** A column that none of the remaining keys resolves to holds at the
    end of the loop what it holds now. *)
Lemma format_loop_keeps (n : nat) (cols : list string) (c : string)
      (items : row) :
  forall (acc : row) (unknown : list string) (f : row) (u : list string),
    format_loop n cols items acc unknown = Ok (f, u) ->
    (forall k, In k (Dict.keys items) -> match_column k cols false <> Ok c) ->
    Dict.get c f = Dict.get c acc.
Proof.
  induction items as [| [k v] items IH]; intros acc unknown f u Hrun Hno.
  - simpl in Hrun. now inversion Hrun.
  - assert (Hrest : forall k', In k' (Dict.keys items)
                               -> match_column k' cols false <> Ok c)
      by (intros k' Hk'; apply Hno; simpl; now right).
    cbn [Operator.format_loop] in Hrun. unfold Operator.match_column in Hrun.
    destruct (match_column k cols false) as [c' | e] eqn:E.
    + rewrite (IH _ _ _ _ Hrun Hrest), get_set.
      destruct (String.eqb c' c) eqn:Ec; [| reflexivity].
      apply String.eqb_eq in Ec. subst c'. exfalso.
      apply (Hno k); [simpl; now left | exact E].
    + rewrite (match_column_raises _ _ E), mkColumnMatchError_shape in Hrun.
      destruct (n =? 1)%nat; [discriminate |].
      exact (IH _ _ _ _ Hrun Hrest).
Qed.

(** The value a column ends up with comes from the last key that
    resolves to it. *)
Lemma format_loop_last (n : nat) (cols : list string) (c k : string)
      (v : pyval) (after before : row) :
  forall (acc : row) (unknown : list string) (f : row) (u : list string),
    format_loop n cols (app before ((k, v) :: after)) acc unknown
    = Ok (f, u) ->
    match_column k cols false = Ok c ->
    (forall k', In k' (Dict.keys after)
                -> match_column k' cols false <> Ok c) ->
    Dict.get c f = Some (Operator.convert_value fromisoformat c v).
Proof.
  induction before as [| [k0 v0] before IH];
    intros acc unknown f u Hrun Hk Hafter.
  - cbn [app Operator.format_loop] in Hrun.
    unfold Operator.match_column in Hrun. rewrite Hk in Hrun.
    rewrite (format_loop_keeps _ _ _ _ _ Hrun Hafter), get_set.
    now rewrite String.eqb_refl.
  - cbn [app Operator.format_loop] in Hrun.
    unfold Operator.match_column in Hrun.
    destruct (match_column k0 cols false) as [c0 | e] eqn:E.
    + exact (IH _ _ _ _ Hrun Hk Hafter).
    + rewrite (match_column_raises _ _ E), mkColumnMatchError_shape in Hrun.
      destruct (n =? 1)%nat; [discriminate |].
      exact (IH _ _ _ _ Hrun Hk Hafter).
Qed.

(** C4. [insert] drops every key of the record that fails column
    resolution and inserts the others: the statement names the columns
    the remaining keys resolve to, each once and in the order of the
    keys, and binds to each the value of the last key that resolves to
    it (a text under a [created_at] or [updated_at] column as the
    timestamp it parses to, when it parses); with [returning] the row the
    connection answers is returned, without it [None].  When the record
    has exactly one key and that key does not resolve, the
    [ColumnMatchError] propagates; when the record has another number of
    keys and none resolves, [insert] raises [ValueError] and no statement
    is built. *)
Theorem insert_drops_unresolved_keys
        (table schema : string) (data : row) (returning : bool)
        (op op' : Operator.DBOperator Conn) (cols : list string) :
  _get_table_columns table schema op = (Ok cols, op') ->
  cols <> [] ->
  (forall k v, data = [(k, v)] -> ~ resolves k cols ->
      insert table data returning schema op
      = (Raise (mkColumnMatchError k cols None None), op'))
  /\ (List.length data <> 1
      \/ (forall k, In k (Dict.keys data) -> resolves k cols) ->
      exists formatted,
        Dict.keys formatted
        = Reading.uniq (resolved_names (Dict.keys data) cols)
        /\ (forall c, In c (Dict.keys formatted)
                      <-> exists k, In k (Dict.keys data)
                                    /\ match_column k cols false = Ok c)
        /\ (forall before k v after c,
              data = app before ((k, v) :: after) ->
              match_column k cols false = Ok c ->
              (forall k', In k' (Dict.keys after)
                          -> match_column k' cols false <> Ok c) ->
              Dict.get c formatted
              = Some match Reading.timestamp_text c v with
                     | Some s =>
                         match fromisoformat s with
                         | Some d => VDatetime d
                         | None => v
                         end
                     | None => v
                     end)
        /\ ((exists k, In k (Dict.keys data) /\ resolves k cols) ->
            insert table data returning schema op
            = if returning then
                connector_execute Operator.FetchRow
                  (Reading.insert_text schema table formatted
                     ++ " RETURNING *")
                  (Some (Dict.values formatted)) None op'
              else
                let (status, op'') :=
                  connector_execute Operator.FetchStatus
                    (Reading.insert_text schema table formatted)
                    (Some (Dict.values formatted)) None op' in
                (match status with
                 | Ok _ => Ok None
                 | Raise e => Raise e
                 end, op'')))
  /\ (List.length data <> 1 ->
      (forall k, In k (Dict.keys data) -> ~ resolves k cols) ->
      insert table data returning schema op
      = (Raise (ValueError "No valid columns to insert"), op')).
Proof.
  intros Hcols Hne.
  assert (Hinsert :
            insert table data returning schema op
            = match _format_record data None (Some cols) with
              | Raise e => (Raise e, op')
              | Ok ([], _) =>
                  (Raise (ValueError "No valid columns to insert"), op')
              | Ok (formatted, _) =>
                  if returning then
                    connector_execute Operator.FetchRow
                      (Reading.insert_text schema table formatted
                         ++ " RETURNING *")
                      (Some (Dict.values formatted)) None op'
                  else
                    let (status, op'') :=
                      connector_execute Operator.FetchStatus
                        (Reading.insert_text schema table formatted)
                        (Some (Dict.values formatted)) None op' in
                    (match status with
                     | Ok _ => Ok None
                     | Raise e => Raise e
                     end, op'')
              end).
  { unfold Operator.insert, bind at 1.
    fold _get_table_columns. rewrite Hcols.
    unfold bind at 1, lift.
    destruct (_format_record data None (Some cols)) as [[f names] | e];
      [| reflexivity].
    cbn [fst]. destruct f as [| kv f']; [reflexivity |].
    unfold Reading.insert_text, Dict.values.
    rewrite placeholders_numbered, length_map.
    destruct returning; [reflexivity |].
    unfold bind, ret.
    destruct (Operator.connector_execute _ _ _ _ _ _) as [[status | e] op''];
      reflexivity. }
  split; [| split].
  - intros k v -> Hk. rewrite Hinsert.
    rewrite format_record_allowed by assumption.
    cbn [Operator.format_loop List.length]. unfold Operator.match_column.
    rewrite (not_resolves_raises Hk), mkColumnMatchError_shape.
    reflexivity.
  - intros Hsafe.
    destruct (format_loop_from_empty data Hsafe) as [f [u [Hf Hk]]].
    assert (Hmem : forall c, In c (Dict.keys f)
                             <-> exists k, In k (Dict.keys data)
                                           /\ match_column k cols false
                                              = Ok c).
    { intros c. rewrite Hk, uniq_in. apply resolved_names_in. }
    exists f. split; [exact Hk |]. split; [exact Hmem |]. split.
    + intros before k v after c -> Hc Hafter.
      rewrite <- convert_value_cases.
      eapply format_loop_last; [exact Hf | exact Hc | exact Hafter].
    + intros [k [Hin [c Hc]]]. rewrite Hinsert.
      rewrite format_record_allowed by assumption. rewrite Hf.
      destruct f as [| kv f']; [| reflexivity].
      exfalso. apply (proj2 (Hmem c)). now exists k.
  - intros Hlen Hnone.
    destruct (format_loop_from_empty (cols := cols) data (or_introl Hlen))
      as [f [u [Hf Hk]]].
    rewrite Hinsert.
    rewrite format_record_allowed by assumption. rewrite Hf.
    destruct f as [| [c v] f']; [reflexivity | exfalso].
    assert (Hin : In c (Dict.keys ((c, v) :: f'))) by (simpl; now left).
    rewrite Hk, uniq_in, resolved_names_in in Hin.
    destruct Hin as [k [Hin Hc]]. apply (Hnone k Hin). now exists c.
Qed.

Lemma get_some_has {V : Type} (k : string) (v : V) (d : dict V) :
  Dict.get k d = Some v -> Dict.has k d = true.
Proof.
  induction d as [| [k' v'] d IH]; simpl; [discriminate |].
  destruct (String.eqb k' k); [reflexivity | exact IH].
Qed.

Lemma get_of_in {V : Type} (k : string) (v : V) (d : dict V) :
  Dict.wf d -> In (k, v) d -> Dict.get k d = Some v.
Proof.
  unfold Dict.wf, Dict.keys.
  induction d as [| [k' v'] d IH]; simpl; intros Hnd Hin; [contradiction |].
  inversion Hnd as [| ? ? Hnotin Hnd']; subst.
  destruct Hin as [Heq | Hin].
  - inversion Heq; subst. now rewrite String.eqb_refl.
  - destruct (String.eqb k' k) eqn:E.
    + apply String.eqb_eq in E. subst k'. exfalso. apply Hnotin.
      change k with (fst (k, v)). now apply in_map.
    + now apply IH.
Qed.

Lemma get_none_of_notin {V : Type} (k : string) (d : dict V) :
  ~ In k (Dict.keys d) -> Dict.get k d = None.
Proof.
  induction d as [| [k' v'] d IH]; simpl; intros H; [reflexivity |].
  destruct (String.eqb k' k) eqn:E.
  - apply String.eqb_eq in E. subst. exfalso. apply H. now left.
  - apply IH. intros Hin. apply H. now right.
Qed.

(** The result loop of [get_by_uuid], entry by entry. *)
Lemma decode_loop_spec (items record : row) :
  Dict.wf items ->
  (forall k val, In (k, val) items -> Dict.get k record = Some val) ->
  Dict.keys (Operator.decode_loop json_loads items record) = Dict.keys record
  /\ forall k,
      Dict.get k (Operator.decode_loop json_loads items record)
      = match Dict.get k items with
        | Some val => Some (Reading.decoded json_loads k val)
        | None => Dict.get k record
        end.
Proof.
  revert record.
  induction items as [| [k0 v0] items IH]; intros record Hwf Hagree.
  - simpl. split; reflexivity.
  - inversion Hwf as [| ? ? Hnotin Hwf']; subst.
    assert (Hk0 : Dict.get k0 record = Some v0)
      by (apply Hagree; now left).
    assert (Hstep : forall record',
               Dict.keys record' = Dict.keys record ->
               (forall k, Dict.get k record'
                          = if String.eqb k0 k
                            then Some (Reading.decoded json_loads k0 v0)
                            else Dict.get k record) ->
               Dict.keys (Operator.decode_loop json_loads items record')
               = Dict.keys record
               /\ forall k,
                   Dict.get k (Operator.decode_loop json_loads items record')
                   = match Dict.get k ((k0, v0) :: items) with
                     | Some val => Some (Reading.decoded json_loads k val)
                     | None => Dict.get k record
                     end).
    { intros record' Hkeys Hget.
      destruct (IH record' Hwf') as [IHk IHg].
      - intros k val Hin. rewrite Hget.
        destruct (String.eqb k0 k) eqn:E.
        + apply String.eqb_eq in E. subst k. exfalso. apply Hnotin.
          change k0 with (fst (k0, val)). now apply in_map.
        + apply Hagree. now right.
      - split; [now rewrite IHk |].
        intros k. rewrite IHg. simpl.
        destruct (String.eqb k0 k) eqn:E.
        + apply String.eqb_eq in E. subst k.
          rewrite (@get_none_of_notin _ _ _ Hnotin), Hget, String.eqb_refl.
          reflexivity.
        + destruct (Dict.get k items); [reflexivity |].
          now rewrite Hget, E. }
    assert (Hsame : forall k, Dict.get k record
                              = if String.eqb k0 k then Some v0
                                else Dict.get k record).
    { intros k. destruct (String.eqb k0 k) eqn:E; [| reflexivity].
      apply String.eqb_eq in E. now subst. }
    cbn [Operator.decode_loop].
    destruct v0; try (apply Hstep; [reflexivity | exact Hsame]).
    unfold Reading.decoded in Hstep.
    change ["metadata"; "variables"; "content"] with Operator.json_columns
      in Hstep.
    destruct (PyStr.mem k0 Operator.json_columns);
      [| apply Hstep; [reflexivity | exact Hsame]].
    destruct (json_loads s) as [parsed |];
      [| apply Hstep; [reflexivity | exact Hsame]].
    apply Hstep.
    + rewrite keys_set, (@get_some_has _ _ _ _ Hk0). reflexivity.
    + intros k. apply get_set.
Qed.

(** C7. With no key column supplied, [get_by_uuid] looks the record up by
    the column named [uuid] when the table has one and by [id] otherwise;
    the value is bound as its text [str(value)]; in a fetched row every
    column named [metadata], [variables] or [content] that holds text is
    replaced by the value decoded from it, and keeps the text when the
    decoding fails; every other entry is returned as fetched. *)
Theorem get_by_uuid_default_key
        (table schema : string) (v : Operator.key_value)
        (op op' : Operator.DBOperator Conn) (cols : list string) :
  _get_table_columns table schema op = (Ok cols, op') ->
  exists key,
    (In "uuid" cols -> key = "uuid")
    /\ (~ In "uuid" cols -> key = "id")
    /\ (~ In key cols ->
        get_by_uuid table v None schema op
        = (Raise (mkColumnMatchError key cols (Some schema) (Some table)),
           op'))
    /\ (In key cols ->
        forall answer op'',
          connector_execute Operator.FetchRow
            ("SELECT * FROM " ++ schema ++ "." ++ table
                              ++ " WHERE " ++ key ++ " = $1")
            (Some [VStr (Operator.str_of_key v)]) (Some schema) op'
          = (answer, op'') ->
          match answer with
          | Raise e =>
              get_by_uuid table v None schema op
              = (Raise (QueryError ("Failed to get record by UUID: "
                                      ++ exn_str e)), op'')
          | Ok None | Ok (Some []) =>
              get_by_uuid table v None schema op = (Ok None, op'')
          | Ok (Some record) =>
              Dict.wf record ->
              exists record',
                get_by_uuid table v None schema op = (Ok (Some record'), op'')
                /\ Dict.keys record' = Dict.keys record
                /\ forall k val,
                    In (k, val) record ->
                    Dict.get k record'
                    = Some (Reading.decoded json_loads k val)
          end).
Proof.
  intros Hcols.
  exists (if PyStr.mem "uuid" cols then "uuid" else "id").
  split; [| split; [| split]].
  - intros Hin. apply mem_true_iff in Hin. now rewrite Hin.
  - intros Hnot. apply mem_false_iff in Hnot. now rewrite Hnot.
  - intros Hnot. apply mem_false_iff in Hnot.
    unfold Operator.get_by_uuid, bind at 1. fold _get_table_columns.
    rewrite Hcols. cbv zeta. rewrite Hnot. reflexivity.
  - intros Hin answer op'' Hexec. apply mem_true_iff in Hin.
    assert (Hrun :
      get_by_uuid table v None schema op
      = match answer with
        | Ok None | Ok (Some []) => (Ok None, op'')
        | Ok (Some record) =>
            (Ok (Some (Operator.decode_loop json_loads record record)), op'')
        | Raise e =>
            (Raise (QueryError ("Failed to get record by UUID: "
                                  ++ exn_str e)), op'')
        end).
    { unfold Operator.get_by_uuid, bind at 1. fold _get_table_columns.
      rewrite Hcols. cbv zeta. rewrite Hin. cbn [negb].
      unfold try_except, bind.
      match goal with
      | |- context [Operator.connector_execute ?x ?m ?q ?p ?s ?o] =>
          replace (Operator.connector_execute x m q p s o)
            with (answer, op'') by (symmetry; exact Hexec)
      end.
      destruct answer as [[[| kv record] |] | e]; reflexivity. }
    destruct answer as [[[| kv record] |] | e]; try exact Hrun.
    intros Hwf.
    destruct (@decode_loop_spec (kv :: record) (kv :: record) Hwf)
      as [Hkeys Hget].
    + intros k val. now apply get_of_in.
    + eexists. split; [exact Hrun |]. split; [exact Hkeys |].
      intros k val Hkv. rewrite Hget, (@get_of_in _ _ _ _ Hwf Hkv). reflexivity.
Qed.

End OperatorFacts.


(** On the recording connection: a lone unknown key fails loudly and
    nothing is sent; an unknown key next to a known one is dropped, and
    the statement that goes out names the one column and binds the value
    given for it. *)
Lemma insert_drops_unresolved_keys_witness :
  Demo.insert "t" [("zzz", VInt 1)] true "public" Demo.operator
  = (Raise (Resolver.mkColumnMatchError Demo.singular_noun Demo.plural "zzz"
              Demo.table_columns None None),
     Demo.warm_operator)
  /\ Demo.insert "t" [("ID", VInt 1); ("zzz", VInt 2)] false "public"
                 Demo.operator
     = (Ok None,
        Operator.mkOperator
          [(Operator.columns_query, Some [VStr "public"; VStr "t"]);
           ("INSERT INTO public.t (id) VALUES ($1)", Some [VInt 1])]
          [("public.t", Demo.table_columns)]).
Proof.
  assert (Hcols : Operator._get_table_columns Demo.execute "t" "public"
                    Demo.operator
                  = (Ok Demo.table_columns, Demo.warm_operator))
    by reflexivity.
  assert (Hne : Demo.table_columns <> []) by discriminate.
  split.
  - refine (proj1 (@insert_drops_unresolved_keys Demo.singular_noun
                     Demo.plural Demo.fromisoformat Demo.Conn Demo.execute
                     "t" "public" [("zzz", VInt 1)] true _ _ _ Hcols Hne)
                  "zzz" (VInt 1) eq_refl _).
    intros [c Hc]. vm_compute in Hc. discriminate.
  - destruct (proj1 (proj2
                (@insert_drops_unresolved_keys Demo.singular_noun
                   Demo.plural Demo.fromisoformat Demo.Conn Demo.execute
                   "t" "public" [("ID", VInt 1); ("zzz", VInt 2)] false
                   _ _ _ Hcols Hne)))
      as [formatted [Hkeys [_ [Hvalue Hrun]]]].
    + left. simpl. lia.
    + assert (Hid : Dict.get "id" formatted = Some (VInt 1)).
      { apply (Hvalue [] "ID" (VInt 1) [("zzz", VInt 2)] "id");
          [reflexivity | reflexivity |].
        intros k' [<- | []]. vm_compute. discriminate. }
      destruct formatted as [| [c v] [| kv rest]]; try discriminate Hkeys.
      injection Hkeys as ->. simpl in Hid. injection Hid as ->.
      unfold Demo.insert. rewrite Hrun.
      * reflexivity.
      * exists "ID". split; [simpl; now left | now exists "id"].
Defined.

(** On the recording connection the table has no [uuid] column, so the
    lookup goes by [id]; [metadata] is decoded, [content] is not JSON and
    stays text. *)
Lemma get_by_uuid_default_key_witness :
  exists record',
    Demo.get_by_uuid "t" (Operator.KeyUUID "7") None "public" Demo.operator
    = (Ok (Some record'),
       Operator.mkOperator
         [(Operator.columns_query, Some [VStr "public"; VStr "t"]);
          ("SELECT * FROM public.t WHERE id = $1", Some [VStr "7"])]
         [("public.t", Demo.table_columns)])
    /\ Dict.get "metadata" record' = Some (VDict [])
    /\ Dict.get "content" record' = Some (VStr "plain")
    /\ Dict.get "a" record' = Some (VInt 1).
Proof.
  assert (Hcols : Operator._get_table_columns Demo.execute "t" "public"
                    Demo.operator
                  = (Ok Demo.table_columns, Demo.warm_operator))
    by reflexivity.
  destruct (@get_by_uuid_default_key Demo.singular_noun Demo.plural
              Demo.json_loads Demo.Conn Demo.execute "t" "public"
              (Operator.KeyUUID "7") _ _ _ Hcols)
    as [key [_ [Hid [_ Hrun]]]].
  assert (Hkey : key = "id").
  { apply Hid. intros Hin. apply mem_true_iff in Hin. discriminate. }
  subst key.
  assert (Hin : In "id" Demo.table_columns) by (simpl; now left).
  specialize (Hrun Hin _ _ eq_refl). cbv beta iota in Hrun.
  destruct Hrun as [record' [Hres [_ Hget]]].
  - unfold Dict.wf. simpl.
    repeat (constructor; [simpl; intuition discriminate |]). constructor.
  - exists record'. split; [exact Hres |].
    split; [| split].
    + apply (Hget "metadata" (VStr "{}")). simpl. tauto.
    + apply (Hget "content" (VStr "plain")). simpl. tauto.
    + apply (Hget "a" (VInt 1)). simpl. tauto.
Defined.

(** C2. [update] numbers the [WHERE] placeholders [len(params) + i + 1],
    adding the loop index to a parameter count that already grows with
    every bound condition.  With data [{a: 1}] and conditions
    [{b: None, c: 3}] the statement refers to [$3] while the parameter
    tuple has two elements; with conditions [{b: 2, c: 3}] it refers to
    [$4] with three parameters.  The same conditions in [fetch] are
    numbered by [len(params) + 1] and line up with the tuple. *)
Theorem update_where_numbering :
  Operator.update_statement "t" "public" [("a", VInt 1)]
                            [("b", VNone); ("c", VInt 3)]
  = ("UPDATE public.t SET a = $1 WHERE b IS NULL AND c = $3",
     [VInt 1; VInt 3])
  /\ Operator.update_statement "t" "public" [("a", VInt 1)]
                               [("b", VInt 2); ("c", VInt 3)]
     = ("UPDATE public.t SET a = $1 WHERE b = $2 AND c = $4",
        [VInt 1; VInt 2; VInt 3])
  /\ Operator.connector
       (snd (Demo.update "t" [("a", VInt 1)] [("b", VNone); ("c", VInt 3)]
                         true "public" Demo.operator))
     = [(Operator.columns_query, Some [VStr "public"; VStr "t"]);
        ("UPDATE public.t SET a = $1 WHERE b IS NULL AND c = $3 RETURNING *",
         Some [VInt 1; VInt 3])]
  /\ Operator.fetch_where_loop 0 [("b", VNone); ("c", VInt 3)] [] []
     = (["b IS NULL"; "c = $1"], [VInt 3]).
Proof. repeat split; reflexivity. Qed.

(** ** The registry life cycle *)

Section LifecycleFacts.

Variable C : Type.
Variable Rng : Type.
Variable db_extract : C -> C * option string.
Variable path_exists : string -> bool.
Variable parse_dump : string -> C -> C * option string.

Local Abbreviation initialize :=
  (Registry.initialize (Rng := Rng) db_extract path_exists parse_dump).
Local Abbreviation ensure_initialized :=
  (Registry.ensure_initialized (Rng := Rng) db_extract path_exists parse_dump).

Lemma initialize_when_initialized (w : Registry.World C Rng) :
  Registry.initialized (Registry.self w) = true ->
  initialize w = (Ok tt, w).
Proof.
  intros H. unfold Registry.initialize. now rewrite H.
Qed.

Lemma initialize_success_sets_flag (w w1 : Registry.World C Rng) :
  initialize w = (Ok tt, w1) ->
  Registry.initialized (Registry.self w1) = true.
Proof.
  unfold Registry.initialize.
  destruct (Registry.initialized (Registry.self w)) eqn:Hflag.
  - intros H. inversion H; subst. exact Hflag.
  - unfold bind, Registry.set_initialized.
    match goal with
    | |- (let (r, s') := ?loader w in _) = _ -> _ =>
        destruct (loader w) as [[[] | e] w']
    end; intros H; inversion H; reflexivity.
Qed.

(** C8. [initialize] is idempotent: once a call has succeeded, every
    later call returns at once, runs no extraction pass (the count of
    passes does not move) and leaves the cache as the first call left it:
    the whole world is unchanged. *)
Theorem initialize_idempotent (w w1 : Registry.World C Rng) :
  initialize w = (Ok tt, w1) ->
  initialize w1 = (Ok tt, w1)
  /\ forall n,
      let later := Nat.iter n (fun w' => snd (initialize w')) w1 in
      later = w1
      /\ Registry.table_schemas (Registry.self later)
         = Registry.table_schemas (Registry.self w1)
      /\ Registry.extractions later = Registry.extractions w1.
Proof.
  intros Hfirst.
  pose proof (initialize_success_sets_flag _ Hfirst) as Hflag.
  pose proof (initialize_when_initialized _ Hflag) as Hagain.
  split; [exact Hagain |].
  intros n.
  assert (Hiter : Nat.iter n (fun w' => snd (initialize w')) w1 = w1).
  { induction n as [| n IH]; simpl; [reflexivity |].
    rewrite IH, Hagain. reflexivity. }
  cbv zeta. rewrite Hiter. repeat split.
Qed.

Lemma ensure_initialized_cases (w : Registry.World C Rng) :
  (Registry.initialized (Registry.self w) = true
   /\ ensure_initialized w = (Ok tt, w))
  \/ (Registry.initialized (Registry.self w) = false
      /\ ensure_initialized w = initialize w).
Proof.
  unfold Registry.ensure_initialized.
  destruct (Registry.initialized (Registry.self w)); [left | right];
    split; reflexivity.
Qed.

End LifecycleFacts.

(** A registry that reads its catalog on the first call: one extraction
    pass, none afterwards. *)
Lemma initialize_idempotent_witness :
  let first :=
    snd (Registry.initialize Demo.db_up Demo.path_exists Demo.parse_dump
                             Demo.fresh_world) in
  Registry.extractions first = 1
  /\ Registry.initialize Demo.db_up Demo.path_exists Demo.parse_dump first
     = (Ok tt, first).
Proof.
  split; [reflexivity |].
  exact (proj1 (@initialize_idempotent Registry.Cache nat Demo.db_up
                  Demo.path_exists Demo.parse_dump Demo.fresh_world _
                  eq_refl)).
Defined.

(** ** Validation and synthesis *)

Section RegistryFacts.

Variable Rng : Type.
Variable random_bits : Rng -> N * Rng.
Variable db_extract : Registry.Cache -> Registry.Cache * option string.
Variable path_exists : string -> bool.
Variable parse_dump :
  string -> Registry.Cache -> Registry.Cache * option string.
Variable clock : Registry.Clock.

Local Abbreviation World := (Registry.World Registry.Cache Rng).
Local Abbreviation initialize :=
  (Registry.initialize (Rng := Rng) db_extract path_exists parse_dump).
Local Abbreviation ensure_initialized :=
  (Registry.ensure_initialized (Rng := Rng) db_extract path_exists parse_dump).
Local Abbreviation get_table_schema :=
  (Registry.get_table_schema (Rng := Rng) db_extract path_exists parse_dump).
Local Abbreviation validate_insert_data :=
  (Registry.validate_insert_data (Rng := Rng) db_extract path_exists
                                 parse_dump).
Local Abbreviation generate_mock_data :=
  (Registry.generate_mock_data random_bits db_extract path_exists parse_dump
                               clock).
Local Abbreviation generate_row :=
  (Registry.generate_row random_bits db_extract path_exists parse_dump clock).

Lemma lookup_table_cases (schema table : string) (w : World) :
  (exists ts, Registry.lookup_table schema table w = (Ok ts, w)
              /\ exists tables,
                  Dict.get schema (Registry.table_schemas (Registry.self w))
                  = Some tables
                  /\ Dict.get table tables = Some ts)
  \/ (exists msg, Registry.lookup_table schema table w
                  = (Raise (ValueError msg), w)).
Proof.
  unfold Registry.lookup_table.
  destruct (Dict.get schema _) as [tables |]; [| right; eauto].
  destruct (Dict.get table tables) as [ts |] eqn:E; [left | right; eauto].
  exists ts. split; [reflexivity |]. exists tables. split; [reflexivity |].
  exact E.
Qed.

Lemma get_table_schema_initialized (schema table : string) (w : World) :
  Registry.initialized (Registry.self w) = true ->
  get_table_schema schema table w = Registry.lookup_table schema table w.
Proof.
  intros H. unfold Registry.get_table_schema, bind,
              Registry.ensure_initialized.
  now rewrite H.
Qed.

Lemma get_table_schema_uninitialized (schema table : string) (w : World) :
  Registry.initialized (Registry.self w) = false ->
  get_table_schema schema table w
  = match initialize w with
    | (Ok _, w1) => Registry.lookup_table schema table w1
    | (Raise e, w1) => (Raise e, w1)
    end.
Proof.
  intros H. unfold Registry.get_table_schema, bind,
              Registry.ensure_initialized.
  rewrite H. reflexivity.
Qed.

(** On an initialized registry validation is a function of the cache. *)
Lemma validate_insert_data_initialized
      (schema table : string) (data : row) (w : World) :
  Registry.initialized (Registry.self w) = true ->
  validate_insert_data schema table data w
  = match Registry.lookup_table schema table w with
    | (Ok ts, _) => (Ok (Registry.validate_against ts data), w)
    | (Raise e, _) => (Ok (false, Some (exn_str e)), w)
    end.
Proof.
  intros H. unfold Registry.validate_insert_data.
  rewrite (get_table_schema_initialized _ _ _ H).
  destruct (lookup_table_cases schema table w)
    as [[ts [-> _]] | [msg ->]]; reflexivity.
Qed.

(** C10, as the code has it.  [validate_insert_data] returns a pair
    instead of raising whenever the registry is initialized, or its lazy
    initialization succeeds or fails with a [ValueError]: an unknown schema
    or table gives [(False, message)], with the message of the error
    [get_table_schema] raised, and what [json.dumps] raises inside the
    type check of a value becomes [(False, message)] as well.  When the
    lazy initialization raises anything else (the [RuntimeError] of a
    failed catalog scan) that error reaches the caller. *)
Theorem validate_insert_data_total
        (schema table : string) (data : row) (w : World) :
  ((forall e w1, initialize w = (Raise e, w1) ->
                 isinstance_ValueError e = true) ->
   exists valid msg w',
     validate_insert_data schema table data w = (Ok (valid, msg), w'))
  /\ (Registry.initialized (Registry.self w) = true ->
      (Dict.get schema (Registry.table_schemas (Registry.self w)) = None ->
       validate_insert_data schema table data w
       = (Ok (false, Some ("Schema '" ++ schema
                             ++ "' not found in schema registry")), w))
      /\ (forall tables,
             Dict.get schema (Registry.table_schemas (Registry.self w))
             = Some tables ->
             Dict.get table tables = None ->
             validate_insert_data schema table data w
             = (Ok (false, Some ("Table '" ++ table
                                   ++ "' not found in schema '" ++ schema
                                   ++ "'")), w)))
  /\ (forall value max_length reason,
         Registry.json_dumps_error value = Some reason ->
         Registry._validate_data_type value "jsonb" max_length
         = (false, Some reason))
  /\ (forall e w1,
         Registry.initialized (Registry.self w) = false ->
         initialize w = (Raise e, w1) ->
         isinstance_ValueError e = false ->
         validate_insert_data schema table data w = (Raise e, w1)).
Proof.
  split; [| split; [| split]].
  - intros Hinit.
    destruct (Registry.initialized (Registry.self w)) eqn:Hflag.
    + rewrite (validate_insert_data_initialized _ _ _ _ Hflag).
      destruct (Registry.lookup_table schema table w) as [[ts | e] w'].
      * destruct (Registry.validate_against ts data) as [valid msg]. eauto.
      * eauto.
    + unfold Registry.validate_insert_data.
      rewrite (get_table_schema_uninitialized _ _ _ Hflag).
      destruct (initialize w) as [[[] | e] w1] eqn:E.
      * destruct (lookup_table_cases schema table w1)
          as [[ts [-> _]] | [msg ->]].
        -- destruct (Registry.validate_against ts data) as [valid m]. eauto.
        -- simpl. eauto.
      * rewrite (Hinit e w1 eq_refl). eauto.
  - intros Hflag. split.
    + intros Hnone.
      rewrite (validate_insert_data_initialized _ _ _ _ Hflag).
      unfold Registry.lookup_table. now rewrite Hnone.
    + intros tables Hsome Hnone.
      rewrite (validate_insert_data_initialized _ _ _ _ Hflag).
      unfold Registry.lookup_table. now rewrite Hsome, Hnone.
  - intros value max_length reason Hjson.
    destruct value; simpl in *; try discriminate;
      try (now rewrite Hjson); try (now inversion Hjson).
  - intros e w1 Hflag Hinit Hnot.
    unfold Registry.validate_insert_data.
    rewrite (get_table_schema_uninitialized _ _ _ Hflag), Hinit, Hnot.
    reflexivity.
Qed.

(** *** Synthesis does not touch the registry *)

Lemma keeps_ret {A : Type} (a : A) :
  Registry.keeps_registry (ret (S := World) a).
Proof. intros w. reflexivity. Qed.

Lemma keeps_bind {A B : Type} (m : M World A) (k : A -> M World B) :
  Registry.keeps_registry m ->
  (forall a, Registry.keeps_registry (k a)) ->
  Registry.keeps_registry (bind m k).
Proof.
  intros Hm Hk w. unfold bind. specialize (Hm w).
  destruct (m w) as [[a | e] w1]; simpl in *.
  - rewrite <- Hm. apply Hk.
  - exact Hm.
Qed.

Lemma keeps_draw : Registry.keeps_registry (Registry.draw random_bits).
Proof.
  intros w. unfold Registry.draw.
  destruct (random_bits (Registry.random_state w)). reflexivity.
Qed.

Create HintDb keeps.

#[local] Hint Resolve keeps_ret keeps_draw : keeps.
#[local] Hint Extern 2 (Registry.keeps_registry (bind _ _)) =>
  apply keeps_bind; [| intro] : keeps.
#[local] Hint Extern 3 (Registry.keeps_registry (if ?b then _ else _)) =>
  destruct b : keeps.
#[local] Hint Extern 3 (Registry.keeps_registry (match ?x with _ => _ end)) =>
  destruct x : keeps.

Lemma keeps_randint (a b : Z) :
  Registry.keeps_registry (Registry.randint random_bits a b).
Proof. unfold Registry.randint. auto with keeps. Qed.

Lemma keeps_choice {A : Type} (d : A) (l : list A) :
  Registry.keeps_registry (Registry.choice random_bits d l).
Proof. unfold Registry.choice. auto with keeps. Qed.

#[local] Hint Resolve keeps_randint keeps_choice : keeps.

Lemma keeps_choices_text (k : nat) :
  Registry.keeps_registry (Registry.choices_text random_bits k).
Proof. induction k; simpl; auto 6 with keeps. Qed.

Lemma keeps_hex_text (k : nat) :
  Registry.keeps_registry (Registry.hex_text random_bits k).
Proof. induction k; simpl; auto 6 with keeps. Qed.

Lemma keeps_uniform (lo hi : Z) :
  Registry.keeps_registry (Registry.uniform_rounded random_bits lo hi).
Proof. unfold Registry.uniform_rounded. auto with keeps. Qed.

#[local] Hint Resolve keeps_choices_text keeps_hex_text keeps_uniform : keeps.

Lemma keeps_uuid4 : Registry.keeps_registry (Registry.uuid4 random_bits).
Proof. unfold Registry.uuid4. auto 20 with keeps. Qed.

#[local] Hint Resolve keeps_uuid4 : keeps.

Lemma keeps_scalar (data_type : string) (max_length : option Z) :
  Registry.keeps_registry
    (Registry._generate_mock_scalar_value random_bits data_type max_length).
Proof. unfold Registry._generate_mock_scalar_value. auto 12 with keeps. Qed.

#[local] Hint Resolve keeps_scalar : keeps.

Lemma keeps_repeat_scalar (count : nat) (base_type : string) :
  Registry.keeps_registry
    (Registry.repeat_scalar random_bits count base_type).
Proof. induction count; simpl; auto 6 with keeps. Qed.

#[local] Hint Resolve keeps_repeat_scalar : keeps.

Lemma keeps_by_type (col_name : string) (col_info : Registry.ColumnInfo) :
  Registry.keeps_registry
    (Registry.mock_value_by_type random_bits col_name col_info).
Proof. unfold Registry.mock_value_by_type. auto 15 with keeps. Qed.

#[local] Hint Resolve keeps_by_type : keeps.

Lemma keeps_mock_value (col_name : string) (col_info : Registry.ColumnInfo)
      (table_schema : Registry.TableSchema) :
  Registry.keeps_registry
    (Registry._generate_mock_value random_bits clock col_name col_info
                                   table_schema).
Proof. unfold Registry._generate_mock_value. auto 15 with keeps. Qed.

#[local] Hint Resolve keeps_mock_value : keeps.

Lemma keeps_mock_loop (cols : dict Registry.ColumnInfo)
      (table_schema : Registry.TableSchema) (mock_data : row) :
  Registry.keeps_registry
    (Registry.mock_loop random_bits clock cols table_schema mock_data).
Proof.
  revert mock_data. induction cols as [| [c info] cols IH]; intros mock_data;
    simpl; auto 6 with keeps.
Qed.

Lemma get_table_schema_ok_initialized
      (schema table : string) (w w1 : World) (ts : Registry.TableSchema) :
  get_table_schema schema table w = (Ok ts, w1) ->
  Registry.initialized (Registry.self w1) = true.
Proof.
  destruct (Registry.initialized (Registry.self w)) eqn:Hflag.
  - rewrite (get_table_schema_initialized _ _ _ Hflag).
    destruct (lookup_table_cases schema table w)
      as [[ts' [-> _]] | [msg ->]]; intros H; inversion H; subst.
    exact Hflag.
  - rewrite (get_table_schema_uninitialized _ _ _ Hflag).
    destruct (initialize w) as [[[] | e] w0] eqn:E; [| discriminate].
    pose proof (initialize_success_sets_flag _ _ _ _ E) as Hflag0.
    destruct (lookup_table_cases schema table w0)
      as [[ts' [-> _]] | [msg ->]]; intros H; inversion H; subst.
    exact Hflag0.
Qed.

Lemma generate_mock_data_ok_initialized
      (schema table : string) (overrides : option row) (w w1 : World)
      (mock_data : row) :
  generate_mock_data schema table overrides w = (Ok mock_data, w1) ->
  Registry.initialized (Registry.self w1) = true.
Proof.
  unfold Registry.generate_mock_data, bind.
  destruct (Registry.get_table_schema _ _ _ schema table w)
    as [[ts | e] w0] eqn:E; [| discriminate].
  intros H.
  match type of H with
  | ?m w0 = _ =>
      assert (Hkeep : Registry.self (snd (m w0)) = Registry.self w0)
        by apply keeps_mock_loop
  end.
  rewrite H in Hkeep. simpl in Hkeep. rewrite Hkeep.
  exact (get_table_schema_ok_initialized _ _ _ E).
Qed.

(** C9. [generate_row] never raises: it always returns a row.  When the
    synthesis raises, the row is the single field [mock_error] holding the
    message of the exception; when the synthesis succeeds, the row is the
    synthesized one (the validation that follows only logs). *)
Theorem generate_row_never_raises
        (schema table : string) (overrides : option row) (w : World) :
  exists mock_row w',
    generate_row schema table overrides w = (Ok mock_row, w')
    /\ (forall e w1,
           generate_mock_data schema table overrides w = (Raise e, w1) ->
           mock_row = [("mock_error", VStr (exn_str e))] /\ w' = w1)
    /\ (forall mock_data w1,
           generate_mock_data schema table overrides w = (Ok mock_data, w1) ->
           mock_row = mock_data /\ w' = w1).
Proof.
  unfold Registry.generate_row, try_except, bind.
  fold generate_mock_data.
  destruct (generate_mock_data schema table overrides w)
    as [[mock_data | e] w1] eqn:E.
  - pose proof (generate_mock_data_ok_initialized _ _ _ _ E) as Hflag.
    fold validate_insert_data.
    rewrite (validate_insert_data_initialized _ _ _ _ Hflag).
    exists mock_data, w1.
    destruct (Registry.lookup_table schema table w1) as [[ts | e] w2];
      (split; [reflexivity |]); split; intros ? ? H; inversion H; auto.
  - exists [("mock_error", VStr (exn_str e))], w1.
    split; [reflexivity |]. split; intros ? ? H; inversion H; auto.
Qed.

(** *** Type checks *)

(** Induction on Python values that reaches into lists and tuples. *)
Lemma pyval_items_ind (P : pyval -> Prop) :
  (forall v, (forall items, v <> VList items) ->
             (forall items, v <> VTuple items) -> P v) ->
  (forall items, Forall P items -> P (VList items)) ->
  (forall items, Forall P items -> P (VTuple items)) ->
  forall v, P v.
Proof.
  intros Hleaf Hlist Htuple.
  fix IH 1. intros v.
  destruct v as [| b | z | q | s | items | items | entries | s | s | s | n];
    try (apply Hleaf; intros; discriminate).
  - apply Hlist. induction items as [| x r IHr]; constructor;
      [apply IH | exact IHr].
  - apply Htuple. induction items as [| x r IHr]; constructor;
      [apply IH | exact IHr].
Qed.

Lemma too_long_none (s : string) (max_length : option Z) :
  match max_length with
  | Some m => m = 0%Z \/ (Z.of_nat (String.length s) <= m)%Z
  | None => True
  end ->
  Registry.too_long s max_length = None.
Proof.
  unfold Registry.too_long. destruct max_length as [m |]; [| reflexivity].
  intros [-> | Hle]; [reflexivity |].
  destruct (m =? 0)%Z; [reflexivity |].
  destruct (m <? Z.of_nat (String.length s))%Z eqn:E; [| reflexivity].
  apply Z.ltb_lt in E. lia.
Qed.

Ltac break_reading :=
  repeat match goal with
         | H : exists _, _ |- _ => destruct H
         | H : _ \/ _ |- _ => destruct H
         | H : _ /\ _ |- _ => destruct H
         | H : False |- _ => contradiction
         end.

(** A type-correct value passes [_validate_data_type]. *)
Lemma type_correct_validates (value : pyval) :
  forall data_type max_length,
    Reading.type_correct value data_type max_length ->
    Registry._validate_data_type value data_type max_length = (true, None).
Proof.
  induction value as [v Hnl Hnt | items IH | items IH] using pyval_items_ind;
    intros data_type max_length.
  - (* a value that is neither a list nor a tuple *)
    destruct v; try (exfalso; eapply Hnl; reflexivity);
      try (exfalso; eapply Hnt; reflexivity);
      cbn [Reading.type_correct Registry._validate_data_type];
      unfold Reading.semantic_of;
      destruct (PyStr.mem data_type Registry.integer_types);
      try (intros H; break_reading; (discriminate || reflexivity));
      destruct (Registry.is_character_type data_type);
      try (intros H; break_reading; try discriminate;
           match goal with
           | Heq : VStr _ = VStr _ |- _ => inversion Heq; subst
           end;
           match goal with
           | Hlen : match max_length with _ => _ end |- _ =>
               now rewrite (too_long_none _ _ Hlen)
           end);
      destruct (PyStr.mem data_type Registry.numeric_types);
      try (intros H; break_reading; (discriminate || reflexivity));
      destruct (String.eqb data_type "boolean");
      try (intros H; break_reading; (discriminate || reflexivity));
      destruct (PyStr.mem data_type Registry.temporal_types);
      try (intros H; break_reading; (discriminate || reflexivity));
      destruct (String.eqb data_type "jsonb" || String.eqb data_type "json");
      try (intros H; cbn in H |- *; try discriminate;
           try rewrite H; reflexivity);
      destruct (String.eqb data_type "uuid");
      try (intros H; break_reading; try discriminate;
           match goal with
           | Heq : VStr _ = VStr _ |- _ => inversion Heq; subst
           end;
           match goal with
           | Hm : Registry.uuid_match _ = true |- _ => now rewrite Hm
           end);
      destruct (PyStr.endswith "[]" data_type);
      try (intros H; break_reading; (discriminate || reflexivity)).
  - (* a list *)
    cbn [Reading.type_correct Registry._validate_data_type].
    unfold Reading.semantic_of.
    destruct (PyStr.mem data_type Registry.integer_types);
      [intros H; break_reading; discriminate |].
    destruct (Registry.is_character_type data_type);
      [intros H; break_reading; discriminate |].
    destruct (PyStr.mem data_type Registry.numeric_types);
      [intros H; break_reading; discriminate |].
    destruct (String.eqb data_type "boolean");
      [intros H; break_reading; discriminate |].
    destruct (PyStr.mem data_type Registry.temporal_types);
      [intros H; break_reading; discriminate |].
    destruct (String.eqb data_type "jsonb" || String.eqb data_type "json");
      [intros H; now rewrite H |].
    destruct (String.eqb data_type "uuid");
      [intros H; break_reading; discriminate |].
    destruct (PyStr.endswith "[]" data_type); [| reflexivity].
    induction IH as [| x r Hx Hr IHr]; intros H; [reflexivity |].
    destruct H as [Hhead Htail].
    rewrite (Hx _ _ Hhead). apply IHr. exact Htail.
  - (* a tuple *)
    cbn [Reading.type_correct Registry._validate_data_type].
    unfold Reading.semantic_of.
    destruct (PyStr.mem data_type Registry.integer_types);
      [intros H; break_reading; discriminate |].
    destruct (Registry.is_character_type data_type);
      [intros H; break_reading; discriminate |].
    destruct (PyStr.mem data_type Registry.numeric_types);
      [intros H; break_reading; discriminate |].
    destruct (String.eqb data_type "boolean");
      [intros H; break_reading; discriminate |].
    destruct (PyStr.mem data_type Registry.temporal_types);
      [intros H; break_reading; discriminate |].
    destruct (String.eqb data_type "jsonb" || String.eqb data_type "json");
      [intros H; now rewrite H |].
    destruct (String.eqb data_type "uuid");
      [intros H; break_reading; discriminate |].
    destruct (PyStr.endswith "[]" data_type); [| reflexivity].
    induction IH as [| x r Hx Hr IHr]; intros H; [reflexivity |].
    destruct H as [Hhead Htail].
    rewrite (Hx _ _ Hhead). apply IHr. exact Htail.
Qed.

(** *** The two loops of [validate_insert_data] *)

Lemma required_reflect (info : Registry.ColumnInfo) (col_name : string)
      (data : row) :
  negb (Registry.nullable info) && negb (Registry.has_default info)
  && negb (Registry.is_auto_generated info) && negb (Dict.has col_name data)
  = true
  <-> Reading.required info /\ Dict.has col_name data = false.
Proof.
  unfold Reading.required.
  destruct (Registry.nullable info), (Registry.has_default info),
    (Registry.is_auto_generated info), (Dict.has col_name data);
    simpl; intuition discriminate.
Qed.

Lemma missing_required_some (cols : dict Registry.ColumnInfo) (data : row)
      (col_name : string) :
  Registry.missing_required cols data = Some col_name ->
  exists info, In (col_name, info) cols /\ Reading.required info
               /\ Dict.has col_name data = false.
Proof.
  induction cols as [| [c info] cols IH]; simpl; [discriminate |].
  destruct (negb (Registry.nullable info) && _ && _ && _) eqn:E.
  - intros H. inversion H; subst. apply required_reflect in E.
    exists info. intuition.
  - intros H. destruct (IH H) as [info' [Hin Hreq]].
    exists info'. intuition.
Qed.

Lemma missing_required_none (cols : dict Registry.ColumnInfo) (data : row) :
  Registry.missing_required cols data = None <->
  forall c info, In (c, info) cols -> Reading.required info ->
                 Dict.has c data = true.
Proof.
  induction cols as [| [c info] cols IH]; simpl.
  - split; [intros _ ? ? [] | reflexivity].
  - destruct (negb (Registry.nullable info) && _ && _ && _) eqn:E.
    + split; [discriminate |]. intros H. exfalso.
      apply required_reflect in E. destruct E as [Hreq Hhas].
      rewrite (H c info (or_introl eq_refl) Hreq) in Hhas. discriminate.
    + rewrite IH. split.
      * intros H c' info' [Heq | Hin] Hreq; [| now apply (H c' info')].
        inversion Heq; subst.
        destruct (Dict.has c' data) eqn:Hhas; [reflexivity |].
        exfalso. destruct Hreq as [Hn [Hd Ha]].
        rewrite Hn, Hd, Ha in E. discriminate.
      * intros H c' info' Hin. apply H. now right.
Qed.

(** The second loop passes when every entry of the record has a column
    for key, gives a null only to a nullable column, and any other value
    that is type-correct for the column. *)
Lemma check_values_pass (cols : dict Registry.ColumnInfo) (items : row) :
  (forall k v, In (k, v) items ->
               exists info,
                 Dict.get k cols = Some info
                 /\ (v = VNone -> Registry.nullable info = true)
                 /\ (v <> VNone ->
                     Reading.type_correct v (Registry.col_type info)
                                          (Registry.max_length info))) ->
  Registry.check_values cols items = (true, None).
Proof.
  induction items as [| [k v] items IH]; intros H; [reflexivity |].
  destruct (H k v (or_introl eq_refl)) as [info [Hget [Hnull Htyped]]].
  assert (Hrest : Registry.check_values cols items = (true, None)).
  { apply IH. intros k' v' Hin. apply H. now right. }
  assert (Hvalid : v <> VNone ->
                   Registry._validate_data_type v (Registry.col_type info)
                                                (Registry.max_length info)
                   = (true, None)).
  { intros Hne. apply type_correct_validates. now apply Htyped. }
  cbn [Registry.check_values]. rewrite Hget.
  destruct v; try (rewrite Hvalid by discriminate; exact Hrest).
  rewrite (Hnull eq_refl). exact Hrest.
Qed.

(** C5, as the code has it.  For a table of the registry,
    [validate_insert_data] returns [(False, "Missing required column: c")]
    for a required column [c] absent from the record whenever there is
    one; and it returns [(True, None)] whenever every required column is
    present, every key of the record is a column of the table, a null is
    only given to a nullable column, and every value that is not null is
    type-correct for its column, whether the column is required or
    not. *)
Theorem validate_insert_data_required_and_complete
        (schema table : string) (data : row) (w w1 : World)
        (ts : Registry.TableSchema) :
  get_table_schema schema table w = (Ok ts, w1) ->
  ((exists c info, In (c, info) (Registry.columns ts)
                   /\ Reading.required info /\ Dict.has c data = false) ->
   exists c info,
     In (c, info) (Registry.columns ts)
     /\ Reading.required info /\ Dict.has c data = false
     /\ validate_insert_data schema table data w
        = (Ok (false, Some ("Missing required column: " ++ c)), w1))
  /\ ((forall c info, In (c, info) (Registry.columns ts) ->
                      Reading.required info -> Dict.has c data = true) ->
      (forall k v, In (k, v) data ->
                   exists info,
                     Dict.get k (Registry.columns ts) = Some info
                     /\ (v = VNone -> Registry.nullable info = true)
                     /\ (v <> VNone ->
                         Reading.type_correct v (Registry.col_type info)
                                              (Registry.max_length info))) ->
      validate_insert_data schema table data w = (Ok (true, None), w1)).
Proof.
  intros Hts.
  assert (Hrun : validate_insert_data schema table data w
                 = (Ok (Registry.validate_against ts data), w1)).
  { unfold Registry.validate_insert_data. fold get_table_schema.
    now rewrite Hts. }
  rewrite Hrun. unfold Registry.validate_against. split.
  - intros [c [info [Hin [Hreq Hhas]]]].
    destruct (Registry.missing_required (Registry.columns ts) data)
      as [c' |] eqn:E.
    + destruct (missing_required_some _ _ E) as [info' [Hin' [Hreq' Hhas']]].
      exists c', info'.
      split; [exact Hin' | split; [exact Hreq' | split; [exact Hhas' |]]].
      reflexivity.
    + exfalso. rewrite missing_required_none in E.
      rewrite (E c info Hin Hreq) in Hhas. discriminate.
  - intros Hpresent Hvalues.
    apply missing_required_none in Hpresent. rewrite Hpresent.
    now rewrite (check_values_pass _ _ Hvalues).
Qed.

End RegistryFacts.


(** An unknown table on an initialized registry is reported, not
    raised. *)
Lemma validate_insert_data_total_witness :
  exists valid msg w',
    Demo.validate_insert_data "public" "nope" [] Demo.world
    = (Ok (valid, msg), w').
Proof.
  apply (proj1 (@validate_insert_data_total nat Demo.db_down
                  Demo.path_exists Demo.parse_dump "public" "nope" []
                  Demo.world)).
  intros e w1 H. vm_compute in H. discriminate.
Defined.

(** A registry that has not read its catalog yet, and whose database is
    down: the [RuntimeError] of the lazy initialization leaves
    [validate_insert_data] through the [except ValueError] clause
    uncaught. *)
Lemma validate_insert_data_raises_on_source_failure :
  Demo.validate_insert_data "public" "orders" [] Demo.fresh_world
  = (Raise (RuntimeError
              "Failed to load schema from database: connection refused"),
     Registry.mkWorld Demo.fresh_registry 0 1)
  /\ ~ (exists valid msg w',
           Demo.validate_insert_data "public" "orders" [] Demo.fresh_world
           = (Ok (valid, msg), w')).
Proof.
  split; [reflexivity |].
  intros [valid [msg [w' H]]]. vm_compute in H. discriminate.
Qed.

(** A table that is not in the registry: the row carries the marker. *)
Lemma generate_row_never_raises_witness :
  exists mock_row w',
    Demo.generate_row "public" "nope" None Demo.world = (Ok mock_row, w')
    /\ mock_row
       = [("mock_error", VStr "Table 'nope' not found in schema 'public'")].
Proof.
  destruct (@generate_row_never_raises nat Demo.random_bits Demo.db_down
              Demo.path_exists Demo.parse_dump Demo.clock
              "public" "nope" None Demo.world)
    as [mock_row [w' [Hrun [Herr _]]]].
  exists mock_row, w'. split; [exact Hrun |].
  exact (proj1 (Herr (ValueError "Table 'nope' not found in schema 'public'")
                     Demo.world eq_refl)).
Defined.

(** The record [{priority: 5, note: 7}] for [tickets]: the one required
    column is there with an integer, no key is foreign to the table,
    nothing is null.  It is rejected all the same, for the value of the
    optional column [note]. *)
Lemma validate_insert_data_checks_optional_columns :
  let data := [("priority", VInt 5); ("note", VInt 7)] in
  (forall c info,
      In (c, info) (Registry.columns Demo.tickets) ->
      Reading.required info ->
      exists v, Dict.get c data = Some v /\ v <> VNone
                /\ Reading.type_correct v (Registry.col_type info)
                                        (Registry.max_length info))
  /\ (forall k, In k (Dict.keys data) ->
                Dict.has k (Registry.columns Demo.tickets) = true)
  /\ (forall k, Dict.get k data = Some VNone ->
                exists info,
                  Dict.get k (Registry.columns Demo.tickets) = Some info
                  /\ Registry.nullable info = true)
  /\ Demo.validate_insert_data "public" "tickets" data Demo.world
     = (Ok (false,
            Some "Invalid value for column note: Expected string, got int"),
        Demo.world).
Proof.
  cbv zeta. split; [| split; [| split]].
  - intros c info Hin [Hn [Hd Ha]]. simpl in Hin.
    destruct Hin as [H | [H | [H | []]]];
      injection H as <- <-; [discriminate Hd | | discriminate Hn].
    exists (VInt 5). split; [reflexivity |]. split; [discriminate |].
    simpl. left. now exists 5%Z.
  - intros k Hin. simpl in Hin.
    destruct Hin as [<- | [<- | []]]; reflexivity.
  - intros k H. exfalso. cbn [Dict.get] in H.
    destruct (String.eqb "priority" k); [discriminate H |].
    destruct (String.eqb "note" k); discriminate H.
  - reflexivity.
Qed.

(** The record [{priority: 5}] for [tickets]: complete and type-correct,
    hence valid. *)
Lemma validate_insert_data_required_and_complete_witness :
  Demo.validate_insert_data "public" "tickets" [("priority", VInt 5)]
                            Demo.world
  = (Ok (true, None), Demo.world).
Proof.
  refine (proj2 (@validate_insert_data_required_and_complete nat
                   Demo.db_down Demo.path_exists Demo.parse_dump
                   "public" "tickets" [("priority", VInt 5)]
                   Demo.world Demo.world Demo.tickets eq_refl) _ _).
  - intros c info Hin [Hn [Hd Ha]]. simpl in Hin.
    destruct Hin as [H | [H | [H | []]]];
      injection H as <- <-; [discriminate Hd | | discriminate Hn].
    reflexivity.
  - intros k v Hin. simpl in Hin. destruct Hin as [H | []].
    inversion H; subst.
    eexists. split; [reflexivity |]. split; [discriminate |].
    intros _. simpl. left. now exists 5%Z.
Defined.

(** C1. For the table [orders], whose foreign-key column [user_id] is
    declared [integer], [generate_row] synthesizes the text
    ["mock-users-ref-NNNN"] for that column, whatever the random
    generator, and [validate_insert_data] rejects the row it is given
    back. *)
Theorem generate_row_foreign_key_invalid
        (Rng : Type) (random_bits : Rng -> N * Rng)
        (db_extract : Registry.Cache -> Registry.Cache * option string)
        (path_exists : string -> bool)
        (parse_dump : string -> Registry.Cache
                      -> Registry.Cache * option string)
        (clock : Registry.Clock) (g : Rng) (passes : nat) :
  exists mock_row w' reference,
    Registry.generate_row random_bits db_extract path_exists parse_dump
                          clock "public" "orders" None
                          (Registry.mkWorld Demo.registry g passes)
    = (Ok mock_row, w')
    /\ mock_row = [("user_id", VStr ("mock-users-ref-" ++ reference))]
    /\ Registry.validate_insert_data db_extract path_exists parse_dump
                                     "public" "orders" mock_row w'
       = (Ok (false,
              Some "Invalid value for column user_id: Expected integer, got str"),
          w').
Proof.
  destruct (random_bits g) as [n g'] eqn:Hdraw.
  exists [("user_id",
           VStr ("mock-users-ref-"
                   ++ PyStr.of_Z (1000 + Z.of_N n mod (9999 - 1000 + 1))))],
    (Registry.mkWorld Demo.registry g' passes),
    (PyStr.of_Z (1000 + Z.of_N n mod (9999 - 1000 + 1))).
  split; [| split; reflexivity].
  unfold Registry.generate_row, try_except, bind.
  unfold Registry.generate_mock_data, bind.
  cbn -[Z.modulo Z.add PyStr.of_Z String.append].
  cbv beta iota zeta delta
      [bind ret Registry.randint Registry.draw Registry.random_state
       Registry.self Registry.extractions].
  rewrite Hdraw. reflexivity.
Qed.

(** ** The snapshot codec *)

Import Snapshot.

Lemma skip_ws_spaces (n : nat) (s : string) :
  skip_ws (spaces n s) = skip_ws s.
Proof. induction n as [| n IH]; simpl; [reflexivity | exact IH]. Qed.

Lemma skip_ws_break (level : nat) (s : string) :
  skip_ws (break level s) = skip_ws s.
Proof. unfold break. simpl. apply skip_ws_spaces. Qed.

(** *** Text *)

Lemma scanstring_escape_char (c : ascii) (t : string) :
  scanstring (escape_char c t) = cons_text c (scanstring t).
Proof.
  destruct c as [[] [] [] [] [] [] [] []]; reflexivity.
Qed.

Lemma scanstring_escape (s rest : string) :
  scanstring (escape s (String dquote rest)) = Some (s, rest).
Proof.
  induction s as [| c s IH]; simpl.
  - reflexivity.
  - rewrite scanstring_escape_char, IH. reflexivity.
Qed.

(** *** Integers *)

Lemma span_digits_uint (d : Decimal.uint) (rest : string) :
  delimited rest ->
  span_digits (NilEmpty.string_of_uint d ++ rest)
  = (NilEmpty.string_of_uint d, rest).
Proof.
  intros Hrest. induction d; simpl; try (rewrite IHd; reflexivity).
  destruct rest as [| c r]; simpl; [reflexivity |].
  simpl in Hrest. now rewrite Hrest.
Qed.

Lemma string_of_uint_nonnil (d : Decimal.uint) :
  d <> Decimal.Nil ->
  NilZero.string_of_uint d = NilEmpty.string_of_uint d.
Proof. destruct d; intros H; [contradiction | reflexivity ..]. Qed.

Lemma int_of_string_of_Z (z : Z) :
  NilZero.int_of_string (PyStr.of_Z z) = Some (Z.to_int z).
Proof.
  unfold PyStr.of_Z. apply NilZero.isi.
  - destruct z; simpl; try discriminate.
    intros H. inversion H as [Hp]. now apply Unsigned.to_uint_nonnil in Hp.
  - destruct z; simpl; try discriminate.
    intros H. inversion H as [Hp]. now apply Unsigned.to_uint_nonnil in Hp.
Qed.

(** A decimal writing is a sign and digits, and starts with neither
    white space nor a bracket. *)
Lemma of_Z_shape (z : Z) :
  exists sign d,
    (sign = "" \/ sign = "-") /\ d <> Decimal.Nil
    /\ PyStr.of_Z z = sign ++ NilEmpty.string_of_uint d.
Proof.
  unfold PyStr.of_Z. destruct z as [| p | p]; simpl.
  - exists "", (Decimal.D0 Decimal.Nil). repeat split; auto. discriminate.
  - exists "", (Pos.to_uint p). split; [auto |].
    split; [apply Unsigned.to_uint_nonnil |].
    apply string_of_uint_nonnil, Unsigned.to_uint_nonnil.
  - exists "-", (Pos.to_uint p). split; [auto |].
    split; [apply Unsigned.to_uint_nonnil |].
    simpl. f_equal. apply string_of_uint_nonnil, Unsigned.to_uint_nonnil.
Qed.

Lemma uint_head_digit (d : Decimal.uint) :
  d <> Decimal.Nil ->
  exists c r, NilEmpty.string_of_uint d = String c r /\ is_digit c = true.
Proof.
  destruct d; intros H; [contradiction | ..]; simpl; eauto.
Qed.

Lemma split_sign_digit (c : ascii) (t : string) :
  is_digit c = true -> split_sign (String c t) = ("", String c t).
Proof.
  intros H. unfold split_sign.
  destruct c as [[] [] [] [] [] [] [] []]; try reflexivity; discriminate H.
Qed.

Lemma scan_int_of_Z (z : Z) (rest : string) :
  delimited rest ->
  scan_int (PyStr.of_Z z ++ rest) = Some (z, rest).
Proof.
  intros Hrest.
  destruct (of_Z_shape z) as [sign [d [Hsign [Hd Hz]]]].
  destruct (uint_head_digit Hd) as [c [r [Hhead Hdigit]]].
  assert (Hsplit : split_sign (PyStr.of_Z z ++ rest)
                   = (sign, NilEmpty.string_of_uint d ++ rest)).
  { rewrite Hz. destruct Hsign as [-> | ->].
    - simpl. rewrite Hhead. simpl. now apply split_sign_digit.
    - reflexivity. }
  unfold scan_int. rewrite Hsplit, (@span_digits_uint d rest Hrest), <- Hz.
  rewrite int_of_string_of_Z, DecimalZ.of_to, String.eqb_refl.
  reflexivity.
Qed.

(** *** Values *)

Lemma jval_members_ind (P : jval -> Prop) :
  P JNull -> (forall b, P (JBool b)) -> (forall z, P (JInt z)) ->
  (forall s, P (JStr s)) ->
  (forall items, Forall P items -> P (JList items)) ->
  (forall members, Forall (fun kv => P (snd kv)) members ->
                   P (JDict members)) ->
  forall v, P v.
Proof.
  intros Hnull Hbool Hint Hstr Hlist Hdict.
  fix IH 1. intros v.
  destruct v as [| b | z | s | items | members];
    [apply Hnull | apply Hbool | apply Hint | apply Hstr | |].
  - apply Hlist. induction items as [| x r IHr]; constructor;
      [apply IH | exact IHr].
  - apply Hdict. induction members as [| [k x] r IHr]; constructor;
      [apply IH | exact IHr].
Qed.

Lemma emit_list_cons (level : nat) (x : jval) (more : list jval)
      (rest : string) :
  emit level (JList (x :: more)) rest
  = String "[" (break (S level)
                  (emit (S level) x (list_tail level rest more))).
Proof.
  cbn [emit]. do 3 f_equal.
  induction more as [| y more IH]; cbn [list_tail]; [reflexivity |].
  now rewrite IH.
Qed.

Lemma emit_dict_cons (level : nat) (k : string) (x : jval)
      (more : list (string * jval)) (rest : string) :
  emit level (JDict ((k, x) :: more)) rest
  = String "{"
      (break (S level)
         (emit_text k
            (String ":" (String " "
               (emit (S level) x (dict_tail level rest more)))))).
Proof.
  cbn [emit]. do 6 f_equal.
  induction more as [| [k' y] more IH]; cbn [dict_tail]; [reflexivity |].
  now rewrite IH.
Qed.

Lemma weight_list (items : list jval) :
  weight (JList items) = S (weights items).
Proof. reflexivity. Qed.

Lemma weight_dict (members : list (string * jval)) :
  weight (JDict members) = S (member_weights members).
Proof. reflexivity. Qed.

Lemma wf_list (items : list jval) : wf (JList items) <-> all_wf items.
Proof. apply iff_refl. Qed.

Lemma wf_dict (members : list (string * jval)) :
  wf (JDict members)
  <-> NoDup (map fst members) /\ all_members_wf members.
Proof. apply iff_refl. Qed.

Lemma digit_is_plain (c : ascii) :
  is_digit c = true \/ c = "-"%char ->
  is_ws c = false /\ Ascii.eqb c "]" = false /\ Ascii.eqb c "}" = false.
Proof.
  destruct c as [[] [] [] [] [] [] [] []]; intros [H | H];
    try discriminate H; repeat split.
Qed.

Lemma of_Z_head (z : Z) (rest : string) :
  exists c t, PyStr.of_Z z ++ rest = String c t
              /\ (is_digit c = true \/ c = "-"%char).
Proof.
  destruct (of_Z_shape z) as [sign [d [Hsign [Hd Hz]]]].
  destruct (uint_head_digit Hd) as [c [r [Hhead Hdigit]]].
  rewrite Hz. destruct Hsign as [-> | ->]; simpl.
  - rewrite Hhead. simpl. eauto.
  - eauto.
Qed.

Lemma emit_opens (v : jval) (level : nat) (rest : string) :
  opens_value (emit level v rest).
Proof.
  unfold opens_value.
  destruct v as [| [] | z | s | [| x more] | [| [k x] more]];
    try (simpl; do 2 eexists; repeat split; reflexivity).
  destruct (of_Z_head z rest) as [c [t [Heq Hc]]].
  exists c, t. split; [exact Heq |]. now apply digit_is_plain.
Qed.

Lemma opens_skip_ws (s : string) : opens_value s -> skip_ws s = s.
Proof.
  intros [c [r [-> [Hws _]]]]. simpl. now rewrite Hws.
Qed.

Lemma opens_not_close_list (s : string) :
  opens_value s -> head_is "]" s = false.
Proof. intros [c [r [-> [_ [H _]]]]]. exact H. Qed.

Lemma opens_not_close_dict (s : string) :
  opens_value s -> head_is "}" s = false.
Proof. intros [c [r [-> [_ [_ H]]]]]. exact H. Qed.

Lemma scan_once_number (c : ascii) (t : string) (fuel : nat) :
  is_digit c = true \/ c = "-"%char ->
  scan_once (S fuel) (String c t)
  = match scan_int (String c t) with
    | Some (z, rest) => Some (JInt z, rest)
    | None => None
    end.
Proof.
  destruct c as [[] [] [] [] [] [] [] []]; intros [H | H];
    try discriminate H; reflexivity.
Qed.

Lemma scan_once_int (z : Z) (rest : string) (fuel : nat) :
  delimited rest ->
  scan_once (S fuel) (PyStr.of_Z z ++ rest) = Some (JInt z, rest).
Proof.
  intros Hrest. destruct (of_Z_head z rest) as [c [t [Heq Hc]]].
  rewrite Heq, (@scan_once_number c t fuel Hc), <- Heq.
  now rewrite (@scan_int_of_Z z rest Hrest).
Qed.

Lemma dict_of_pairs_acc (pairs acc : list (string * jval)) :
  NoDup (map fst (acc ++ pairs)) ->
  fold_left (fun d kv => Dict.set (fst kv) (snd kv) d) pairs acc
  = (acc ++ pairs)%list.
Proof.
  revert acc. induction pairs as [| [k x] pairs IH]; intros acc Hnd; simpl.
  - now rewrite app_nil_r.
  - assert (Hset : Dict.set k x acc = (acc ++ [(k, x)])%list).
    { assert (Hnotin : ~ In k (map fst acc)).
      { rewrite map_app in Hnd. simpl in Hnd.
        apply NoDup_remove_2 in Hnd. intros Hin. apply Hnd.
        apply in_or_app. now left. }
      clear - Hnotin. induction acc as [| [k' x'] acc IHa]; simpl;
        [reflexivity |].
      destruct (String.eqb k' k) eqn:E.
      - apply String.eqb_eq in E. subst. exfalso. apply Hnotin. now left.
      - f_equal. apply IHa. intros Hin. apply Hnotin. now right. }
    rewrite Hset, IH; rewrite <- app_assoc; [reflexivity | exact Hnd].
Qed.

Lemma dict_of_pairs_distinct (pairs : list (string * jval)) :
  NoDup (map fst pairs) -> dict_of_pairs pairs = pairs.
Proof. intros H. unfold dict_of_pairs. now rewrite dict_of_pairs_acc. Qed.

Lemma delimited_break (level : nat) (s : string) : delimited (break level s).
Proof. reflexivity. Qed.

Lemma delimited_comma (s : string) : delimited (String "," s).
Proof. reflexivity. Qed.

Lemma skip_ws_plain_after_space (s : string) :
  opens_value s -> skip_ws (String " " s) = s.
Proof. intros H. simpl. now apply opens_skip_ws. Qed.

Lemma skip_ws_plain (c : ascii) (s : string) :
  is_ws c = false -> skip_ws (String c s) = String c s.
Proof. intros H. simpl. now rewrite H. Qed.

Lemma head_is_cons (c c' : ascii) (s : string) :
  head_is c (String c' s) = Ascii.eqb c' c.
Proof. reflexivity. Qed.

Lemma drop_one (c : ascii) (s : string) : drop 1 (String c s) = s.
Proof. reflexivity. Qed.

(** The loop of [JSONArray] on a printed list, given that every element
    reads back. *)
Lemma scan_elements_emit (level : nat) (rest : string) (more : list jval) :
  Forall (fun v => forall level rest fuel,
              wf v -> delimited rest -> weight v <= fuel ->
              scan_once fuel (emit level v rest) = Some (v, rest)) more ->
  forall x fuel,
    (forall level rest fuel,
        wf x -> delimited rest -> weight x <= fuel ->
        scan_once fuel (emit level x rest) = Some (x, rest)) ->
    wf x -> all_wf more ->
    S (weight x) + weights more <= fuel ->
    scan_elements fuel (emit (S level) x (list_tail level rest more))
    = Some (x :: more, rest).
Proof.
  induction 1 as [| y more Hy Hmore IH]; intros x fuel Hx Hwx Hwm Hfuel;
    (destruct fuel as [| fuel]; [simpl in Hfuel; lia |]);
    cbn [scan_elements list_tail].
  - rewrite Hx; [| assumption | apply delimited_break
                   | simpl in Hfuel; lia].
    cbv zeta. rewrite skip_ws_break, (@skip_ws_plain "]" rest eq_refl).
    rewrite head_is_cons, drop_one. reflexivity.
  - destruct Hwm as [Hwy Hwm].
    rewrite Hx; [| assumption | apply delimited_comma
                   | simpl in Hfuel; lia].
    cbv zeta. rewrite (@skip_ws_plain "," _ eq_refl).
    rewrite !head_is_cons, drop_one.
    change (Ascii.eqb "," "]") with false.
    change (Ascii.eqb "," ",") with true. cbv iota.
    rewrite skip_ws_break, (opens_skip_ws (emit_opens _ _ _)).
    rewrite (IH y fuel Hy Hwy Hwm); [reflexivity |].
    simpl in Hfuel. simpl. lia.
Qed.

(** The loop of [JSONObject] on a printed dictionary. *)
Lemma scan_members_emit (level : nat) (rest : string)
      (more : list (string * jval)) :
  Forall (fun kv => forall level rest fuel,
              wf (snd kv) -> delimited rest -> weight (snd kv) <= fuel ->
              scan_once fuel (emit level (snd kv) rest)
              = Some (snd kv, rest)) more ->
  forall k x fuel,
    (forall level rest fuel,
        wf x -> delimited rest -> weight x <= fuel ->
        scan_once fuel (emit level x rest) = Some (x, rest)) ->
    wf x -> all_members_wf more ->
    S (weight x) + member_weights more <= fuel ->
    scan_members fuel
      (emit_text k
         (String ":" (String " "
            (emit (S level) x (dict_tail level rest more)))))
    = Some ((k, x) :: more, rest).
Proof.
  induction 1 as [| [k' y] more Hy Hmore IH];
    intros k x fuel Hx Hwx Hwm Hfuel;
    (destruct fuel as [| fuel]; [simpl in Hfuel; lia |]);
    cbn [scan_members dict_tail]; unfold emit_text;
    rewrite head_is_cons, Ascii.eqb_refl, drop_one, scanstring_escape;
    cbv zeta; rewrite (@skip_ws_plain ":" _ eq_refl);
    rewrite head_is_cons, Ascii.eqb_refl, drop_one;
    rewrite (@skip_ws_plain_after_space _ (emit_opens _ _ _)).
  - rewrite Hx; [| assumption | apply delimited_break
                   | simpl in Hfuel; lia].
    rewrite skip_ws_break, (@skip_ws_plain "}" rest eq_refl).
    rewrite head_is_cons, drop_one. reflexivity.
  - destruct Hwm as [Hwy Hwm]. cbn [snd] in Hy.
    rewrite Hx; [| assumption | apply delimited_comma
                   | simpl in Hfuel; lia].
    rewrite (@skip_ws_plain "," _ eq_refl).
    rewrite !head_is_cons, drop_one.
    change (Ascii.eqb "," "}") with false.
    change (Ascii.eqb "," ",") with true. cbv iota.
    rewrite skip_ws_break.
    rewrite (@skip_ws_plain dquote _ eq_refl).
    fold (emit_text k' (String ":" (String " "
            (emit (S level) y (dict_tail level rest more))))).
    rewrite (IH k' y fuel Hy Hwy Hwm); [reflexivity |].
    simpl in Hfuel. simpl. lia.
Qed.

Lemma emit_text_skip_ws (k t : string) :
  skip_ws (emit_text k t) = emit_text k t.
Proof. reflexivity. Qed.

Lemma emit_text_not_close (k t : string) :
  head_is "}" (emit_text k t) = false.
Proof. reflexivity. Qed.

(** Every well-formed value, printed at any depth and followed by any
    text a number can end at, reads back as itself, the text after it
    untouched. *)
Lemma scan_once_emit (v : jval) :
  forall level rest fuel,
    wf v -> delimited rest -> weight v <= fuel ->
    scan_once fuel (emit level v rest) = Some (v, rest).
Proof.
  induction v as [| b | z | s | items IH | members IH]
                   using jval_members_ind;
    intros level rest fuel Hwf Hrest Hfuel;
    (destruct fuel as [| fuel]; [simpl in Hfuel; lia |]).
  - destruct rest; reflexivity.
  - destruct b, rest; reflexivity.
  - now apply scan_once_int.
  - cbn [emit scan_once]. unfold emit_text.
    rewrite Ascii.eqb_refl, scanstring_escape. reflexivity.
  - destruct items as [| x more].
    + reflexivity.
    + rewrite emit_list_cons. cbn [scan_once].
      change (Ascii.eqb "[" dquote) with false.
      change (Ascii.eqb "[" "{") with false.
      change (Ascii.eqb "[" "[") with true. cbv iota zeta.
      rewrite skip_ws_break, (opens_skip_ws (emit_opens _ _ _)).
      rewrite (opens_not_close_list (emit_opens _ _ _)).
      inversion IH as [| ? ? Hx Hmore]; subst.
      apply wf_list in Hwf. destruct Hwf as [Hwx Hwm].
      rewrite weight_list in Hfuel.
      rewrite (@scan_elements_emit level rest more Hmore x fuel Hx Hwx Hwm);
        [reflexivity |].
      simpl in Hfuel. lia.
  - destruct members as [| [k x] more].
    + reflexivity.
    + rewrite emit_dict_cons. cbn [scan_once].
      change (Ascii.eqb "{" dquote) with false.
      change (Ascii.eqb "{" "{") with true. cbv iota zeta.
      rewrite skip_ws_break, emit_text_skip_ws, emit_text_not_close.
      inversion IH as [| ? ? Hx Hmore]; subst. cbn [snd] in Hx.
      apply wf_dict in Hwf. destruct Hwf as [Hnd [Hwx Hwm]].
      rewrite weight_dict in Hfuel.
      rewrite (@scan_members_emit level rest more Hmore k x fuel Hx Hwx Hwm);
        [| simpl in Hfuel; lia].
      now rewrite (@dict_of_pairs_distinct ((k, x) :: more) Hnd).
Qed.

(** *** Fuel *)

Lemma length_append (a b : string) :
  String.length (a ++ b) = String.length a + String.length b.
Proof. induction a as [| c a IH]; simpl; [reflexivity | now rewrite IH]. Qed.

Lemma length_spaces (n : nat) (s : string) :
  String.length (spaces n s) = n + String.length s.
Proof. induction n as [| n IH]; simpl; [reflexivity | now rewrite IH]. Qed.

Lemma length_break (level : nat) (s : string) :
  String.length (break level s) = S (2 * level + String.length s).
Proof. unfold break. cbn [String.length]. now rewrite length_spaces. Qed.

Lemma length_escape_char (c : ascii) (rest : string) :
  S (String.length rest) <= String.length (escape_char c rest).
Proof.
  unfold escape_char.
  repeat match goal with
         | |- context [if ?b then _ else _] => destruct b
         end; simpl; lia.
Qed.

Lemma length_escape (s rest : string) :
  String.length rest <= String.length (escape s rest).
Proof.
  induction s as [| c s IH]; simpl; [lia |].
  pose proof (length_escape_char c (escape s rest)). lia.
Qed.

Lemma length_emit_text (s rest : string) :
  2 + String.length rest <= String.length (emit_text s rest).
Proof.
  unfold emit_text. cbn [String.length].
  pose proof (length_escape s (String dquote rest)) as H.
  cbn [String.length] in H. lia.
Qed.

Lemma length_of_Z (z : Z) : 1 <= String.length (PyStr.of_Z z).
Proof.
  destruct (of_Z_head z "") as [c [t [Heq _]]].
  assert (H : String.length (PyStr.of_Z z ++ "") = String.length (String c t))
    by now rewrite Heq.
  rewrite length_append in H. simpl in H. lia.
Qed.

(** A value never takes fewer characters than the decoder takes calls. *)
Lemma emit_length (v : jval) :
  forall level rest,
    weight v + String.length rest <= String.length (emit level v rest).
Proof.
  induction v as [| b | z | s | items IH | members IH]
                   using jval_members_ind; intros level rest.
  - simpl. lia.
  - destruct b; simpl; lia.
  - cbn [emit weight]. rewrite length_append.
    pose proof (length_of_Z z). lia.
  - cbn [emit weight]. pose proof (length_emit_text s rest). lia.
  - destruct items as [| x more]; [simpl; lia |].
    rewrite emit_list_cons, weight_list.
    inversion IH as [| ? ? Hx Hmore]; subst.
    assert (Htail : weights more + String.length rest
                    <= String.length (list_tail level rest more)).
    { clear Hx IH. induction Hmore as [| y more Hy Hmore IHm];
        cbn [list_tail weights].
      - rewrite length_break. simpl. lia.
      - cbn [String.length]. rewrite length_break.
        specialize (Hy (S level) (list_tail level rest more)). lia. }
    cbn [String.length weights]. rewrite length_break.
    specialize (Hx (S level) (list_tail level rest more)). lia.
  - destruct members as [| [k x] more]; [simpl; lia |].
    rewrite emit_dict_cons, weight_dict.
    inversion IH as [| ? ? Hx Hmore]; subst. cbn [snd] in Hx.
    assert (Htail : member_weights more + String.length rest
                    <= String.length (dict_tail level rest more)).
    { clear Hx IH. induction Hmore as [| [k' y] more Hy Hmore IHm];
        cbn [dict_tail member_weights].
      - rewrite length_break. simpl. lia.
      - cbn [String.length]. rewrite length_break. cbn [snd] in Hy.
        match goal with
        | |- context [emit_text k' ?t] =>
            pose proof (length_emit_text k' t) as Hk
        end.
        cbn [String.length] in Hk.
        specialize (Hy (S level) (dict_tail level rest more)). lia. }
    cbn [String.length member_weights]. rewrite length_break.
    match goal with
    | |- context [emit_text k ?t] =>
        pose proof (length_emit_text k t) as Hk
    end.
    cbn [String.length] in Hk.
    specialize (Hx (S level) (dict_tail level rest more)). lia.
Qed.

(** [json.loads(json.dumps(v, indent=2))] is [v]. *)
Lemma loads_dumps (v : jval) : wf v -> loads (dumps v) = Some v.
Proof.
  intros Hwf. unfold loads, dumps.
  rewrite (opens_skip_ws (emit_opens v 0 "")).
  rewrite (@scan_once_emit v 0 "" _ Hwf I); [reflexivity |].
  pose proof (emit_length v 0 ""). simpl in H. lia.
Qed.

(** *** The snapshot round trip *)

Section SnapshotFacts.

Variable Rng : Type.
Variable db_extract : jval -> jval * option string.
Variable path_exists : string -> bool.
Variable parse_dump : string -> jval -> jval * option string.
Variable read_file : string -> result string.

Local Abbreviation ensure_initialized :=
  (Registry.ensure_initialized (Rng := Rng) db_extract path_exists parse_dump).
Local Abbreviation get_table_schema :=
  (Snapshot.get_table_schema (Rng := Rng) db_extract path_exists parse_dump).
Local Abbreviation to_json :=
  (Snapshot.to_json (Rng := Rng) db_extract path_exists parse_dump).
Local Abbreviation from_json := (Snapshot.from_json read_file).

Lemma ensure_initialized_success (w w1 : Registry.World jval Rng) :
  ensure_initialized w = (Ok tt, w1) ->
  Registry.initialized (Registry.self w1) = true.
Proof.
  destruct (ensure_initialized_cases db_extract path_exists parse_dump w)
    as [[Hflag Hrun] | [Hflag Hrun]]; rewrite Hrun; intros H.
  - inversion H; subst. exact Hflag.
  - exact (initialize_success_sets_flag _ _ _ _ H).
Qed.

Lemma get_table_schema_after (w w1 : Registry.World jval Rng)
      (schema table : string) :
  ensure_initialized w = (Ok tt, w1) ->
  get_table_schema schema table w
  = (lookup (Registry.table_schemas (Registry.self w1)) schema table, w1).
Proof.
  intros H. unfold Snapshot.get_table_schema, bind.
  fold ensure_initialized. now rewrite H.
Qed.

Lemma get_table_schema_ready (w : Registry.World jval Rng)
      (schema table : string) :
  Registry.initialized (Registry.self w) = true ->
  get_table_schema schema table w
  = (lookup (Registry.table_schemas (Registry.self w)) schema table, w).
Proof.
  intros H. apply get_table_schema_after.
  unfold Registry.ensure_initialized. now rewrite H.
Qed.

(** C6. Export then import: when [to_json] hands back the text of a
    registry whose cache is made of JSON values (dictionaries keyed by
    distinct text keys, lists, text, integers, booleans, [None]),
    [from_json] of that text succeeds, and the registry it builds answers
    [get_table_schema] as the original does, for every schema and table:
    the same table value, or the same error for a name the cache does not
    have.  The same holds through a file that holds the text. *)
Theorem to_json_from_json_round_trip
        (w w1 : Registry.World jval Rng) (text : string) :
  to_json None w = (Ok (Returned text), w1) ->
  wf (Registry.table_schemas (Registry.self w1)) ->
  exists imported,
    from_json (Text text) false = Ok imported
    /\ (forall path, read_file path = Ok text ->
                     from_json (Text path) true = Ok imported)
    /\ Registry.table_schemas imported
       = Registry.table_schemas (Registry.self w1)
    /\ forall schema table g passes,
        fst (get_table_schema schema table
               (Registry.mkWorld imported g passes))
        = fst (get_table_schema schema table w1)
        /\ fst (get_table_schema schema table w1)
           = fst (get_table_schema schema table w).
Proof.
  intros Hexport Hwf.
  unfold Snapshot.to_json, bind in Hexport. fold ensure_initialized in Hexport.
  destruct (ensure_initialized w) as [[[] | e] w0] eqn:Hinit;
    [| discriminate].
  inversion Hexport; subst w0 text. clear Hexport.
  pose proof (ensure_initialized_success _ Hinit) as Hflag.
  exists (Registry.mkRegistry "json" None
            (Registry.table_schemas (Registry.self w1)) true).
  assert (Hload : loads_or_raise
                    (dumps (Registry.table_schemas (Registry.self w1)))
                  = Ok (Registry.table_schemas (Registry.self w1))).
  { unfold loads_or_raise. now rewrite (loads_dumps _ Hwf). }
  split; [| split; [| split]].
  - unfold Snapshot.from_json. now rewrite Hload.
  - intros path Hread. unfold Snapshot.from_json.
    now rewrite Hread, Hload.
  - reflexivity.
  - intros schema table g passes.
    rewrite (get_table_schema_ready _ schema table Hflag).
    rewrite (@get_table_schema_after w w1 schema table Hinit).
    rewrite get_table_schema_ready by reflexivity.
    split; reflexivity.
Qed.

End SnapshotFacts.

(** *** Typed caches are JSON values *)

Lemma all_wf_texts (l : list string) : all_wf (map JStr l).
Proof. induction l as [| s l IH]; simpl; auto. Qed.

Lemma of_dict_wf {V : Type} (f : V -> jval) (d : dict V) :
  Dict.wf d -> Forall (fun kv => wf (f (snd kv))) d -> wf (of_dict f d).
Proof.
  intros Hkeys Hvalues. unfold of_dict. apply wf_dict. split.
  - rewrite map_map. exact Hkeys.
  - induction Hvalues as [| [k v] d Hv Hd IH]; simpl; [exact I |].
    split; [exact Hv |]. apply IH.
    unfold Dict.wf, Dict.keys in Hkeys. simpl in Hkeys.
    now inversion Hkeys.
Qed.

Ltac distinct_keys :=
  repeat (constructor; [simpl; intuition discriminate |]); constructor.

Lemma of_column_wf (c : Registry.ColumnInfo) : wf (of_column c).
Proof.
  unfold of_column. apply wf_dict. split; [distinct_keys |].
  simpl. destruct (Registry.default c), (Registry.max_length c);
    simpl; tauto.
Qed.

Lemma of_foreign_key_wf (f : Registry.ForeignKey) : wf (of_foreign_key f).
Proof.
  unfold of_foreign_key. apply wf_dict. split; [distinct_keys |].
  simpl. tauto.
Qed.

Lemma of_index_wf (i : Registry.IndexInfo) : wf (of_index i).
Proof.
  unfold of_index. apply wf_dict. split; [distinct_keys |].
  cbn [all_members_wf]. split; [| simpl; tauto].
  apply wf_list, all_wf_texts.
Qed.

Lemma Forall_all {A : Type} (P : A -> Prop) (l : list A) :
  (forall x, P x) -> Forall P l.
Proof. intros H. induction l; constructor; auto. Qed.

Lemma of_table_wf (t : Registry.TableSchema) :
  table_wf t -> wf (of_table t).
Proof.
  intros [Hc [Hf Hi]]. unfold of_table. apply wf_dict.
  split; [distinct_keys |]. cbn [all_members_wf].
  split; [| split; [| split; [| split; [| exact I]]]].
  - apply of_dict_wf; [exact Hc |].
    apply Forall_all. intros kv. apply of_column_wf.
  - apply wf_list, all_wf_texts.
  - apply of_dict_wf; [exact Hf |].
    apply Forall_all. intros kv. apply of_foreign_key_wf.
  - apply of_dict_wf; [exact Hi |].
    apply Forall_all. intros kv. apply of_index_wf.
Qed.

(** Whatever the two extractors cache is a JSON value. *)
Lemma of_cache_wf (c : Registry.Cache) : cache_wf c -> wf (of_cache c).
Proof.
  intros [Hschemas Htables]. unfold of_cache.
  apply of_dict_wf; [exact Hschemas |].
  eapply Forall_impl; [| exact Htables].
  intros [s tables] [Hkeys Htabs]. cbn [snd] in *.
  apply of_dict_wf; [exact Hkeys |].
  eapply Forall_impl; [| exact Htabs].
  intros [t ts] Hts. now apply of_table_wf.
Qed.

Lemma demo_cache_wf : cache_wf Demo.cache.
Proof.
  unfold cache_wf, table_wf, Dict.wf. simpl.
  repeat (split || constructor || (simpl; intuition discriminate)).
Qed.

(** The typed demonstration cache, exported and imported again. *)
Lemma to_json_from_json_round_trip_witness :
  exists imported,
    Snapshot.from_json Demo.read_file
      (Text (dumps (of_cache Demo.cache))) false = Ok imported
    /\ fst (Snapshot.get_table_schema Demo.no_catalog Demo.path_exists
              Demo.no_dump "public" "orders"
              (Registry.mkWorld imported 0 0))
       = Ok (of_table Demo.orders).
Proof.
  destruct (@to_json_from_json_round_trip nat Demo.no_catalog
              Demo.path_exists Demo.no_dump Demo.read_file
              Demo.snapshot_world Demo.snapshot_world
              (dumps (of_cache Demo.cache)) eq_refl
              (of_cache_wf demo_cache_wf))
    as [imported [Himport [_ [_ Hsame]]]].
  exists imported. split; [exact Himport |].
  rewrite (proj1 (Hsame "public" "orders" 0 0)). reflexivity.
Defined.

(* ================================================================== *)
(** * Part III.  Further properties of the same code                    *)
(* ================================================================== *)

(** ** Column resolver *)

Lemma find_is_head_of_filter {A : Type} (f : A -> bool) (l : list A) :
  find f l = hd_error (filter f l).
Proof.
  induction l as [| a l IH]; simpl; [reflexivity |].
  destruct (f a); [reflexivity | exact IH].
Qed.

Lemma hd_error_firstn {A : Type} (n : nat) (l : list A) :
  hd_error (firstn (S n) l) = hd_error l.
Proof. destruct l; reflexivity. Qed.

Lemma firstn_incl {A : Type} (n : nat) (l : list A) : incl (firstn n l) l.
Proof.
  revert l. induction n as [| n IH]; intros l z Hz.
  - destruct Hz.
  - destruct l as [| a l]; [destruct Hz |].
    destruct Hz as [-> | Hz]; [now left | right; now apply IH].
Qed.

Section ResolverMore.

Variable singular_noun : string -> option string.
Variable plural : string -> string.

Local Abbreviation match_column :=
  (Resolver.match_column singular_noun plural).
Local Abbreviation find_closest_matches :=
  (Resolver.find_closest_matches singular_noun plural).

Lemma match_column_in (name : string) (available : list string)
      (strict : bool) (c : string) :
  match_column name available strict = Ok c -> In c available.
Proof.
  unfold Resolver.match_column.
  destruct (PyStr.mem name available) eqn:E.
  - intros H. inversion H; subst. now apply mem_true_iff.
  - destruct strict; [discriminate |].
    destruct (find (Resolver.case_hit name) available) as [c1 |] eqn:F1.
    { intros H. inversion H; subst. exact (proj1 (find_some _ _ F1)). }
    destruct (find (Resolver.plural_hit singular_noun plural name) available)
      as [c2 |] eqn:F2.
    { intros H. inversion H; subst. exact (proj1 (find_some _ _ F2)). }
    destruct (find (Resolver.convention_hit name) available)
      as [c3 |] eqn:F3.
    { intros H. inversion H; subst. exact (proj1 (find_some _ _ F3)). }
    discriminate.
Qed.

(** X1. [match_column] only ever answers with one of the available columns,
    with the requested name itself in strict mode, and the answer
    resolves to itself. *)
Theorem match_column_returns_available_column
        (name : string) (available : list string) (strict : bool)
        (c : string) :
  match_column name available strict = Ok c ->
  In c available
  /\ (strict = true -> c = name)
  /\ match_column c available strict = Ok c.
Proof.
  intros H. pose proof (match_column_in _ _ _ H) as Hin.
  split; [exact Hin | split].
  - intros ->. revert H. unfold Resolver.match_column.
    destruct (PyStr.mem name available); [| discriminate].
    intros H. now inversion H.
  - unfold Resolver.match_column.
    apply mem_true_iff in Hin. now rewrite Hin.
Qed.

(** X2. [match_column] and [find_closest_matches] walk the same tiers: the
    column [match_column] returns is the first suggestion, and when
    [match_column] raises there is no suggestion, so the message of its
    error ends with the list of available columns. *)
Theorem match_column_error_has_no_suggestion
        (name : string) (available : list string) (limit : nat) :
  match match_column name available false with
  | Ok c => hd_error (find_closest_matches name available (S limit)) = Some c
  | Raise e =>
      find_closest_matches name available limit = []
      /\ exn_str e
         = ("Column '" ++ name ++ "' not found")
             ++ ". Available columns: " ++ PyStr.join ", " available
  end.
Proof.
  unfold Resolver.match_column, Resolver.find_closest_matches.
  destruct (PyStr.mem name available) eqn:E; [reflexivity |].
  rewrite !find_is_head_of_filter.
  destruct (filter (Resolver.case_hit name) available) as [| c1 l1] eqn:F1;
    [| reflexivity].
  destruct (filter (Resolver.plural_hit singular_noun plural name) available)
    as [| c2 l2] eqn:F2; [| reflexivity].
  destruct (filter (Resolver.convention_hit name) available)
    as [| c3 l3] eqn:F3; [| reflexivity].
  cbn [hd_error]. split; [now destruct limit |].
  unfold Resolver.mkColumnMatchError, Resolver.find_closest_matches.
  cbn [exn_str Resolver.truthy andb].
  rewrite E, F1, F2, F3. reflexivity.
Qed.

(** X3. Every suggestion of [find_closest_matches] is an available column,
    and there are at most [limit] of them, or the one exact match. *)
Theorem find_closest_matches_bounds
        (name : string) (available : list string) (limit : nat) :
  incl (find_closest_matches name available limit) available
  /\ List.length (find_closest_matches name available limit)
     <= Nat.max 1 limit.
Proof.
  assert (Hsub : forall f : string -> bool,
             incl (firstn limit (filter f available)) available).
  { intros f x Hx. apply firstn_incl in Hx.
    apply filter_In in Hx. tauto. }
  assert (Hlen : forall l : list string,
             List.length (firstn limit l) <= Nat.max 1 limit).
  { intros l. rewrite length_firstn. lia. }
  unfold Resolver.find_closest_matches.
  destruct (PyStr.mem name available) eqn:E.
  - split; [| apply Nat.le_max_l].
    intros x [<- | []]. now apply mem_true_iff.
  - destruct (filter (Resolver.case_hit name) available) as [| c1 l1] eqn:F1.
    + destruct (filter (Resolver.plural_hit singular_noun plural name)
                       available) as [| c2 l2] eqn:F2.
      * split; [apply Hsub | apply Hlen].
      * rewrite <- F2. split; [apply Hsub | apply Hlen].
    + rewrite <- F1. split; [apply Hsub | apply Hlen].
Qed.

End ResolverMore.

(** On the catalog of the recording connection, [ID] resolves to [id]. *)
Lemma match_column_returns_available_column_witness :
  Resolver.match_column Demo.singular_noun Demo.plural "ID"
                        Demo.table_columns false = Ok "id"
  /\ In "id" Demo.table_columns
  /\ (false = true -> "id" = "ID")
  /\ Resolver.match_column Demo.singular_noun Demo.plural "id"
                           Demo.table_columns false = Ok "id".
Proof.
  split; [reflexivity |].
  apply (@match_column_returns_available_column
           Demo.singular_noun Demo.plural "ID" Demo.table_columns false "id").
  reflexivity.
Defined.

(** ** CRUD operator *)

Section OperatorMore.

Variable singular_noun : string -> option string.
Variable plural : string -> string.
Variable fromisoformat : string -> option string.
Variable Conn : Type.
Variable execute :
  forall m : Operator.fetch_mode,
    string -> option (list pyval) -> option string -> Conn ->
    result (Operator.reply m) * Conn.

Local Abbreviation match_column :=
  (Resolver.match_column singular_noun plural).
Local Abbreviation _format_record :=
  (Operator._format_record singular_noun plural fromisoformat).
Local Abbreviation _get_table_columns :=
  (Operator._get_table_columns execute).
Local Abbreviation connector_execute :=
  (Operator.connector_execute execute).
Local Abbreviation convert_value := (Operator.convert_value fromisoformat).
Local Abbreviation fetch :=
  (Operator.fetch singular_noun plural fromisoformat execute).
Local Abbreviation get_by_column :=
  (Operator.get_by_column singular_noun plural fromisoformat execute).

(** A successful column lookup leaves the columns in the cache. *)
Lemma get_table_columns_fills_cache
      (table schema : string) (op op' : Operator.DBOperator Conn)
      (cols : list string) :
  _get_table_columns table schema op = (Ok cols, op') ->
  Dict.get (schema ++ "." ++ table) (Operator.table_columns_cache op')
  = Some cols.
Proof.
  unfold Operator._get_table_columns.
  destruct (Dict.get (schema ++ "." ++ table)
                     (Operator.table_columns_cache op)) as [cached |] eqn:E.
  - intros H. inversion H; subst. exact E.
  - unfold bind, Operator.connector_execute.
    destruct (execute Operator.FetchAll Operator.columns_query
                (Some [VStr schema; VStr table]) None
                (Operator.connector op)) as [[rows | e] c];
      [| discriminate].
    destruct rows as [| r rows]; [discriminate |].
    unfold lift.
    destruct (Operator.column_names (r :: rows)) as [names | e];
      [| discriminate].
    intros H. inversion H; subst. cbn [Operator.table_columns_cache].
    rewrite get_set, String.eqb_refl. reflexivity.
Qed.

Lemma get_table_columns_of_cache
      (table schema : string) (op : Operator.DBOperator Conn)
      (cols : list string) :
  Dict.get (schema ++ "." ++ table) (Operator.table_columns_cache op)
  = Some cols ->
  _get_table_columns table schema op = (Ok cols, op).
Proof.
  intros H. unfold Operator._get_table_columns. now rewrite H.
Qed.

(** X4. Once [_get_table_columns] has answered for a table, asking again
    gives the same columns out of the cache: the operator, and with it
    the connection, is left as it was. *)
Theorem get_table_columns_is_cached
        (table schema : string) (op op' : Operator.DBOperator Conn)
        (cols : list string) :
  _get_table_columns table schema op = (Ok cols, op') ->
  _get_table_columns table schema op' = (Ok cols, op').
Proof.
  intros H. apply get_table_columns_of_cache.
  exact (get_table_columns_fills_cache _ _ _ H).
Qed.

(** A record with one key that is a column of the table. *)
Lemma format_record_single (c : string) (v : pyval) (cols : list string) :
  In c cols ->
  _format_record [(c, v)] None (Some cols)
  = Ok ([(c, convert_value c v)], [c]).
Proof.
  intros Hin. unfold Operator._format_record.
  destruct cols as [| c0 cs]; [destruct Hin |].
  cbn [Operator.format_loop List.length].
  unfold Operator.match_column, Resolver.match_column.
  apply mem_true_iff in Hin. rewrite Hin. reflexivity.
Qed.

Lemma convert_value_null (c : string) (v : pyval) :
  Operator.is_null (convert_value c v) = Operator.is_null v.
Proof.
  destruct v; try reflexivity. unfold Operator.convert_value.
  destruct (_ || _); [| reflexivity].
  destruct (fromisoformat _); reflexivity.
Qed.

(** X5. [get_by_column] resolves the column name against the catalog and
    sends one [SELECT] for it: the value is bound to [$1] and the limit of
    one row to [$2]; a [None] value is written [IS NULL] and only the
    limit is bound.  The answer is the first row, or [None]. *)
Theorem get_by_column_statement
        (table column_name : string) (column_value : pyval)
        (schema : string) (op op' : Operator.DBOperator Conn)
        (cols : list string) (c : string) :
  _get_table_columns table schema op = (Ok cols, op') ->
  match_column column_name cols false = Ok c ->
  forall answer op'',
    connector_execute Operator.FetchAll
      (PyStr.join " "
         ["SELECT * FROM " ++ schema ++ "." ++ table;
          "WHERE " ++ (if Operator.is_null column_value
                       then c ++ " IS NULL" else c ++ " = $1");
          if Operator.is_null column_value then "LIMIT $1" else "LIMIT $2"])
      (Some (if Operator.is_null column_value then [VInt 1]
             else [convert_value c column_value; VInt 1]))
      None op' = (answer, op'') ->
    get_by_column table column_name column_value schema op
    = (match answer with
       | Ok (r :: _) => Ok (Some r)
       | Ok [] => Ok None
       | Raise e => Raise e
       end, op'').
Proof.
  intros Hcols Hc answer op'' Hexec.
  pose proof (match_column_in _ _ _ _ _ Hc) as Hin.
  unfold Operator.get_by_column, bind at 1. fold _get_table_columns.
  rewrite Hcols. unfold bind at 1, lift. unfold Operator.match_column.
  rewrite Hc.
  unfold Operator.fetch_one, bind at 1, Operator.fetch, bind at 1.
  fold _get_table_columns.
  rewrite (get_table_columns_of_cache _ _ _
             (get_table_columns_fills_cache _ _ _ Hcols)).
  unfold bind at 1, bind at 1, lift. fold _format_record.
  rewrite (@format_record_single c column_value cols Hin). cbn [fst].
  pose proof (convert_value_null c column_value) as Hnull.
  destruct (Operator.is_null column_value) eqn:En.
  - destruct (convert_value c column_value) eqn:Ev; try discriminate.
    cbn [Operator.fetch_where_loop append app]. unfold ret at 1.
    unfold bind at 1, ret at 1.
    cbn [Operator.strip_leading_dash append app List.length Nat.add].
    match goal with
    | |- context [Operator.connector_execute ?x ?m ?q ?p ?s ?o] =>
        replace (Operator.connector_execute x m q p s o)
          with (answer, op'') by (symmetry; exact Hexec)
    end.
    destruct answer as [[| r rows] | e]; reflexivity.
  - assert (Hloop :
      Operator.fetch_where_loop 0 [(c, convert_value c column_value)] [] []
      = ([c ++ " = $1"], [convert_value c column_value])).
    { destruct (convert_value c column_value); try discriminate;
        reflexivity. }
    rewrite Hloop. unfold ret at 1.
    unfold bind at 1, ret at 1.
    cbn [Operator.strip_leading_dash append app List.length Nat.add].
    match goal with
    | |- context [Operator.connector_execute ?x ?m ?q ?p ?s ?o] =>
        replace (Operator.connector_execute x m q p s o)
          with (answer, op'') by (symmetry; exact Hexec)
    end.
    destruct answer as [[| r rows] | e]; reflexivity.
Qed.

End OperatorMore.

(** On the recording connection: the second lookup of [public.t] adds
    no statement to the log. *)
Lemma get_table_columns_is_cached_witness :
  Operator._get_table_columns Demo.execute "t" "public" Demo.operator
  = (Ok Demo.table_columns, Demo.warm_operator)
  /\ Operator._get_table_columns Demo.execute "t" "public" Demo.warm_operator
     = (Ok Demo.table_columns, Demo.warm_operator).
Proof.
  split; [reflexivity |].
  apply (@get_table_columns_is_cached Demo.Conn Demo.execute "t" "public"
           Demo.operator).
  reflexivity.
Defined.

(** On the recording connection: a lookup by [ID] is sent under the
    column [id]. *)
Lemma get_by_column_statement_witness :
  Operator.connector
    (snd (Operator.get_by_column Demo.singular_noun Demo.plural
            Demo.fromisoformat Demo.execute "t" "ID" (VInt 7) "public"
            Demo.operator))
  = [(Operator.columns_query, Some [VStr "public"; VStr "t"]);
     ("SELECT * FROM public.t WHERE id = $1 LIMIT $2",
      Some [VInt 7; VInt 1])].
Proof.
  rewrite (@get_by_column_statement Demo.singular_noun Demo.plural
             Demo.fromisoformat Demo.Conn Demo.execute "t" "ID" (VInt 7)
             "public" Demo.operator Demo.warm_operator Demo.table_columns
             "id" eq_refl eq_refl _ _ eq_refl).
  reflexivity.
Defined.


(** ** Placeholder numbering *)

Lemma nth_error_app_at {A : Type} (l l' : list A) (x : A) :
  nth_error (l ++ x :: l')%list (List.length l) = Some x.
Proof.
  rewrite nth_error_app2 by lia. now rewrite Nat.sub_diag.
Qed.

(** Each [WHERE] loop only adds to the lists it was given. *)
Lemma fetch_where_loop_extends (items : row) (i : nat)
      (w : list string) (p : list pyval) :
  exists w' p',
    Operator.fetch_where_loop i items w p = ((w ++ w')%list, (p ++ p')%list).
Proof.
  revert i w p. induction items as [| [col v] items IH]; intros i w p.
  - exists [], []. simpl. now rewrite !app_nil_r.
  - cbn [Operator.fetch_where_loop]. unfold append.
    destruct v;
      match goal with
      | |- context [Operator.fetch_where_loop ?i' items ?w1 ?p1] =>
          destruct (IH i' w1 p1) as [w' [p' E]]; rewrite E
      end;
      rewrite <- ?app_assoc; eauto.
Qed.

Lemma delete_where_loop_extends (items : row) (i : nat)
      (w : list string) (p : list pyval) :
  exists w' p',
    Operator.delete_where_loop i items w p
    = ((w ++ w')%list, (p ++ p')%list).
Proof.
  revert i w p. induction items as [| [col v] items IH]; intros i w p.
  - exists [], []. simpl. now rewrite !app_nil_r.
  - cbn [Operator.delete_where_loop]. unfold append.
    destruct v;
      match goal with
      | |- context [Operator.delete_where_loop ?i' items ?w1 ?p1] =>
          destruct (IH i' w1 p1) as [w' [p' E]]; rewrite E
      end;
      rewrite <- ?app_assoc; eauto.
Qed.

Local Abbreviation bound_before j items :=
  (List.length (filter (fun kv : string * pyval =>
                          negb (Operator.is_null (snd kv)))
                       (firstn j items))).

Lemma fetch_where_loop_numbering (items : row) :
  forall (i : nat) (w : list string) (p : list pyval)
         (j : nat) (col : string) (v : pyval),
    nth_error items j = Some (col, v) ->
    Operator.is_null v = false ->
    nth_error (fst (Operator.fetch_where_loop i items w p))
              (List.length w + j)
    = Some (col ++ " = $"
                ++ PyStr.of_nat (List.length p + bound_before j items + 1))
    /\ nth_error (snd (Operator.fetch_where_loop i items w p))
                 (List.length p + bound_before j items)
       = Some v.
Proof.
  induction items as [| [col0 v0] items IH]; intros i w p j col v Hj Hv.
  - destruct j; discriminate.
  - destruct j as [| j].
    + simpl in Hj. inversion Hj; subst col0 v0. clear Hj.
      cbn [firstn filter List.length]. rewrite !Nat.add_0_r.
      cbn [Operator.fetch_where_loop]. unfold append.
      destruct v; try discriminate;
        match goal with
        | |- context [Operator.fetch_where_loop ?i' items ?w1 ?p1] =>
            destruct (fetch_where_loop_extends items i' w1 p1)
              as [w' [p' E]]; rewrite E
        end;
        cbn [fst snd]; rewrite <- !app_assoc; cbn [app];
        split; apply nth_error_app_at.
    + simpl in Hj. cbn [Operator.fetch_where_loop]. unfold append.
      cbn [firstn filter snd].
      destruct v0; cbn [Operator.is_null negb List.length];
        match goal with
        | |- context [Operator.fetch_where_loop ?i' items ?w1 ?p1] =>
            destruct (IH i' w1 p1 j col v Hj Hv) as [H1 H2]
        end;
        rewrite ?length_app in H1; rewrite ?length_app in H2;
        cbn [List.length] in H1, H2;
        match type of H1 with
        | nth_error _ ?a' = Some (_ ++ _ ++ PyStr.of_nat ?b') =>
            match goal with
            | |- nth_error _ ?a = Some (_ ++ _ ++ PyStr.of_nat ?b) /\ _ =>
                replace a with a' by lia; replace b with b' by lia
            end
        end;
        match type of H2 with
        | nth_error _ ?c' = _ =>
            match goal with
            | |- _ /\ nth_error _ ?c = _ => replace c with c' by lia
            end
        end;
        split; assumption.
Qed.

Lemma delete_where_loop_numbering (items : row) :
  forall (i : nat) (w : list string) (p : list pyval)
         (j : nat) (col : string) (v : pyval),
    nth_error items j = Some (col, v) ->
    Operator.is_null v = false ->
    nth_error (fst (Operator.delete_where_loop i items w p))
              (List.length w + j)
    = Some (col ++ " = $" ++ PyStr.of_nat (i + j + 1))
    /\ nth_error (snd (Operator.delete_where_loop i items w p))
                 (List.length p + bound_before j items)
       = Some v.
Proof.
  induction items as [| [col0 v0] items IH]; intros i w p j col v Hj Hv.
  - destruct j; discriminate.
  - destruct j as [| j].
    + simpl in Hj. inversion Hj; subst col0 v0. clear Hj.
      cbn [firstn filter List.length]. rewrite !Nat.add_0_r.
      cbn [Operator.delete_where_loop]. unfold append.
      destruct v; try discriminate;
        match goal with
        | |- context [Operator.delete_where_loop ?i' items ?w1 ?p1] =>
            destruct (delete_where_loop_extends items i' w1 p1)
              as [w' [p' E]]; rewrite E
        end;
        cbn [fst snd]; rewrite <- !app_assoc; cbn [app];
        split; apply nth_error_app_at.
    + simpl in Hj. cbn [Operator.delete_where_loop]. unfold append.
      cbn [firstn filter snd].
      destruct v0; cbn [Operator.is_null negb List.length];
        match goal with
        | |- context [Operator.delete_where_loop ?i' items ?w1 ?p1] =>
            destruct (IH i' w1 p1 j col v Hj Hv) as [H1 H2]
        end;
        rewrite ?length_app in H1; rewrite ?length_app in H2;
        cbn [List.length] in H1, H2;
        match type of H1 with
        | nth_error _ ?a' = Some (_ ++ _ ++ PyStr.of_nat ?b') =>
            match goal with
            | |- nth_error _ ?a = Some (_ ++ _ ++ PyStr.of_nat ?b) /\ _ =>
                replace a with a' by lia; replace b with b' by lia
            end
        end;
        match type of H2 with
        | nth_error _ ?c' = _ =>
            match goal with
            | |- _ /\ nth_error _ ?c = _ => replace c with c' by lia
            end
        end;
        split; assumption.
Qed.

(** X6. In the statement [fetch] builds, the placeholder of a condition that
    is not [None] carries the position its value has in the parameter
    tuple: the condition at index [j], with [k] bound conditions before
    it, reads [col = $k+1] and its value is parameter [k] (from 0). *)
Theorem fetch_where_placeholders_match_parameters
        (items : row) (j : nat) (col : string) (v : pyval) :
  nth_error items j = Some (col, v) ->
  Operator.is_null v = false ->
  nth_error (fst (Operator.fetch_where_loop 0 items [] [])) j
  = Some (col ++ " = $" ++ PyStr.of_nat (bound_before j items + 1))
  /\ nth_error (snd (Operator.fetch_where_loop 0 items [] []))
               (bound_before j items)
     = Some v.
Proof.
  intros Hj Hv.
  exact (fetch_where_loop_numbering items 0 [] [] j Hj Hv).
Qed.

(** X7. In the statement [delete] builds, the condition at index [j] that is
    not [None] reads [col = $j+1], numbered by its place among all the
    conditions, while its value is parameter [k] (from 0), [k] being the
    number of conditions before it that are not [None]: the number and
    the place agree only when no [None] condition comes earlier. *)
Theorem delete_where_placeholders_count_every_condition
        (items : row) (j : nat) (col : string) (v : pyval) :
  nth_error items j = Some (col, v) ->
  Operator.is_null v = false ->
  nth_error (fst (Operator.delete_where_loop 0 items [] [])) j
  = Some (col ++ " = $" ++ PyStr.of_nat (j + 1))
  /\ nth_error (snd (Operator.delete_where_loop 0 items [] []))
               (bound_before j items)
     = Some v.
Proof.
  intros Hj Hv.
  exact (delete_where_loop_numbering items 0 [] [] j Hj Hv).
Qed.

Lemma fetch_where_placeholders_match_parameters_witness :
  nth_error (fst (Operator.fetch_where_loop 0
                    [("b", VNone); ("c", VInt 3)] [] [])) 1
  = Some "c = $1"
  /\ nth_error (snd (Operator.fetch_where_loop 0
                       [("b", VNone); ("c", VInt 3)] [] [])) 0
     = Some (VInt 3).
Proof.
  apply (@fetch_where_placeholders_match_parameters
           [("b", VNone); ("c", VInt 3)] 1 "c" (VInt 3));
    reflexivity.
Defined.

Lemma delete_where_placeholders_count_every_condition_witness :
  nth_error (fst (Operator.delete_where_loop 0
                    [("b", VNone); ("c", VInt 3)] [] [])) 1
  = Some "c = $2"
  /\ nth_error (snd (Operator.delete_where_loop 0
                       [("b", VNone); ("c", VInt 3)] [] [])) 0
     = Some (VInt 3).
Proof.
  apply (@delete_where_placeholders_count_every_condition
           [("b", VNone); ("c", VInt 3)] 1 "c" (VInt 3));
    reflexivity.
Defined.

(** ** [update] with one condition *)

Lemma update_set_loop_spec (items : row) :
  forall (i : nat) (set_parts : list string) (params : list pyval),
    Operator.update_set_loop i items set_parts params
    = (app set_parts
           (map (fun ic : nat * string =>
                   snd ic ++ " = $" ++ PyStr.of_nat (fst ic + 1))
                (combine (seq i (List.length items)) (Dict.keys items))),
       app params (Dict.values items)).
Proof.
  induction items as [| [col v] items IH]; intros i set_parts params.
  - simpl. now rewrite !app_nil_r.
  - cbn [Operator.update_set_loop]. rewrite IH. unfold append.
    rewrite <- !app_assoc. reflexivity.
Qed.

(** X8. With a single condition that is not [None], [update] numbers its
    statement consistently: the [SET] columns take [$1] to [$n] in the
    order of the record, the condition takes [$n+1], and the parameter
    tuple is the values of the record followed by the condition's
    value. *)
Theorem update_single_condition_statement
        (table schema : string) (formatted_data : row)
        (c : string) (v : pyval) :
  Operator.is_null v = false ->
  Operator.update_statement table schema formatted_data [(c, v)]
  = ("UPDATE " ++ schema ++ "." ++ table
       ++ " SET "
       ++ PyStr.join ", "
            (map (fun ic : nat * string =>
                    snd ic ++ " = $" ++ PyStr.of_nat (fst ic + 1))
                 (combine (seq 0 (List.length formatted_data))
                          (Dict.keys formatted_data)))
       ++ " WHERE " ++ c ++ " = $"
       ++ PyStr.of_nat (List.length formatted_data + 1),
     app (Dict.values formatted_data) [v]).
Proof.
  intros Hv. unfold Operator.update_statement.
  rewrite update_set_loop_spec. cbn [app].
  assert (Hlen : List.length (Dict.values formatted_data) + 0 + 1
                 = List.length formatted_data + 1).
  { unfold Dict.values. rewrite length_map. lia. }
  destruct v; try discriminate;
    cbn [Operator.update_where_loop append app PyStr.join String.concat];
    rewrite Hlen; reflexivity.
Qed.

Lemma update_single_condition_statement_witness :
  Operator.update_statement "t" "public" [("a", VInt 1); ("b", VInt 2)]
                            [("id", VInt 7)]
  = ("UPDATE public.t SET a = $1, b = $2 WHERE id = $3",
     [VInt 1; VInt 2; VInt 7]).
Proof.
  apply (@update_single_condition_statement "t" "public"
           [("a", VInt 1); ("b", VInt 2)] "id" (VInt 7)).
  reflexivity.
Defined.

(** ** The count [delete] returns *)

Lemma split_ws_from_digits (d : Decimal.uint) :
  PyStr.split_ws_from (NilEmpty.string_of_uint d)
  = (NilEmpty.string_of_uint d, []).
Proof. induction d; simpl; try rewrite IHd; reflexivity. Qed.

Lemma int_digits_uint (d : Decimal.uint) :
  forall (after_digit : bool) (acc : nat),
    d <> Decimal.Nil \/ after_digit = true ->
    PyStr.int_digits after_digit acc (NilEmpty.string_of_uint d)
    = Some (Nat.of_uint_acc d acc).
Proof.
  induction d; intros after_digit acc H.
  1: destruct H as [H | ->]; [contradiction | reflexivity].
  all: cbn [NilEmpty.string_of_uint PyStr.int_digits].
  all: match goal with
       | |- context [PyStr.is_decimal ?c] =>
           change (PyStr.is_decimal c) with true
       end.
  all: cbv iota.
  all: rewrite IHd by (now right).
  all: cbn [Nat.of_uint_acc]; rewrite Nat.tail_mul_spec.
  all: f_equal; f_equal.
  all: match goal with
       | |- context [nat_of_ascii ?c - 48] =>
           let n := eval vm_compute in (nat_of_ascii c - 48) in
           change (nat_of_ascii c - 48) with n
       end.
  all: lia.
Qed.

Lemma revapp_nonnil (d acc : Decimal.uint) :
  acc <> Decimal.Nil -> Decimal.revapp d acc <> Decimal.Nil.
Proof.
  revert acc. induction d; intros acc H; simpl; try assumption;
    apply IHd; discriminate.
Qed.

Lemma to_little_uint_nonnil (n : nat) (acc : Decimal.uint) :
  acc <> Decimal.Nil -> Nat.to_little_uint n acc <> Decimal.Nil.
Proof.
  revert acc. induction n as [| n IH]; intros acc H; simpl; [assumption |].
  apply IH. destruct acc; simpl; discriminate.
Qed.

Lemma nat_to_uint_nonnil (n : nat) : Nat.to_uint n <> Decimal.Nil.
Proof.
  unfold Nat.to_uint, Decimal.rev.
  pose proof (@to_little_uint_nonnil n Decimal.zero) as H.
  destruct (Nat.to_little_uint n Decimal.zero);
    [exfalso; apply H; [discriminate | reflexivity] | ..];
    simpl; apply revapp_nonnil; discriminate.
Qed.

Lemma int_of_of_nat (n : nat) : PyStr.int_of (PyStr.of_nat n) = Some (Z.of_nat n).
Proof.
  unfold PyStr.of_nat.
  pose proof (nat_to_uint_nonnil n) as Hnn.
  rewrite (string_of_uint_nonnil Hnn).
  assert (Hd : PyStr.int_digits false 0 (NilEmpty.string_of_uint (Nat.to_uint n))
               = Some n).
  { rewrite int_digits_uint by (now left).
    change (Nat.of_uint_acc (Nat.to_uint n) 0) with (Nat.of_uint (Nat.to_uint n)).
    now rewrite DecimalNat.Unsigned.of_to. }
  destruct (uint_head_digit Hnn) as [c [r [E Hc]]].
  rewrite E in *. unfold PyStr.int_of.
  destruct c as [[] [] [] [] [] [] [] []]; try discriminate Hc;
    rewrite Hd; reflexivity.
Qed.

(** X9. [delete] without [returning] answers with the number the status line
    of the connection carries: [DELETE n] gives [n]; a status line with
    fewer than two words gives [0]. *)
Theorem delete_count_from_status (n : nat) :
  Operator.affected_rows ("DELETE " ++ PyStr.of_nat n) = Z.of_nat n
  /\ Operator.affected_rows "DELETE" = 0%Z
  /\ Operator.affected_rows "" = 0%Z.
Proof.
  split; [| split; reflexivity].
  unfold Operator.affected_rows, PyStr.split_ws.
  pose proof (nat_to_uint_nonnil n) as Hnn.
  assert (Hw : PyStr.split_ws_from ("DELETE " ++ PyStr.of_nat n)
               = ("DELETE", [PyStr.of_nat n])).
  { unfold PyStr.of_nat. rewrite (string_of_uint_nonnil Hnn).
    pose proof (split_ws_from_digits (Nat.to_uint n)) as Hs.
    destruct (uint_head_digit Hnn) as [c [r [E Hc]]].
    change ("DELETE " ++ NilEmpty.string_of_uint (Nat.to_uint n))
      with (String "D" (String "E" (String "L" (String "E" (String "T"
             (String "E" (String " "
                (NilEmpty.string_of_uint (Nat.to_uint n))))))))).
    cbn -[NilEmpty.string_of_uint Nat.to_uint].
    rewrite Hs, E. reflexivity. }
  rewrite Hw. cbn [PyStr.push_word]. now rewrite int_of_of_nat.
Qed.

(** ** Formatting for logs and storage *)

(** X10. The log formatter and the storage formatter are the same function:
    for every value and every limit they give the same result. *)
Theorem format_for_logging_is_format_variable (limit : Z) :
  forall value : pyval,
    Operator._format_for_logging value limit
    = Operator._format_variable value limit.
Proof.
  fix IH 1. intros value.
  destruct value as [| b | z | q | s | items | items | entries | s | s | s | n];
    try reflexivity.
  - cbn [Operator._format_for_logging Operator._format_variable].
    unfold Operator._truncate_text.
    destruct (limit <? Z.of_nat (String.length s))%Z eqn:E; [| reflexivity].
    apply Z.ltb_lt in E.
    destruct (Z.of_nat (String.length s) <=? limit)%Z eqn:E'; [| reflexivity].
    apply Z.leb_le in E'. lia.
  - cbn [Operator._format_for_logging Operator._format_variable]. f_equal.
    induction items as [| x r IHr]; [reflexivity |].
    cbn [map]. now rewrite IH, IHr.
  - cbn [Operator._format_for_logging Operator._format_variable]. f_equal.
    induction entries as [| [k v] r IHr]; [reflexivity |].
    cbn [map]. now rewrite IH, IHr.
Qed.

(** The texts inside a value, at any depth of lists and dictionaries. *)
Lemma string_append_empty (s : string) : s ++ "" = s.
Proof. induction s; simpl; [reflexivity | now rewrite IHs]. Qed.

Section OperatorWrites.

Variable singular_noun : string -> option string.
Variable plural : string -> string.
Variable fromisoformat : string -> option string.
Variable Conn : Type.
Variable execute :
  forall m : Operator.fetch_mode,
    string -> option (list pyval) -> option string -> Conn ->
    result (Operator.reply m) * Conn.

Local Abbreviation match_column :=
  (Resolver.match_column singular_noun plural).
Local Abbreviation _format_record :=
  (Operator._format_record singular_noun plural fromisoformat).
Local Abbreviation _get_table_columns :=
  (Operator._get_table_columns execute).
Local Abbreviation connector_execute :=
  (Operator.connector_execute execute).
Local Abbreviation convert_value := (Operator.convert_value fromisoformat).
Local Abbreviation upsert :=
  (Operator.upsert singular_noun plural fromisoformat execute).
Local Abbreviation run_sql_script := (Operator.run_sql_script execute).

(** X11. [upsert] of a record that consists of its conflict column alone
    sends an [INSERT ... ON CONFLICT ... DO UPDATE SET] whose [SET] list
    is empty. *)
Theorem upsert_of_conflict_column_alone
        (table schema k : string) (v : pyval)
        (op op' : Operator.DBOperator Conn) (cols : list string) :
  _get_table_columns table schema op = (Ok cols, op') ->
  In k cols ->
  upsert table [(k, v)] [k] true schema op
  = connector_execute Operator.FetchRow
      (PyStr.join PyStr.newline
         [""; "        INSERT INTO " ++ schema ++ "." ++ table
                ++ " (" ++ k ++ ")";
          "        VALUES ($1)";
          "        ON CONFLICT (" ++ k ++ ") DO UPDATE SET ";
          "        "]
         ++ " RETURNING *")
      (Some [convert_value k v]) None op'.
Proof.
  intros Hcols Hin.
  unfold Operator.upsert, bind at 1. fold _get_table_columns.
  rewrite Hcols. unfold bind at 1, lift. fold _format_record.
  rewrite (@format_record_single singular_noun plural fromisoformat
             k v cols Hin).
  cbn [fst]. unfold bind at 1, lift.
  cbn [Operator.match_unique]. unfold Operator.match_column.
  apply mem_true_iff in Hin.
  unfold Resolver.match_column. rewrite Hin.
  cbn [Operator.match_unique append app].
  unfold Operator.upsert_statement.
  cbn [Dict.keys Dict.values map fst snd List.length
       Operator.upsert_update_parts].
  assert (Hk : PyStr.mem k [k] = true)
    by (apply mem_true_iff; now left).
  rewrite Hk. cbn [negb Operator.upsert_update_parts PyStr.join String.concat].
  rewrite string_append_empty. reflexivity.
Qed.

End OperatorWrites.

(** On the recording connection: the statement that goes out for
    [upsert("t", {"id": 7}, ["id"])]. *)
Lemma upsert_of_conflict_column_alone_witness :
  Operator.connector
    (snd (Operator.upsert Demo.singular_noun Demo.plural Demo.fromisoformat
            Demo.execute "t" [("id", VInt 7)] ["id"] true "public"
            Demo.operator))
  = [(Operator.columns_query, Some [VStr "public"; VStr "t"]);
     (PyStr.join PyStr.newline
        [""; "        INSERT INTO public.t (id)"; "        VALUES ($1)";
         "        ON CONFLICT (id) DO UPDATE SET ";
         "         RETURNING *"],
      Some [VInt 7])].
Proof.
  rewrite (@upsert_of_conflict_column_alone Demo.singular_noun Demo.plural
             Demo.fromisoformat Demo.Conn Demo.execute "t" "public" "id"
             (VInt 7) Demo.operator Demo.warm_operator Demo.table_columns
             eq_refl).
  - reflexivity.
  - simpl. now left.
Defined.

(** ** [run_sql_script] *)

Lemma lower_char_is_not_F (c : ascii) (r : string) :
  String.prefix "FROM stdin;" (String (PyStr.lower_char c) r) = false.
Proof. destruct c as [[] [] [] [] [] [] [] []]; reflexivity. Qed.

Lemma lower_has_no_copy_marker (s : string) :
  PyStr.contains "FROM stdin;" (PyStr.lower s) = false.
Proof.
  induction s as [| c s IH]; [reflexivity |].
  cbn [PyStr.lower PyStr.contains].
  rewrite lower_char_is_not_F. exact IH.
Qed.

Lemma scan_line_stays_outside (st : Operator.scan) (line : string) :
  Operator.in_copy_block st = false ->
  Operator.copy_data st = [] ->
  Operator.in_copy_block (Operator.scan_line st line) = false
  /\ Operator.copy_data (Operator.scan_line st line) = [].
Proof.
  intros Hb Hd. unfold Operator.scan_line.
  rewrite lower_has_no_copy_marker, Hb, andb_false_r.
  cbn [negb andb].
  destruct (PyStr.endswith ";" (PyStr.strip line)).
  - now split.
  - destruct (PyStr.strip line); [now split |].
    destruct (negb _); now split.
Qed.

Lemma scan_lines_stay_outside (lines : list string) :
  forall st : Operator.scan,
    Operator.in_copy_block st = false ->
    Operator.copy_data st = [] ->
    Operator.in_copy_block (fold_left Operator.scan_line lines st) = false
    /\ Operator.copy_data (fold_left Operator.scan_line lines st) = [].
Proof.
  induction lines as [| line lines IH]; intros st Hb Hd; [now split |].
  cbn [fold_left].
  destruct (scan_line_stays_outside st line Hb Hd) as [Hb' Hd'].
  now apply IH.
Qed.

(** X12. [run_sql_script] never recognises a [COPY ... FROM stdin;] block:
    the test for its first line looks for ["FROM stdin;"] in the
    lower-cased line, where it cannot be.  Whatever the script, the scan
    ends outside a block, with no line set aside as block data. *)
Theorem run_sql_script_never_enters_copy_block (script : string) :
  (forall line : string,
      PyStr.contains "FROM stdin;" (PyStr.lower (PyStr.strip line)) = false)
  /\ Operator.in_copy_block (Operator.scan_script script) = false
  /\ Operator.copy_data (Operator.scan_script script) = [].
Proof.
  split; [intros line; apply lower_has_no_copy_marker |].
  apply scan_lines_stay_outside; reflexivity.
Qed.

Lemma scan_lines_without_terminator (lines : list string) :
  (forall line, In line lines ->
                PyStr.endswith ";" (PyStr.strip line) = false) ->
  forall st : Operator.scan,
    Operator.in_copy_block st = false ->
    Operator.copy_data st = [] ->
    Operator.statements (fold_left Operator.scan_line lines st)
    = Operator.statements st.
Proof.
  induction lines as [| line lines IH]; intros Hall st Hb Hd; [reflexivity |].
  cbn [fold_left].
  destruct (scan_line_stays_outside st line Hb Hd) as [Hb' Hd'].
  rewrite IH; try assumption.
  - unfold Operator.scan_line.
    rewrite lower_has_no_copy_marker, Hb, andb_false_r.
    cbn [negb andb]. rewrite (Hall line) by (now left).
    destruct (PyStr.strip line); [reflexivity |].
    destruct (negb _); reflexivity.
  - intros l Hl. apply Hall. now right.
Qed.

Section ScriptFacts.

Variable Conn : Type.
Variable execute :
  forall m : Operator.fetch_mode,
    string -> option (list pyval) -> option string -> Conn ->
    result (Operator.reply m) * Conn.

(** X13. A script none of whose lines ends with a semicolon (white space
    aside) is not executed at all: [run_sql_script] returns without
    sending a statement. *)
Theorem run_sql_script_needs_semicolons
        (script script_name : string) (op : Operator.DBOperator Conn) :
  (forall line, In line (PyStr.splitlines script) ->
                PyStr.endswith ";" (PyStr.strip line) = false) ->
  Operator.run_sql_script execute script script_name op = (Ok tt, op).
Proof.
  intros Hall. unfold Operator.run_sql_script, Operator.scan_script.
  rewrite (scan_lines_without_terminator _ Hall) by reflexivity.
  reflexivity.
Qed.

End ScriptFacts.

Lemma run_sql_script_needs_semicolons_witness :
  Operator.run_sql_script Demo.execute "SELECT 1" "probe" Demo.operator
  = (Ok tt, Demo.operator).
Proof.
  apply (@run_sql_script_needs_semicolons Demo.Conn Demo.execute
           "SELECT 1" "probe" Demo.operator).
  intros line [<- | []]. reflexivity.
Defined.

(** ** Schema registry and synthesizer *)

(** ** Value checks *)

(** X14. [_validate_data_type] gives a reason exactly when it rejects: an
    accepted value comes with [None], a rejected one with a message. *)
Theorem validate_data_type_reason_iff_rejection
        (value : pyval) (data_type : string) (max_length : option Z) :
  match Registry._validate_data_type value data_type max_length with
  | (true, error) => error = None
  | (false, error) => exists msg, error = Some msg
  end.
Proof.
  assert (Heach : forall (items : list pyval) (base_type : string),
             match
               (fix each (l : list pyval) : bool * option string :=
                  match l with
                  | [] => (true, None)
                  | item :: r =>
                      let '(item_valid, item_error) :=
                        Registry._validate_data_type item base_type None in
                      if item_valid then each r
                      else (false, Some ("Array element invalid: "
                                           ++ Registry.opt_text item_error))
                  end) items
             with
             | (true, error) => error = None
             | (false, error) => exists msg, error = Some msg
             end).
  { intros items base_type. induction items as [| x r IHr].
    - reflexivity.
    - destruct (Registry._validate_data_type x base_type None)
        as [[] e] eqn:E; [exact IHr | eauto]. }
  destruct value as [| b | z | q | s | items | items | entries | s | s | s | n];
    cbn [Registry._validate_data_type];
    repeat match goal with
           | |- context [if ?c then _ else _] => destruct c
           | |- context [match Registry.too_long ?s ?m with _ => _ end] =>
               destruct (Registry.too_long s m)
           | |- context [match Registry.json_dumps_error ?v with _ => _ end] =>
               destruct (Registry.json_dumps_error v)
           end;
    try reflexivity; eauto; apply Heach.
Qed.

(** ** Synthesis *)

Lemma has_get_iff {V : Type} (k : string) (d : dict V) :
  Dict.has k d = true <-> exists v, Dict.get k d = Some v.
Proof.
  induction d as [| [k' v'] d IH]; simpl.
  - split; [discriminate | intros [v H]; discriminate].
  - destruct (String.eqb k' k); simpl; [| exact IH].
    split; [eauto | reflexivity].
Qed.

Lemma has_false_get {V : Type} (k : string) (d : dict V) :
  Dict.has k d = false -> Dict.get k d = None.
Proof.
  intros H. destruct (Dict.get k d) as [v |] eqn:E; [| reflexivity].
  assert (Hh : Dict.has k d = true) by (apply has_get_iff; eauto).
  congruence.
Qed.

(** [d.update(other)] on a dictionary: the entries of [other] win. *)
Lemma get_dict_update (other : row) :
  Dict.wf other ->
  forall (d : row) (k : string),
    Dict.get k (Registry.dict_update d other)
    = match Dict.get k other with
      | Some v => Some v
      | None => Dict.get k d
      end.
Proof.
  unfold Registry.dict_update, Dict.wf, Dict.keys.
  induction other as [| [k0 v0] other IH]; intros Hwf d k; [reflexivity |].
  inversion Hwf as [| ? ? Hnotin Hwf']; subst.
  cbn [fold_left fst snd Dict.get]. rewrite (IH Hwf'), get_set.
  destruct (String.eqb k0 k) eqn:E; [| reflexivity].
  apply String.eqb_eq in E. subst k.
  now rewrite (@get_none_of_notin _ k0 other Hnotin).
Qed.

(** No required column is missing from a record that has every column
    the system does not generate. *)
Lemma no_column_missing (cols : dict Registry.ColumnInfo) (data : row) :
  (forall c info, In (c, info) cols ->
                  Registry.is_auto_generated info = false ->
                  Dict.has c data = true) ->
  Registry.missing_required cols data = None.
Proof.
  induction cols as [| [c info] cols IH]; intros H; [reflexivity |].
  cbn [Registry.missing_required].
  destruct (Registry.is_auto_generated info) eqn:Eauto.
  - rewrite andb_false_r. cbn [andb]. apply IH.
    intros c' info' Hin. apply H. now right.
  - rewrite (H c info (or_introl eq_refl) Eauto), andb_false_r.
    apply IH. intros c' info' Hin. apply H. now right.
Qed.

Section SynthesisFacts.

Variable Rng : Type.
Variable random_bits : Rng -> N * Rng.
Variable db_extract : Registry.Cache -> Registry.Cache * option string.
Variable path_exists : string -> bool.
Variable parse_dump :
  string -> Registry.Cache -> Registry.Cache * option string.
Variable clock : Registry.Clock.

Local Abbreviation World := (Registry.World Registry.Cache Rng).
Local Abbreviation yields := (@Registry.yields Registry.Cache Rng).

Lemma yields_ret {A : Type} (a : A) (P : A -> Prop) :
  P a -> yields (ret a) P.
Proof. intros H w. exists a, w. auto. Qed.

Lemma yields_bind {A B : Type} (m : M World A) (k : A -> M World B)
      (P : A -> Prop) (Q : B -> Prop) :
  yields m P -> (forall a, P a -> yields (k a) Q) -> yields (bind m k) Q.
Proof.
  intros Hm Hk w. destruct (Hm w) as [a [w1 [E [Hs Ha]]]].
  destruct (Hk a Ha w1) as [b [w2 [E2 [Hs2 Hb]]]].
  exists b, w2. unfold bind. rewrite E, E2.
  repeat split; [congruence | assumption].
Qed.

Lemma yields_weaken {A : Type} (m : M World A) (P Q : A -> Prop) :
  yields m P -> (forall a, P a -> Q a) -> yields m Q.
Proof.
  intros Hm HPQ w. destruct (Hm w) as [a [w1 [E [Hs Ha]]]].
  exists a, w1. auto.
Qed.

Lemma yields_draw : yields (Registry.draw random_bits) (fun _ => True).
Proof.
  intros w. unfold Registry.draw.
  destruct (random_bits (Registry.random_state w)) as [n g].
  eexists _, _. repeat split.
Qed.

Lemma yields_randint (a b : Z) :
  (a <= b)%Z ->
  yields (Registry.randint random_bits a b) (fun z => (a <= z <= b)%Z).
Proof.
  intros Hab. unfold Registry.randint.
  eapply yields_bind; [apply yields_draw |]. intros n _.
  apply yields_ret.
  pose proof (Z.mod_pos_bound (Z.of_N n) (b - a + 1)) as H. lia.
Qed.

Lemma yields_choice {A : Type} (fallback : A) (options : list A) :
  options <> [] ->
  yields (Registry.choice random_bits fallback options)
         (fun x => In x options).
Proof.
  intros Hne. unfold Registry.choice.
  eapply yields_bind; [apply yields_draw |]. intros n _.
  apply yields_ret. apply nth_In.
  apply Nat.mod_upper_bound. destruct options; [contradiction | discriminate].
Qed.

Lemma yields_choices_text (k : nat) :
  yields (Registry.choices_text random_bits k)
         (fun s => String.length s = k).
Proof.
  induction k as [| k IH]; cbn [Registry.choices_text].
  - now apply yields_ret.
  - eapply yields_bind;
      [apply (yields_choice "a"%char (options := Registry.alphabet));
       discriminate |].
    intros c _. eapply yields_bind; [exact IH |]. intros r Hr.
    apply yields_ret. simpl. now rewrite Hr.
Qed.

Lemma hex_digit_is_hex (n : nat) :
  Registry.is_hex (Registry.hex_digit n) = true.
Proof.
  unfold Registry.hex_digit.
  assert (H : n mod 16 < 16) by (apply Nat.mod_upper_bound; discriminate).
  revert H. generalize (n mod 16). intros m H.
  do 16 (destruct m as [| m]; [reflexivity |]). lia.
Qed.

Lemma eat_hex_step (k : nat) (h : ascii) (s : string) :
  Registry.eat_hex (S k) (String h s)
  = if Registry.is_hex h then Registry.eat_hex k s else None.
Proof. reflexivity. Qed.

Lemma yields_hex_text (k : nat) :
  yields (Registry.hex_text random_bits k)
         (fun s => forall rest, Registry.eat_hex k (s ++ rest) = Some rest).
Proof.
  induction k as [| k IH]; cbn [Registry.hex_text].
  - now apply yields_ret.
  - eapply yields_bind; [apply yields_draw |]. intros n _.
    eapply yields_bind; [exact IH |]. intros r Hr.
    apply yields_ret. intros rest.
    cbn [String.append Registry.eat_hex]. rewrite hex_digit_is_hex. apply Hr.
Qed.

Lemma string_app_assoc (a b c : string) : (a ++ b) ++ c = a ++ b ++ c.
Proof. induction a; simpl; [reflexivity | now rewrite IHa]. Qed.

Lemma yields_uuid4 :
  yields (Registry.uuid4 random_bits)
         (fun u => Registry.uuid_match u = true).
Proof.
  unfold Registry.uuid4.
  eapply yields_bind; [apply (yields_hex_text 8) |]. intros a Ha.
  eapply yields_bind; [apply (yields_hex_text 4) |]. intros b Hb.
  eapply yields_bind; [apply (yields_hex_text 3) |]. intros c Hc.
  eapply yields_bind; [apply yields_draw |]. intros v _.
  eapply yields_bind; [apply (yields_hex_text 3) |]. intros d Hd.
  eapply yields_bind; [apply (yields_hex_text 12) |]. intros e He.
  apply yields_ret. unfold Registry.uuid_match.
  rewrite Ha. cbn [Registry.opt_bind String.append Registry.eat_dash].
  rewrite Hb. cbn [Registry.opt_bind String.append Registry.eat_dash].
  rewrite eat_hex_step. change (Registry.is_hex "4") with true. cbv iota.
  rewrite Hc. cbn [Registry.opt_bind String.append Registry.eat_dash].
  rewrite eat_hex_step, hex_digit_is_hex.
  rewrite Hd. cbn [Registry.opt_bind String.append Registry.eat_dash].
  rewrite <- (string_append_empty e) at 1. rewrite He. reflexivity.
Qed.

(** X15. Every identifier [uuid.uuid4] hands out passes the registry's own
    check for the [uuid] type. *)
Theorem uuid4_passes_uuid_check (w : World) :
  exists u w',
    Registry.uuid4 random_bits w = (Ok u, w')
    /\ Registry.uuid_match u = true
    /\ Registry._validate_data_type (VStr u) "uuid" None = (true, None).
Proof.
  destruct (yields_uuid4 w) as [u [w' [E [_ Hu]]]].
  exists u, w'. split; [exact E |]. split; [exact Hu |].
  cbn. now rewrite Hu.
Qed.

Ltac settle_type_tests :=
  repeat match goal with
         | H : ?c = _ |- context [?c] => rewrite H
         end.

Lemma temporal_is_no_array (data_type : string) :
  PyStr.mem data_type Registry.temporal_types = true ->
  PyStr.endswith "[]" data_type = false.
Proof.
  intros H. apply mem_true_iff in H.
  destruct H as [<- | [<- | [<- | []]]]; reflexivity.
Qed.

Lemma yields_scalar (data_type : string) :
  PyStr.endswith "[]" data_type = false ->
  yields (Registry._generate_mock_scalar_value random_bits data_type None)
         (fun v => Registry._validate_data_type v data_type None
                   = (true, None)).
Proof.
  intros Harr. unfold Registry._generate_mock_scalar_value.
  destruct (PyStr.mem data_type Registry.integer_types) eqn:Eint.
  { eapply yields_bind; [apply yields_randint; lia |].
    intros n _. apply yields_ret.
    cbn [Registry._validate_data_type]. now rewrite Eint. }
  destruct (Registry.is_character_type data_type) eqn:Echar.
  { eapply yields_bind; [apply yields_choices_text |].
    intros s _. apply yields_ret.
    cbn [Registry._validate_data_type]. now rewrite Eint, Echar. }
  destruct (PyStr.mem data_type Registry.numeric_types) eqn:Enum.
  { unfold Registry.uniform_rounded.
    eapply yields_bind; [apply yields_draw |].
    intros n _. apply yields_ret.
    cbn [Registry._validate_data_type]. now rewrite Eint, Echar, Enum. }
  destruct (String.eqb data_type "boolean") eqn:Ebool.
  { eapply yields_bind;
      [apply (yields_choice true (options := [true; false])); discriminate |].
    intros b _. apply yields_ret.
    cbn [Registry._validate_data_type].
    now rewrite Eint, Echar, Enum, Ebool. }
  destruct (String.eqb data_type "uuid") eqn:Euuid.
  { eapply yields_bind; [apply yields_uuid4 |].
    intros u Hu. apply yields_ret.
    apply String.eqb_eq in Euuid. subst data_type.
    cbn. now rewrite Hu. }
  apply yields_ret. cbn [Registry._validate_data_type].
  rewrite Eint, Echar, Enum, Ebool, Euuid, Harr.
  destruct (PyStr.mem data_type Registry.temporal_types); [reflexivity |].
  destruct (_ || _); reflexivity.
Qed.

(** X16. A value [_generate_mock_scalar_value] makes for a type that is not
    itself an array type passes [_validate_data_type] for that type. *)
Theorem generated_scalar_passes_validation (data_type : string) (w : World) :
  PyStr.endswith "[]" data_type = false ->
  exists v w',
    Registry._generate_mock_scalar_value random_bits data_type None w
    = (Ok v, w')
    /\ Registry._validate_data_type v data_type None = (true, None).
Proof.
  intros Harr. destruct (@yields_scalar data_type Harr w) as [v [w' [E [_ Hv]]]].
  now exists v, w'.
Qed.

Lemma yields_repeat_scalar (count : nat) (base_type : string) :
  PyStr.endswith "[]" base_type = false ->
  yields (Registry.repeat_scalar random_bits count base_type)
         (Forall (fun v => Registry._validate_data_type v base_type None
                           = (true, None))).
Proof.
  intros Harr. induction count as [| count IH]; cbn [Registry.repeat_scalar].
  - apply yields_ret. constructor.
  - eapply yields_bind; [apply (@yields_scalar base_type Harr) |].
    intros x Hx. eapply yields_bind; [exact IH |]. intros r Hr.
    apply yields_ret. now constructor.
Qed.

Lemma array_elements_pass (items : list pyval) (base_type : string) :
  Forall (fun v => Registry._validate_data_type v base_type None
                   = (true, None)) items ->
  (fix each (l : list pyval) : bool * option string :=
     match l with
     | [] => (true, None)
     | item :: r =>
         let '(item_valid, item_error) :=
           Registry._validate_data_type item base_type None in
         if item_valid then each r
         else (false, Some ("Array element invalid: "
                              ++ Registry.opt_text item_error))
     end) items = (true, None).
Proof.
  induction 1 as [| x r Hx Hr IH]; [reflexivity |]. now rewrite Hx.
Qed.

(** The length limit a generated text has to fit: the text is
    ["mock-"], the column name, a dash and random letters. *)
Local Abbreviation fits col_name max_length :=
  (match max_length with
   | Some m => m = 0%Z \/ (Z.of_nat (String.length col_name) + 6 <= m)%Z
   | None => True
   end).

Lemma yields_by_type (col_name : string) (col_info : Registry.ColumnInfo) :
  (Registry.is_character_type (Registry.col_type col_info) = true ->
   fits col_name (Registry.max_length col_info)) ->
  (PyStr.endswith "[]" (Registry.col_type col_info) = true ->
   PyStr.endswith "[]" (PyStr.drop_last 2 (Registry.col_type col_info))
   = false) ->
  yields (Registry.mock_value_by_type random_bits col_name col_info)
         (fun v => Registry._validate_data_type
                     v (Registry.col_type col_info)
                     (Registry.max_length col_info) = (true, None)).
Proof.
  intros Hfit Hbase. unfold Registry.mock_value_by_type. cbv zeta.
  set (data_type := Registry.col_type col_info) in *.
  destruct (PyStr.mem data_type Registry.integer_types) eqn:Eint.
  { eapply yields_bind; [apply yields_randint; lia |].
    intros n _. apply yields_ret.
    cbn [Registry._validate_data_type]. now rewrite Eint. }
  destruct (Registry.is_character_type data_type) eqn:Echar.
  { eapply yields_bind; [apply yields_choices_text |].
    intros s Hs. apply yields_ret.
    cbn [Registry._validate_data_type]. rewrite Eint, Echar.
    specialize (Hfit eq_refl).
    assert (Hnone : Registry.too_long ("mock-" ++ col_name ++ "-" ++ s)
                                      (Registry.max_length col_info) = None).
    { unfold Registry.too_long.
      destruct (Registry.max_length col_info) as [m |]; [| reflexivity].
      destruct (m =? 0)%Z eqn:E0; [reflexivity |]. cbn [negb andb].
      apply Z.eqb_neq in E0. destruct Hfit as [-> | Hfit]; [lia |].
      assert (Hlen : Z.of_nat (String.length ("mock-" ++ col_name ++ "-" ++ s))
                     = (Z.of_nat (String.length col_name) + 6
                        + Z.of_nat (String.length s))%Z).
      { rewrite !length_append. cbn [String.length]. lia. }
      rewrite Hlen, Hs.
      destruct (m <? _)%Z eqn:Elt; [| reflexivity].
      apply Z.ltb_lt in Elt. lia. }
    now rewrite Hnone. }
  destruct (PyStr.mem data_type Registry.numeric_types) eqn:Enum.
  { unfold Registry.uniform_rounded.
    eapply yields_bind; [apply yields_draw |].
    intros n _. apply yields_ret.
    cbn [Registry._validate_data_type]. now rewrite Eint, Echar, Enum. }
  destruct (String.eqb data_type "boolean") eqn:Ebool.
  { eapply yields_bind;
      [apply (yields_choice true (options := [true; false])); discriminate |].
    intros b _. apply yields_ret.
    cbn [Registry._validate_data_type].
    now rewrite Eint, Echar, Enum, Ebool. }
  destruct (String.eqb data_type "jsonb" || String.eqb data_type "json")
    eqn:Ejson.
  { eapply yields_bind; [apply yields_randint; lia |]. intros value _.
    eapply yields_bind;
      [apply (yields_choice true (options := [true; false])); discriminate |].
    intros active _. apply yields_ret.
    cbn [Registry._validate_data_type].
    assert (Etemp : PyStr.mem data_type Registry.temporal_types = false).
    { apply orb_true_iff in Ejson.
      destruct Ejson as [E | E]; apply String.eqb_eq in E; rewrite E;
        reflexivity. }
    rewrite Eint, Echar, Enum, Ebool, Ejson, Etemp. reflexivity. }
  destruct (String.eqb data_type "uuid") eqn:Euuid.
  { eapply yields_bind; [apply yields_uuid4 |].
    intros u Hu. apply yields_ret.
    cbn [Registry._validate_data_type].
    assert (Etemp : PyStr.mem data_type Registry.temporal_types = false).
    { apply String.eqb_eq in Euuid. rewrite Euuid. reflexivity. }
    rewrite Eint, Echar, Enum, Ebool, Ejson, Euuid, Etemp, Hu.
    reflexivity. }
  destruct (PyStr.endswith "[]" data_type) eqn:Earr.
  { eapply yields_bind; [apply yields_randint; lia |]. intros count _.
    eapply yields_bind;
      [apply (@yields_repeat_scalar _ _ (Hbase eq_refl)) |].
    intros items Hitems. apply yields_ret.
    cbn [Registry._validate_data_type].
    rewrite Eint, Echar, Enum, Ebool, Ejson, Euuid, Earr.
    destruct (PyStr.mem data_type Registry.temporal_types) eqn:Etemp.
    - apply temporal_is_no_array in Etemp. congruence.
    - now apply array_elements_pass. }
  apply yields_ret. cbn [Registry._validate_data_type].
  rewrite Eint, Echar, Enum, Ebool, Ejson, Euuid, Earr.
  destruct (PyStr.mem data_type Registry.temporal_types); reflexivity.
Qed.

(** X17. The type-directed part of the synthesizer is sound: for a column
    whose name gives no hint, the value generated from the declared type
    passes [_validate_data_type] for that type and length limit, as long
    as a character column leaves room for the text
    [mock-<column>-<letters>] and an array column is not an array of
    arrays. *)
Theorem type_directed_value_passes_validation
        (col_name : string) (col_info : Registry.ColumnInfo) (w : World) :
  (Registry.is_character_type (Registry.col_type col_info) = true ->
   fits col_name (Registry.max_length col_info)) ->
  (PyStr.endswith "[]" (Registry.col_type col_info) = true ->
   PyStr.endswith "[]" (PyStr.drop_last 2 (Registry.col_type col_info))
   = false) ->
  exists v w',
    Registry.mock_value_by_type random_bits col_name col_info w = (Ok v, w')
    /\ Registry._validate_data_type v (Registry.col_type col_info)
                                    (Registry.max_length col_info)
       = (true, None).
Proof.
  intros Hfit Hbase.
  destruct (@yields_by_type col_name col_info Hfit Hbase w)
    as [v [w' [E [_ Hv]]]].
  now exists v, w'.
Qed.

(** *** [generate_mock_data] *)

Local Abbreviation always m := (yields m (fun _ => True)).

Lemma always_of {A : Type} (m : M World A) (P : A -> Prop) :
  yields m P -> always m.
Proof. intros H. eapply yields_weaken; [exact H | auto]. Qed.

Lemma always_bind {A B : Type} (m : M World A) (k : A -> M World B) :
  always m -> (forall a, always (k a)) -> always (bind m k).
Proof.
  intros Hm Hk. eapply yields_bind; [exact Hm | intros a _; apply Hk].
Qed.

Ltac always_step :=
  first
    [ apply yields_ret; exact I
    | apply always_bind; [| intro]
    | apply yields_draw
    | eapply always_of;
      first [ apply yields_randint; lia
            | apply yields_choice; discriminate
            | apply yields_choices_text
            | apply yields_uuid4 ]
    | match goal with
      | |- Registry.yields (if ?b then _ else _) _ => destruct b
      | |- Registry.yields (match ?x with _ => _ end) _ => destruct x
      end ].

Lemma always_scalar (data_type : string) (max_length : option Z) :
  always (Registry._generate_mock_scalar_value random_bits data_type
                                               max_length).
Proof.
  unfold Registry._generate_mock_scalar_value, Registry.uniform_rounded.
  repeat always_step.
Qed.

Lemma always_repeat_scalar (count : nat) (base_type : string) :
  always (Registry.repeat_scalar random_bits count base_type).
Proof.
  induction count as [| count IH]; cbn [Registry.repeat_scalar].
  - repeat always_step.
  - apply always_bind; [apply always_scalar | intro].
    apply always_bind; [exact IH | intro]. repeat always_step.
Qed.

Lemma always_by_type (col_name : string) (col_info : Registry.ColumnInfo) :
  always (Registry.mock_value_by_type random_bits col_name col_info).
Proof.
  unfold Registry.mock_value_by_type, Registry.uniform_rounded. cbv zeta.
  repeat first [apply always_repeat_scalar | always_step].
Qed.

Lemma always_mock_value (col_name : string) (col_info : Registry.ColumnInfo)
      (table_schema : Registry.TableSchema) :
  always (Registry._generate_mock_value random_bits clock col_name col_info
                                        table_schema).
Proof.
  unfold Registry._generate_mock_value. cbv zeta.
  repeat first [apply always_by_type | always_step].
Qed.

Lemma mock_loop_spec (table_schema : Registry.TableSchema)
      (cols : dict Registry.ColumnInfo) :
  forall mock_data : row,
    yields (Registry.mock_loop random_bits clock cols table_schema mock_data)
           (fun data =>
              (forall k v, Dict.get k mock_data = Some v ->
                           Dict.get k data = Some v)
              /\ (forall c info, In (c, info) cols ->
                                 Registry.is_auto_generated info = false ->
                                 Dict.has c data = true)
              /\ (forall k, Dict.has k data = true ->
                            Dict.has k mock_data = true
                            \/ In k (Dict.keys cols))).
Proof.
  induction cols as [| [c info] cols IH]; intros mock_data;
    cbn [Registry.mock_loop].
  - apply yields_ret. split; [auto | split]; [intros ? ? [] | auto].
  - destruct (Dict.has c mock_data) eqn:Ehas.
    { eapply yields_weaken; [apply IH |].
      intros data [Hkeep [Hcover Honly]]. split; [exact Hkeep | split].
      - intros c' info' [Heq | Hin] Hauto; [| now apply (Hcover c' info')].
        inversion Heq; subst. apply has_get_iff in Ehas.
        destruct Ehas as [v Hv]. apply has_get_iff. eauto.
      - intros k Hk. destruct (Honly k Hk); [now left | right].
        simpl. now right. }
    destruct (Registry.is_auto_generated info) eqn:Eauto.
    { eapply yields_weaken; [apply IH |].
      intros data [Hkeep [Hcover Honly]]. split; [exact Hkeep | split].
      - intros c' info' [Heq | Hin] Hauto; [| now apply (Hcover c' info')].
        inversion Heq; subst. congruence.
      - intros k Hk. destruct (Honly k Hk); [now left | right].
        simpl. now right. }
    eapply yields_bind; [apply always_mock_value |]. intros v _.
    eapply yields_weaken; [apply IH |].
    intros data [Hkeep [Hcover Honly]]. split; [| split].
    + intros k v' Hk. apply Hkeep. rewrite get_set.
      destruct (String.eqb c k) eqn:E; [| exact Hk].
      apply String.eqb_eq in E. subst k.
      rewrite (@has_false_get _ c mock_data Ehas) in Hk. discriminate.
    + intros c' info' [Heq | Hin] Hauto; [| now apply (Hcover c' info')].
      inversion Heq; subst. apply has_get_iff. exists v.
      apply Hkeep. now rewrite get_set, String.eqb_refl.
    + intros k Hk. destruct (Honly k Hk) as [H | H]; [| right; simpl; now right].
      apply has_get_iff in H. destruct H as [v' Hv'].
      rewrite get_set in Hv'. destruct (String.eqb c k) eqn:E.
      * apply String.eqb_eq in E. right. simpl. now left.
      * left. apply has_get_iff. eauto.
Qed.

(** X18. On an initialized registry, [generate_mock_data] for a table of the
    cache always returns a row and leaves the registry as it is.  The
    row has a value for every column that is not system-generated, so no
    required column is missing from it; it keeps every override value as
    given; and it has no key beyond the overrides and the columns. *)
Theorem generate_mock_data_fills_every_column
        (schema table : string) (overrides : option row) (w : World)
        (tables : dict Registry.TableSchema) (ts : Registry.TableSchema) :
  Registry.initialized (Registry.self w) = true ->
  Dict.get schema (Registry.table_schemas (Registry.self w)) = Some tables ->
  Dict.get table tables = Some ts ->
  (forall o, overrides = Some o -> Dict.wf o) ->
  exists data w',
    Registry.generate_mock_data random_bits db_extract path_exists parse_dump
                                clock schema table overrides w
    = (Ok data, w')
    /\ Registry.self w' = Registry.self w
    /\ (forall c info, In (c, info) (Registry.columns ts) ->
                       Registry.is_auto_generated info = false ->
                       Dict.has c data = true)
    /\ Registry.missing_required (Registry.columns ts) data = None
    /\ (forall o k v, overrides = Some o -> Dict.get k o = Some v ->
                      Dict.get k data = Some v)
    /\ (forall k, Dict.has k data = true ->
                  In k (Dict.keys (Registry.columns ts))
                  \/ exists o, overrides = Some o /\ Dict.has k o = true).
Proof.
  intros Hinit Hschema Htable Hwf.
  unfold Registry.generate_mock_data, bind at 1.
  unfold Registry.get_table_schema, bind at 1, Registry.ensure_initialized.
  rewrite Hinit. unfold Registry.lookup_table. rewrite Hschema, Htable.
  set (start := match overrides with
                | Some ((_ :: _) as o) => Registry.dict_update [] o
                | _ => []
                end).
  assert (Hstart : forall k,
             Dict.get k start
             = match overrides with
               | Some o => Dict.get k o
               | None => None
               end).
  { intros k. subst start. destruct overrides as [[| kv o] |]; try reflexivity.
    rewrite get_dict_update by (now apply Hwf).
    destruct (Dict.get k (kv :: o)); reflexivity. }
  destruct (mock_loop_spec ts (Registry.columns ts) start w)
    as [data [w' [E [Hself [Hkeep [Hcover Honly]]]]]].
  exists data, w'. split; [exact E |]. split; [exact Hself |].
  split; [exact Hcover |]. split; [| split].
  - now apply no_column_missing.
  - intros o k v -> Hk. apply Hkeep. now rewrite Hstart.
  - intros k Hk. destruct (Honly k Hk) as [H | H]; [right | now left].
    apply has_get_iff in H. destruct H as [v Hv]. rewrite Hstart in Hv.
    destruct overrides as [o |]; [| discriminate].
    exists o. split; [reflexivity |]. apply has_get_iff. eauto.
Qed.

(** *** [generate_row] and [generate_rows] *)

Local Abbreviation generate_mock_data :=
  (Registry.generate_mock_data random_bits db_extract path_exists parse_dump
                               clock).
Local Abbreviation generate_row :=
  (Registry.generate_row random_bits db_extract path_exists parse_dump clock).
Local Abbreviation generate_rows :=
  (Registry.generate_rows random_bits db_extract path_exists parse_dump
                          clock).

(** What a row of [generate_row] looks like: the error record, or a
    record that carries the override values. *)
Local Abbreviation row_shape overrides r :=
  ((exists msg, r = [("mock_error", VStr msg)])
   \/ (forall (o : row) k v, overrides = Some o -> Dict.get k o = Some v ->
                            Dict.get k r = Some v)).

Lemma generate_mock_data_keeps_overrides
      (schema table : string) (overrides : option row) (w w' : World)
      (data : row) :
  (forall o, overrides = Some o -> Dict.wf o) ->
  generate_mock_data schema table overrides w = (Ok data, w') ->
  forall o k v, overrides = Some o -> Dict.get k o = Some v ->
                Dict.get k data = Some v.
Proof.
  intros Hwf. unfold Registry.generate_mock_data, bind at 1.
  destruct (Registry.get_table_schema db_extract path_exists parse_dump
              schema table w) as [[ts | e] w0]; [| discriminate].
  intros E o k v -> Hk.
  match type of E with
  | Registry.mock_loop _ _ _ _ ?start _ = _ =>
      destruct (mock_loop_spec ts (Registry.columns ts) start w0)
        as [data' [w1 [E' [_ [Hkeep _]]]]]
  end.
  rewrite E in E'. inversion E'; subst data' w1. apply Hkeep.
  destruct o as [| kv o]; [discriminate |].
  rewrite get_dict_update by (now apply Hwf).
  now rewrite Hk.
Qed.

Lemma generate_row_returns
      (schema table : string) (overrides : option row) (w : World) :
  (forall o, overrides = Some o -> Dict.wf o) ->
  exists r w',
    generate_row schema table overrides w = (Ok r, w')
    /\ row_shape overrides r.
Proof.
  intros Hwf. unfold Registry.generate_row, try_except, bind.
  fold generate_mock_data.
  destruct (generate_mock_data schema table overrides w)
    as [[data | e] w1] eqn:E.
  - destruct (Registry.validate_insert_data db_extract path_exists parse_dump
                schema table data w1) as [[verdict | e] w2].
    + exists data, w2. split; [reflexivity | right].
      exact (@generate_mock_data_keeps_overrides schema table overrides
               w w1 data Hwf E).
    + eexists _, _. split; [reflexivity | left; eauto].
  - eexists _, _. split; [reflexivity | left; eauto].
Qed.

Lemma rows_loop_returns
      (schema table : string) (base_values : option row) (count : nat) :
  (forall b, base_values = Some b -> Dict.wf b) ->
  forall (rows : list row) (w : World),
    exists more w',
      Registry.rows_loop random_bits db_extract path_exists parse_dump clock
                         count schema table base_values rows w
      = (Ok (app rows more), w')
      /\ List.length more = count
      /\ forall r, In r more -> row_shape base_values r.
Proof.
  intros Hwf. induction count as [| count IH]; intros rows w.
  - exists [], w. cbn [Registry.rows_loop]. unfold ret.
    rewrite app_nil_r. repeat split. intros r [].
  - cbn [Registry.rows_loop]. unfold bind at 1. fold generate_row.
    set (overrides := match base_values with
                      | Some ((_ :: _) as b) => Some b
                      | _ => None
                      end).
    assert (Hwf' : forall o, overrides = Some o -> Dict.wf o).
    { intros o Ho. apply Hwf. subst overrides.
      destruct base_values as [[| kv b] |]; try discriminate. exact Ho. }
    destruct (@generate_row_returns schema table overrides w Hwf')
      as [r [w1 [E Hr]]].
    rewrite E.
    destruct (IH (append rows r) w1) as [more [w' [E' [Hlen Hall]]]].
    exists (r :: more), w'. rewrite E'. unfold append.
    rewrite <- app_assoc. split; [reflexivity |].
    split; [simpl; now rewrite Hlen |].
    intros r' [<- | Hin]; [| now apply Hall].
    destruct Hr as [Herr | Hkeep]; [now left | right].
    intros b k v -> Hk. subst overrides.
    destruct b as [| kv b]; [discriminate |]. now apply (Hkeep (kv :: b)).
Qed.

(** X19. [generate_rows] never raises and returns the number of rows asked
    for, none for a negative count; each row is either the
    [mock_error] record or carries every base value as given. *)
Theorem generate_rows_returns_count_rows
        (schema table : string) (count : Z) (base_values : option row)
        (w : World) :
  (forall b, base_values = Some b -> Dict.wf b) ->
  exists rows w',
    generate_rows schema table count base_values w = (Ok rows, w')
    /\ List.length rows = Z.to_nat count
    /\ forall r, In r rows ->
                 (exists msg, r = [("mock_error", VStr msg)])
                 \/ (forall b k v, base_values = Some b ->
                                   Dict.get k b = Some v ->
                                   Dict.get k r = Some v).
Proof.
  intros Hwf. unfold Registry.generate_rows.
  destruct (@rows_loop_returns schema table base_values (Z.to_nat count)
              Hwf [] w)
    as [more [w' [E [Hlen Hall]]]].
  exists more, w'. auto.
Qed.

End SynthesisFacts.


(** For the element type [text]. *)
Lemma generated_scalar_passes_validation_witness :
  exists v w',
    Registry._generate_mock_scalar_value Demo.random_bits "text" None
                                         Demo.world = (Ok v, w')
    /\ Registry._validate_data_type v "text" None = (true, None).
Proof.
  apply (@generated_scalar_passes_validation nat Demo.random_bits "text"
           Demo.world).
  reflexivity.
Defined.

(** For the column [note varchar(40)] of [tickets]. *)
Lemma type_directed_value_passes_validation_witness :
  exists v w',
    Registry.mock_value_by_type
      Demo.random_bits "note"
      (Registry.mkColumn "character varying" true None (Some 40%Z))
      Demo.world = (Ok v, w')
    /\ Registry._validate_data_type v "character varying" (Some 40%Z)
       = (true, None).
Proof.
  apply (@type_directed_value_passes_validation nat Demo.random_bits "note"
           (Registry.mkColumn "character varying" true None (Some 40%Z))
           Demo.world).
  - intros _. right. simpl. lia.
  - discriminate.
Defined.

(** For [tickets] with the priority given. *)
Lemma generate_mock_data_fills_every_column_witness :
  exists data w',
    Registry.generate_mock_data Demo.random_bits Demo.db_down
      Demo.path_exists Demo.parse_dump Demo.clock "public" "tickets"
      (Some [("priority", VInt 5)]) Demo.world = (Ok data, w')
    /\ Dict.get "priority" data = Some (VInt 5)
    /\ Dict.has "note" data = true
    /\ Registry.missing_required (Registry.columns Demo.tickets) data = None.
Proof.
  destruct (@generate_mock_data_fills_every_column nat Demo.random_bits
              Demo.db_down Demo.path_exists Demo.parse_dump Demo.clock
              "public" "tickets" (Some [("priority", VInt 5)]) Demo.world
              [("orders", Demo.orders); ("tickets", Demo.tickets)]
              Demo.tickets eq_refl eq_refl eq_refl)
    as [data [w' [E [_ [Hcover [Hreq [Hkeep _]]]]]]].
  - intros o Ho. inversion Ho; subst. unfold Dict.wf. simpl.
    constructor; [intros [] | constructor].
  - exists data, w'. split; [exact E |]. split; [| split].
    + apply (Hkeep [("priority", VInt 5)]); reflexivity.
    + apply (Hcover "note"
               (Registry.mkColumn "character varying" true None (Some 40%Z)));
        [simpl; tauto | reflexivity].
    + exact Hreq.
Defined.

(** Three rows for [tickets]. *)
Lemma generate_rows_returns_count_rows_witness :
  exists rows w',
    Registry.generate_rows Demo.random_bits Demo.db_down Demo.path_exists
      Demo.parse_dump Demo.clock "public" "tickets" 3 None Demo.world
    = (Ok rows, w')
    /\ List.length rows = 3.
Proof.
  destruct (@generate_rows_returns_count_rows nat Demo.random_bits
              Demo.db_down Demo.path_exists Demo.parse_dump Demo.clock
              "public" "tickets" 3%Z None Demo.world)
    as [rows [w' [E [Hlen _]]]].
  - discriminate.
  - exists rows, w'. split; [exact E | exact Hlen].
Defined.

(** ** Validation of a record *)

Lemma check_values_unknown (cols : dict Registry.ColumnInfo) (k : string) :
  Dict.get k cols = None ->
  forall items : row,
    Dict.has k items = true ->
    exists msg, Registry.check_values cols items = (false, Some msg).
Proof.
  intros Hk. induction items as [| [k0 v0] items IH]; [discriminate |].
  cbn [Dict.has existsb fst Registry.check_values]. intros Hhas.
  destruct (Dict.get k0 cols) as [info |] eqn:E0; [| eauto].
  assert (Hrest : Dict.has k items = true).
  { destruct (String.eqb k0 k) eqn:E; [| exact Hhas].
    apply String.eqb_eq in E. subst k0. congruence. }
  destruct (IH Hrest) as [msg Hmsg].
  destruct v0;
    try (destruct (Registry._validate_data_type _ _ _) as [[] e];
         [exists msg; exact Hmsg | eauto]).
  destruct (negb (Registry.nullable info)); eauto.
Qed.

Section ValidationFacts.

Variable Rng : Type.
Variable db_extract : Registry.Cache -> Registry.Cache * option string.
Variable path_exists : string -> bool.
Variable parse_dump :
  string -> Registry.Cache -> Registry.Cache * option string.

(** X20. A record with a key that is not a column of the table is never
    valid: [validate_insert_data] returns [False] with a message,
    whatever else the record holds. *)
Theorem validate_insert_data_rejects_unknown_column
        (schema table : string) (data : row)
        (w : Registry.World Registry.Cache Rng)
        (tables : dict Registry.TableSchema) (ts : Registry.TableSchema)
        (k : string) :
  Registry.initialized (Registry.self w) = true ->
  Dict.get schema (Registry.table_schemas (Registry.self w)) = Some tables ->
  Dict.get table tables = Some ts ->
  Dict.has k data = true ->
  Dict.has k (Registry.columns ts) = false ->
  exists msg,
    Registry.validate_insert_data db_extract path_exists parse_dump
                                  schema table data w
    = (Ok (false, Some msg), w).
Proof.
  intros Hinit Hschema Htable Hk Hnot.
  unfold Registry.validate_insert_data, Registry.get_table_schema, bind,
    Registry.ensure_initialized.
  rewrite Hinit. unfold Registry.lookup_table. rewrite Hschema, Htable.
  unfold Registry.validate_against.
  destruct (Registry.missing_required (Registry.columns ts) data)
    as [c |]; [eauto |].
  destruct (@check_values_unknown (Registry.columns ts) k
              (has_false_get _ _ Hnot) data Hk) as [msg ->].
  eauto.
Qed.

End ValidationFacts.

Lemma validate_insert_data_rejects_unknown_column_witness :
  exists msg,
    Demo.validate_insert_data "public" "tickets"
                              [("priority", VInt 5); ("colour", VStr "red")]
                              Demo.world
    = (Ok (false, Some msg), Demo.world).
Proof.
  apply (@validate_insert_data_rejects_unknown_column nat Demo.db_down
           Demo.path_exists Demo.parse_dump "public" "tickets"
           [("priority", VInt 5); ("colour", VStr "red")] Demo.world
           [("orders", Demo.orders); ("tickets", Demo.tickets)] Demo.tickets
           "colour"); reflexivity.
Defined.

(** ** Schema drift *)

Lemma set_is_not_empty {V : Type} (k : string) (v : V) (d : dict V) :
  Dict.set k v d <> [].
Proof.
  destruct d as [| [k' v'] d]; simpl; [discriminate |].
  destruct (String.eqb k' k); discriminate.
Qed.

(** A column, a table and a schema of this registry that the other
    registry has as well, with the same type and nullability for the
    column. *)
Local Abbreviation column_agrees other_columns c info :=
  (exists info' : Registry.ColumnInfo,
      Dict.get c other_columns = Some info'
      /\ Registry.col_type info = Registry.col_type info'
      /\ Registry.nullable info = Registry.nullable info').

Local Abbreviation table_agrees other_tables table self_table :=
  (exists other_table : Registry.TableSchema,
      Dict.get table other_tables = Some other_table
      /\ forall c info,
          In (c, info) (Registry.columns self_table) ->
          column_agrees (Registry.columns other_table) c info).

Local Abbreviation schema_agrees other_schemas schema self_tables :=
  (exists other_tables : dict Registry.TableSchema,
      Dict.get schema other_schemas = Some other_tables
      /\ forall table self_table,
          In (table, self_table) self_tables ->
          table_agrees other_tables table self_table).

Lemma compare_columns_clean (key : string)
      (other_columns self_columns : dict Registry.ColumnInfo) :
  forall d : Registry.Differences,
    Registry.compare_columns key self_columns other_columns d
    = Registry.no_differences
    <-> d = Registry.no_differences
        /\ forall c info, In (c, info) self_columns ->
                          column_agrees other_columns c info.
Proof.
  induction self_columns as [| [c info] cols IH]; intros d.
  - simpl. split; [intros ->; split; [reflexivity | intros ? ? []] | tauto].
  - cbn [Registry.compare_columns].
    destruct (Dict.get c other_columns) as [info' |] eqn:Eget.
    + destruct (Registry.col_type info =? Registry.col_type info') eqn:Et;
        destruct (Bool.eqb (Registry.nullable info) (Registry.nullable info'))
          eqn:En; cbn [negb]; rewrite IH; clear IH.
      * apply String.eqb_eq in Et. apply Bool.eqb_prop in En.
        split; intros [Hd Hall]; (split; [exact Hd |]).
        -- intros c' i' [Heq | Hin]; [| now apply Hall].
           inversion Heq; subst. eauto.
        -- intros c' i' Hin. apply Hall. now right.
      * split; [intros [Hd _] | intros [_ Hall]]; exfalso.
        -- pose proof (f_equal Registry.constraint_differences Hd) as Hx.
           exact (set_is_not_empty _ _ _ Hx).
        -- destruct (Hall c info (or_introl eq_refl)) as [i [Hi [_ Hn]]].
           rewrite Eget in Hi. inversion Hi; subst i.
           rewrite Hn, Bool.eqb_reflx in En. discriminate.
      * split; [intros [Hd _] | intros [_ Hall]]; exfalso.
        -- pose proof (f_equal Registry.type_differences Hd) as Hx.
           exact (set_is_not_empty _ _ _ Hx).
        -- destruct (Hall c info (or_introl eq_refl)) as [i [Hi [Ht _]]].
           rewrite Eget in Hi. inversion Hi; subst i.
           rewrite Ht, String.eqb_refl in Et. discriminate.
      * split; [intros [Hd _] | intros [_ Hall]]; exfalso.
        -- pose proof (f_equal Registry.constraint_differences Hd) as Hx.
           exact (set_is_not_empty _ _ _ Hx).
        -- destruct (Hall c info (or_introl eq_refl)) as [i [Hi [Ht _]]].
           rewrite Eget in Hi. inversion Hi; subst i.
           rewrite Ht, String.eqb_refl in Et. discriminate.
    + rewrite IH. clear IH.
      split; [intros [Hd _] | intros [_ Hall]]; exfalso.
      * pose proof (f_equal Registry.missing_columns Hd) as Hx.
        exact (set_is_not_empty _ _ _ Hx).
      * destruct (Hall c info (or_introl eq_refl)) as [i [Hi _]].
        congruence.
Qed.

Lemma compare_tables_clean (schema : string)
      (other_tables self_tables : dict Registry.TableSchema) :
  forall d : Registry.Differences,
    Registry.compare_tables schema self_tables other_tables d
    = Registry.no_differences
    <-> d = Registry.no_differences
        /\ forall table self_table,
            In (table, self_table) self_tables ->
            table_agrees other_tables table self_table.
Proof.
  induction self_tables as [| [table self_table] rest IH]; intros d.
  - simpl. split; [intros ->; split; [reflexivity | intros ? ? []] | tauto].
  - cbn [Registry.compare_tables].
    destruct (Dict.get table other_tables) as [other_table |] eqn:Eget;
      rewrite IH; clear IH.
    + rewrite compare_columns_clean.
      split.
      * intros [[Hd Hcols] Hall]. split; [exact Hd |].
        intros t' s' [Heq | Hin]; [| now apply Hall].
        inversion Heq; subst. eauto.
      * intros [Hd Hall]. split; [split; [exact Hd |] |].
        -- destruct (Hall table self_table (or_introl eq_refl))
             as [o [Ho Hcols]].
           rewrite Eget in Ho. inversion Ho; subst o. exact Hcols.
        -- intros t' s' Hin. apply Hall. now right.
    + split; [intros [Hd _] | intros [_ Hall]]; exfalso.
      * pose proof (f_equal Registry.missing_tables Hd) as Hx.
        exact (set_is_not_empty _ _ _ Hx).
      * destruct (Hall table self_table (or_introl eq_refl)) as [o [Ho _]].
        congruence.
Qed.

Lemma compare_caches_clean (other_schemas self_schemas : Registry.Cache) :
  forall d : Registry.Differences,
    Registry.compare_caches self_schemas other_schemas d
    = Registry.no_differences
    <-> d = Registry.no_differences
        /\ forall schema self_tables,
            In (schema, self_tables) self_schemas ->
            schema_agrees other_schemas schema self_tables.
Proof.
  induction self_schemas as [| [schema self_tables] rest IH]; intros d.
  - simpl. split; [intros ->; split; [reflexivity | intros ? ? []] | tauto].
  - cbn [Registry.compare_caches].
    destruct (Dict.get schema other_schemas) as [other_tables |] eqn:Eget;
      rewrite IH; clear IH.
    + rewrite compare_tables_clean.
      split.
      * intros [[Hd Htabs] Hall]. split; [exact Hd |].
        intros s' t' [Heq | Hin]; [| now apply Hall].
        inversion Heq; subst. eauto.
      * intros [Hd Hall]. split; [split; [exact Hd |] |].
        -- destruct (Hall schema self_tables (or_introl eq_refl))
             as [o [Ho Htabs]].
           rewrite Eget in Ho. inversion Ho; subst o. exact Htabs.
        -- intros s' t' Hin. apply Hall. now right.
    + split; [intros [Hd _] | intros [_ Hall]]; exfalso.
      * pose proof (f_equal Registry.missing_schemas Hd) as Hx.
        cbn in Hx. unfold append in Hx.
        destruct (Registry.missing_schemas d); discriminate.
      * destruct (Hall schema self_tables (or_introl eq_refl)) as [o [Ho _]].
        congruence.
Qed.

(** X21. [_compare_schemas] reports nothing exactly when every schema, table
    and column of this registry is in the other registry, the column
    with the same type and the same nullability.  What only the other
    registry has is not looked at. *)
Theorem compare_schemas_reports_nothing_iff_contained
        (self other : Registry.SchemaRegistry Registry.Cache) :
  Registry._compare_schemas self other = Registry.no_differences
  <-> forall schema self_tables,
        In (schema, self_tables) (Registry.table_schemas self) ->
        exists other_tables,
          Dict.get schema (Registry.table_schemas other) = Some other_tables
          /\ forall table self_table,
              In (table, self_table) self_tables ->
              exists other_table,
                Dict.get table other_tables = Some other_table
                /\ forall c info,
                    In (c, info) (Registry.columns self_table) ->
                    exists info',
                      Dict.get c (Registry.columns other_table) = Some info'
                      /\ Registry.col_type info = Registry.col_type info'
                      /\ Registry.nullable info = Registry.nullable info'.
Proof.
  unfold Registry._compare_schemas. rewrite compare_caches_clean.
  split; [intros [_ H]; exact H | intros H; split; [reflexivity | exact H]].
Qed.

(** X22. A registry shows no drift against itself, nor against a registry
    that holds the same cache. *)
Theorem compare_schemas_with_itself
        (self other : Registry.SchemaRegistry Registry.Cache) :
  cache_wf (Registry.table_schemas self) ->
  Registry.table_schemas other = Registry.table_schemas self ->
  Registry._compare_schemas self other = Registry.no_differences.
Proof.
  intros [Hwf Hall] Hsame. unfold Registry._compare_schemas.
  rewrite Hsame. apply compare_caches_clean. split; [reflexivity |].
  intros schema tables Hin.
  exists tables. split; [now apply get_of_in |].
  rewrite Forall_forall in Hall.
  destruct (Hall _ Hin) as [Hwft Htabs]. cbn [snd] in Hwft, Htabs.
  intros table ts Hint. exists ts. split; [now apply get_of_in |].
  rewrite Forall_forall in Htabs.
  destruct (Htabs _ Hint) as [Hwfc _]. cbn [snd] in Hwfc.
  intros c info Hinc. exists info. split; [now apply get_of_in | auto].
Qed.

Lemma compare_schemas_with_itself_witness :
  Registry._compare_schemas Demo.registry Demo.registry
  = Registry.no_differences.
Proof.
  apply (@compare_schemas_with_itself Demo.registry Demo.registry).
  - exact demo_cache_wf.
  - reflexivity.
Defined.

(** ** Table references and queries *)

Lemma name_char_facts (c : ascii) :
  Reading.is_name_char c = true ->
  Ascii.eqb c "." = false /\ PyStr.is_space c = false
  /\ Registry.is_ref_char c = true /\ PyStr.lower_char c = c.
Proof.
  destruct c as [[] [] [] [] [] [] [] []]; intros H;
    try discriminate H; repeat split.
Qed.

Lemma split_plain_name (s : string) :
  Reading.plain_name s = true -> PyStr.split "." s = [s].
Proof.
  induction s as [| c s IH]; [reflexivity |].
  cbn [Reading.plain_name PyStr.split]. intros H.
  apply andb_true_iff in H. destruct H as [Hc Hs].
  destruct (@name_char_facts c Hc) as [Hdot _].
  rewrite Hdot, (IH Hs). reflexivity.
Qed.

Lemma split_dotted_name (s t : string) :
  Reading.plain_name s = true ->
  PyStr.split "." (s ++ "." ++ t) = s :: PyStr.split "." t.
Proof.
  induction s as [| c s IH]; [reflexivity |].
  cbn [Reading.plain_name PyStr.split String.append]. intros H.
  apply andb_true_iff in H. destruct H as [Hc Hs].
  destruct (@name_char_facts c Hc) as [Hdot _].
  rewrite Hdot. cbn [String.append] in IH. rewrite (IH Hs). reflexivity.
Qed.

Lemma contains_dot_plain_name (s : string) :
  Reading.plain_name s = true -> PyStr.contains "." s = false.
Proof.
  induction s as [| c s IH]; [reflexivity |].
  cbn [Reading.plain_name]. intros H.
  apply andb_true_iff in H. destruct H as [Hc Hs].
  destruct (@name_char_facts c Hc) as [Hdot _].
  cbn [PyStr.contains]. rewrite (IH Hs), orb_false_r.
  destruct c as [[] [] [] [] [] [] [] []]; try reflexivity; discriminate Hdot.
Qed.

Lemma contains_dot_dotted (s t : string) :
  PyStr.contains "." (s ++ "." ++ t) = true.
Proof.
  induction s as [| c s IH]; [destruct t; reflexivity |].
  cbn [String.append PyStr.contains]. cbn [String.append] in IH.
  rewrite IH. apply orb_true_r.
Qed.

Lemma split_after_dot (s t : string) :
  1 + List.length (PyStr.split "." t)
  <= List.length (PyStr.split "." (s ++ "." ++ t)).
Proof.
  induction s as [| c s IH].
  - rewrite (@split_dotted_name "" t eq_refl). cbn [List.length]. lia.
  - change (PyStr.split "." (String c s ++ "." ++ t))
      with (if Ascii.eqb c "."
            then "" :: PyStr.split "." (s ++ "." ++ t)
            else match PyStr.split "." (s ++ "." ++ t) with
                 | w :: ws => String c w :: ws
                 | [] => [String c ""]
                 end).
    destruct (Ascii.eqb c "."); [cbn [List.length]; lia |].
    destruct (PyStr.split "." (s ++ "." ++ t));
      cbn [List.length] in *; lia.
Qed.

(** X23. [_parse_table_reference] takes a dotted reference apart into the two
    names it was made of, puts an undotted name in the schema [public],
    and raises on a reference with two dots. *)
Theorem parse_table_reference_round_trip (schema table : string) :
  Reading.plain_name schema = true ->
  Reading.plain_name table = true ->
  Registry._parse_table_reference (schema ++ "." ++ table)
  = Ok (schema, table)
  /\ Registry._parse_table_reference table = Ok ("public", table)
  /\ forall database : string,
      exists msg,
        Registry._parse_table_reference
          (database ++ "." ++ schema ++ "." ++ table)
        = Raise (ValueError msg).
Proof.
  intros Hs Ht. unfold Registry._parse_table_reference.
  split; [| split].
  - rewrite contains_dot_dotted, (@split_dotted_name schema table Hs),
      (@split_plain_name table Ht). reflexivity.
  - now rewrite (@contains_dot_plain_name table Ht).
  - intros database. rewrite contains_dot_dotted.
    pose proof (split_after_dot database (schema ++ "." ++ table)) as H.
    rewrite (@split_dotted_name schema table Hs),
      (@split_plain_name table Ht) in H.
    cbn [List.length] in H.
    destruct (PyStr.split "." (database ++ "." ++ schema ++ "." ++ table))
      as [| a [| b [| c rest]]]; cbn [List.length] in H; try lia.
    eauto.
Qed.

Lemma parse_table_reference_round_trip_witness :
  Registry._parse_table_reference "public.tickets" = Ok ("public", "tickets")
  /\ Registry._parse_table_reference "tickets" = Ok ("public", "tickets")
  /\ forall database : string,
      exists msg,
        Registry._parse_table_reference
          (database ++ "." ++ "public" ++ "." ++ "tickets")
        = Raise (ValueError msg).
Proof.
  apply (@parse_table_reference_round_trip "public" "tickets"); reflexivity.
Defined.

Lemma split_ws_from_plain (s rest : string) :
  Reading.plain_name s = true ->
  PyStr.split_ws_from (s ++ rest)
  = (s ++ fst (PyStr.split_ws_from rest), snd (PyStr.split_ws_from rest)).
Proof.
  induction s as [| c s IH]; intros H.
  - cbn [String.append]. now destruct (PyStr.split_ws_from rest).
  - cbn [Reading.plain_name] in H. apply andb_true_iff in H.
    destruct H as [Hc Hs].
    destruct (@name_char_facts c Hc) as [_ [Hsp _]].
    cbn [String.append PyStr.split_ws_from]. cbn [String.append] in IH.
    rewrite (IH Hs), Hsp. reflexivity.
Qed.

Lemma lower_plain (s : string) :
  Reading.plain_name s = true -> PyStr.lower s = s.
Proof.
  induction s as [| c s IH]; [reflexivity |]. cbn [Reading.plain_name].
  intros H. apply andb_true_iff in H. destruct H as [Hc Hs].
  destruct (@name_char_facts c Hc) as [_ [_ [_ Hl]]].
  cbn [PyStr.lower]. now rewrite Hl, (IH Hs).
Qed.

Lemma lower_append (a b : string) :
  PyStr.lower (a ++ b) = PyStr.lower a ++ PyStr.lower b.
Proof. induction a; simpl; [reflexivity | now rewrite IHa]. Qed.

Lemma ref_run_plain (s rest : string) :
  Reading.plain_name s = true ->
  Registry.ref_run (s ++ rest) = s ++ Registry.ref_run rest.
Proof.
  induction s as [| c s IH]; [reflexivity |]. cbn [Reading.plain_name].
  intros H. apply andb_true_iff in H. destruct H as [Hc Hs].
  destruct (@name_char_facts c Hc) as [_ [_ [Hr _]]].
  cbn [String.append Registry.ref_run]. cbn [String.append] in IH.
  now rewrite Hr, (IH Hs).
Qed.

Lemma lstrip_plain (s rest : string) :
  Reading.plain_name s = true ->
  PyStr.lstrip (s ++ String "." rest) = s ++ String "." rest.
Proof.
  destruct s as [| c s]; [reflexivity |]. cbn [Reading.plain_name].
  intros H. apply andb_true_iff in H. destruct H as [Hc Hs].
  destruct (@name_char_facts c Hc) as [_ [Hsp _]].
  cbn [String.append PyStr.lstrip]. now rewrite Hsp.
Qed.

(** A text that is empty or goes on after white space. *)
Local Abbreviation ends_word tail :=
  (tail = "" \/ exists c r, tail = String c r /\ PyStr.is_space c = true).

Lemma ends_word_facts (tail : string) :
  ends_word tail ->
  fst (PyStr.split_ws_from tail) = ""
  /\ Registry.ref_run (PyStr.lower tail) = "".
Proof.
  intros [-> | [c [r [-> Hc]]]]; [split; reflexivity |].
  cbn [PyStr.split_ws_from PyStr.lower Registry.ref_run]. rewrite Hc.
  split; [now destruct (PyStr.split_ws_from r) |].
  destruct c as [[] [] [] [] [] [] [] []]; try discriminate Hc; reflexivity.
Qed.

Lemma re_search_skip (pattern : string -> option string)
      (c : ascii) (r : string) :
  pattern (String c r) = None ->
  Registry.re_search pattern (String c r) = Registry.re_search pattern r.
Proof. intros H. cbn [Registry.re_search]. now rewrite H. Qed.

Lemma re_search_here (pattern : string -> option string)
      (text group : string) :
  pattern text = Some group ->
  Registry.re_search pattern text = Some group.
Proof. intros H. destruct text; cbn [Registry.re_search]; now rewrite H. Qed.

Lemma search_select_text (schema table rest : string) :
  Reading.plain_name schema = true ->
  Reading.plain_name table = true ->
  Registry.ref_run rest = "" ->
  Registry.re_search Registry.select_pattern
    ("select * from " ++ schema ++ "." ++ table ++ rest)
  = Some (schema ++ "." ++ table).
Proof.
  intros Hs Ht Hrest.
  assert (Hrun : Registry.ref_run (schema ++ "." ++ table ++ rest)
                 = schema ++ "." ++ table).
  { rewrite (@ref_run_plain schema _ Hs).
    change (Registry.ref_run ("." ++ table ++ rest))
      with (String "." (Registry.ref_run (table ++ rest))).
    rewrite (@ref_run_plain table _ Ht), Hrest, string_append_empty.
    reflexivity. }
  assert (Hhere : Registry.table_ref_here
                    (PyStr.lstrip (schema ++ "." ++ table ++ rest))
                  = Some (schema ++ "." ++ table)).
  { change (schema ++ "." ++ table ++ rest)
      with (schema ++ String "." (table ++ rest)).
    rewrite (@lstrip_plain schema _ Hs).
    unfold Registry.table_ref_here.
    change (schema ++ String "." (table ++ rest))
      with (schema ++ "." ++ table ++ rest).
    rewrite Hrun. destruct schema; reflexivity. }
  change ("select * from " ++ schema ++ "." ++ table ++ rest)
    with (String "s" (String "e" (String "l" (String "e" (String "c"
            (String "t" (String " " (String "*" (String " "
               (String "f" (String "r" (String "o" (String "m" (String " "
                  (schema ++ "." ++ table ++ rest))))))))))))))).
  do 9 (rewrite re_search_skip by reflexivity).
  rewrite re_search_here with (group := schema ++ "." ++ table);
    [reflexivity |].
  exact Hhere.
Qed.

Lemma split_ws_from_char (c : ascii) (r : string) :
  PyStr.is_space c = false ->
  PyStr.split_ws_from (String c r)
  = (String c (fst (PyStr.split_ws_from r)), snd (PyStr.split_ws_from r)).
Proof.
  intros H. cbn [PyStr.split_ws_from]. rewrite H.
  now destruct (PyStr.split_ws_from r).
Qed.

Lemma split_ws_from_space (c : ascii) (r : string) :
  PyStr.is_space c = true ->
  PyStr.split_ws_from (String c r)
  = ("", PyStr.push_word (fst (PyStr.split_ws_from r))
                         (snd (PyStr.split_ws_from r))).
Proof.
  intros H. cbn [PyStr.split_ws_from]. rewrite H.
  now destruct (PyStr.split_ws_from r).
Qed.

(** X24. The mock layer reads back the table out of the [SELECT] text the
    operator writes: for plain schema and table names,
    [_extract_table_from_query] on [SELECT * FROM schema.table],
    followed by nothing or by white space and any further clauses,
    gives that schema and that table. *)
Theorem extract_table_from_select_text (schema table tail : string) :
  Reading.plain_name schema = true ->
  Reading.plain_name table = true ->
  ends_word tail ->
  Registry._extract_table_from_query
    ("SELECT * FROM " ++ schema ++ "." ++ table ++ tail)
  = Ok (schema, table).
Proof.
  intros Hs Ht Htail.
  destruct (ends_word_facts Htail) as [Hfst _].
  assert (Hinner : PyStr.split_ws_from (schema ++ "." ++ table ++ tail)
                   = (schema ++ "." ++ table,
                      snd (PyStr.split_ws_from tail))).
  { rewrite (@split_ws_from_plain schema _ Hs).
    change ("." ++ table ++ tail) with (String "." (table ++ tail)).
    rewrite split_ws_from_char by reflexivity.
    rewrite (@split_ws_from_plain table _ Ht). cbn [fst snd].
    rewrite Hfst, string_append_empty. reflexivity. }
  assert (Hwords : PyStr.split_ws
                     ("SELECT * FROM " ++ schema ++ "." ++ table ++ tail)
                   = "SELECT" :: "*" :: "FROM" :: (schema ++ "." ++ table)
                       :: snd (PyStr.split_ws_from tail)).
  { unfold PyStr.split_ws.
    change ("SELECT * FROM " ++ schema ++ "." ++ table ++ tail)
      with (String "S" (String "E" (String "L" (String "E" (String "C"
              (String "T" (String " " (String "*" (String " "
                 (String "F" (String "R" (String "O" (String "M" (String " "
                    (schema ++ "." ++ table ++ tail))))))))))))))).
    repeat first [ rewrite split_ws_from_char by reflexivity
                 | rewrite split_ws_from_space by reflexivity ].
    rewrite Hinner. cbn [fst snd PyStr.push_word].
    destruct schema; reflexivity. }
  assert (Hlower : PyStr.lower (schema ++ "." ++ table)
                   = schema ++ "." ++ table).
  { rewrite !lower_append, (@lower_plain schema Hs), (@lower_plain table Ht).
    reflexivity. }
  assert (Hparse : Registry._parse_table_reference (schema ++ "." ++ table)
                   = Ok (schema, table)).
  { unfold Registry._parse_table_reference.
    rewrite contains_dot_dotted, (@split_dotted_name schema table Hs),
      (@split_plain_name table Ht). reflexivity. }
  unfold Registry._extract_table_from_query. rewrite Hwords.
  destruct (snd (PyStr.split_ws_from tail)) as [| w ws].
  - change (PyStr.join " " ["SELECT"; "*"; "FROM"; schema ++ "." ++ table])
      with ("SELECT * FROM " ++ schema ++ "." ++ table).
    rewrite lower_append, Hlower.
    change (PyStr.lower "SELECT * FROM ") with "select * from ".
    rewrite <- (string_append_empty table) at 1.
    rewrite (@search_select_text schema table "" Hs Ht eq_refl).
    exact Hparse.
  - change (PyStr.join " " ("SELECT" :: "*" :: "FROM"
                              :: (schema ++ "." ++ table) :: w :: ws))
      with ("SELECT * FROM "
              ++ (schema ++ "." ++ table) ++ " " ++ PyStr.join " " (w :: ws)).
    rewrite !lower_append, (@lower_plain schema Hs), (@lower_plain table Ht).
    change (PyStr.lower "SELECT * FROM ") with "select * from ".
    change (PyStr.lower "." ) with ".".
    change (PyStr.lower " ") with " ".
    rewrite !string_app_assoc.
    set (clauses := PyStr.lower (PyStr.join " " (w :: ws))).
    rewrite (@search_select_text schema table (" " ++ clauses) Hs Ht
               eq_refl).
    exact Hparse.
Qed.

Lemma extract_table_from_select_text_witness :
  Registry._extract_table_from_query
    ("SELECT * FROM " ++ "public" ++ "." ++ "tickets"
       ++ " WHERE priority = $1 LIMIT $2")
  = Ok ("public", "tickets").
Proof.
  apply (@extract_table_from_select_text "public" "tickets"
           " WHERE priority = $1 LIMIT $2"); try reflexivity.
  right. exists " "%char, "WHERE priority = $1 LIMIT $2". now split.
Defined.


Section QueryResultFacts.

Variable Rng : Type.
Variable random_bits : Rng -> N * Rng.
Variable db_extract : Registry.Cache -> Registry.Cache * option string.
Variable path_exists : string -> bool.
Variable parse_dump :
  string -> Registry.Cache -> Registry.Cache * option string.
Variable clock : Registry.Clock.

Local Abbreviation World := (Registry.World Registry.Cache Rng).
Local Abbreviation generate_mock_query_result :=
  (Registry.generate_mock_query_result random_bits db_extract path_exists
                                       parse_dump clock).

(** X25. [generate_mock_query_result] never raises.  When no table can be
    read out of the query it returns the one warning record, with the
    query in it, and touches nothing; when a table is found it returns
    as many rows as asked for, and between one and five rows when no
    number is given. *)
Theorem generate_mock_query_result_never_raises
        (query : string) (params : option (list pyval))
        (row_count : option Z) (w : World) :
  exists rows w',
    generate_mock_query_result query params row_count w = (Ok rows, w')
    /\ (forall e,
           Registry._extract_table_from_query query = Raise e ->
           rows = [[("mock_warning",
                     VStr "Could not extract schema information from query");
                    ("query", VStr query); ("mock_data", VBool true)]]
           /\ w' = w)
    /\ (forall st,
           Registry._extract_table_from_query query = Ok st ->
           match row_count with
           | Some n => List.length rows = Z.to_nat n
           | None => 1 <= List.length rows <= 5
           end).
Proof.
  unfold Registry.generate_mock_query_result, try_except, bind at 1, lift.
  destruct (Registry._extract_table_from_query query)
    as [[schema table] | e].
  - assert (Hrows : forall (n : Z) (w0 : World),
               exists rows w',
                 Registry.generate_rows random_bits db_extract path_exists
                   parse_dump clock schema table n None w0 = (Ok rows, w')
                 /\ List.length rows = Z.to_nat n).
    { intros n w0. unfold Registry.generate_rows.
      destruct (@rows_loop_returns Rng random_bits db_extract path_exists
                  parse_dump clock schema table None (Z.to_nat n)
                  ltac:(discriminate) [] w0)
        as [more [w' [E [Hlen _]]]].
      exists more, w'. split; [exact E | exact Hlen]. }
    destruct row_count as [n |].
    + unfold bind, ret. destruct (Hrows n w) as [rows [w' [E Hlen]]].
      rewrite E. exists rows, w'. split; [reflexivity |].
      split; [discriminate | intros _ _; exact Hlen].
    + unfold bind at 1.
      destruct (@yields_randint Rng random_bits 1 5 ltac:(lia) w)
        as [n [w1 [E1 [_ Hn]]]].
      rewrite E1. destruct (Hrows n w1) as [rows [w' [E Hlen]]].
      rewrite E. exists rows, w'. split; [reflexivity |].
      split; [discriminate | intros _ _; lia].
  - eexists _, _. split; [reflexivity |].
    split; [intros e' _; split; reflexivity | discriminate].
Qed.

End QueryResultFacts.


(** *** The order of the patterns *)

Lemma drop_nil (n : nat) : drop n "" = "".
Proof. destruct n; reflexivity. Qed.

Lemma drop_succ (n : nat) (c : ascii) (r : string) :
  drop (S n) (String c r) = drop n r.
Proof. reflexivity. Qed.

Lemma drop_drop (m n : nat) (s : string) :
  drop m (drop n s) = drop (n + m) s.
Proof.
  revert s. induction n as [| n IH]; intros s; [reflexivity |].
  destruct s as [| c r]; [now rewrite !drop_nil |].
  cbn [Nat.add]. rewrite !drop_succ. apply IH.
Qed.

Lemma re_search_none (pattern : string -> option string) (text : string) :
  Registry.re_search pattern text = None ->
  forall n, pattern (drop n text) = None.
Proof.
  induction text as [| c r IH]; cbn [Registry.re_search].
  - destruct (pattern "") eqn:E; [discriminate |].
    intros _ n. now rewrite drop_nil.
  - destruct (pattern (String c r)) eqn:E; [discriminate |].
    intros H [| n]; [exact E |]. rewrite drop_succ. now apply IH.
Qed.

Lemma after_prefix_is_drop (word text rest : string) :
  Registry.after_prefix word text = Some rest ->
  rest = drop (String.length word) text.
Proof.
  revert text. induction word as [| a word IH]; intros text.
  - cbn. intros H. now inversion H.
  - destruct text as [| b text]; cbn [Registry.after_prefix];
      [discriminate |].
    destruct (Ascii.eqb a b); [| discriminate].
    intros H. cbn [String.length]. rewrite drop_succ. now apply IH.
Qed.

Lemma lstrip_is_drop (s : string) : exists n, PyStr.lstrip s = drop n s.
Proof.
  induction s as [| c r [n IH]]; [exists 0; reflexivity |].
  cbn [PyStr.lstrip]. destruct (PyStr.is_space c).
  - exists (S n). now rewrite drop_succ.
  - exists 0. reflexivity.
Qed.

(** Where the [DELETE] pattern matches, the [SELECT] pattern matches
    further on, at the [from]. *)
Lemma delete_match_has_from (text group : string) :
  Registry.delete_pattern text = Some group ->
  exists n, Registry.select_pattern (drop n text) = Some group.
Proof.
  unfold Registry.delete_pattern, Registry.keyword at 1.
  destruct (Registry.after_prefix "delete" text) as [r |] eqn:E;
    [| discriminate].
  apply after_prefix_is_drop in E. unfold Registry.spaces_then.
  destruct r as [| c r1]; [discriminate |].
  destruct (PyStr.is_space c); [| discriminate].
  destruct (lstrip_is_drop r1) as [m Hm]. rewrite Hm.
  fold Registry.select_pattern. intros H.
  exists (String.length "delete" + 1 + m).
  rewrite <- drop_drop, <- drop_drop, <- E. exact H.
Qed.

Lemma delete_pattern_after_select (text : string) :
  Registry.re_search Registry.select_pattern text = None ->
  Registry.re_search Registry.delete_pattern text = None.
Proof.
  intros Hsel. pose proof (re_search_none _ _ Hsel) as Hnone. clear Hsel.
  induction text as [| c r IH]; cbn [Registry.re_search].
  - reflexivity.
  - destruct (Registry.delete_pattern (String c r)) as [g |] eqn:E.
    + destruct (delete_match_has_from _ E) as [n Hn].
      rewrite Hnone in Hn. discriminate.
    + apply IH. intros n. specialize (Hnone (S n)).
      now rewrite drop_succ in Hnone.
Qed.

(** X26. The [DELETE] branch of [_extract_table_from_query] is never what
    answers: a query in which [delete from <table>] can be found has a
    [from <table>] in it, which the first pattern finds.  The function
    is the one with three patterns. *)
Theorem extract_table_delete_branch_is_dead (query : string) :
  Registry._extract_table_from_query query
  = let text := PyStr.lower (PyStr.join " " (PyStr.split_ws query)) in
    match Registry.re_search Registry.select_pattern text with
    | Some table_ref => Registry._parse_table_reference table_ref
    | None =>
        match Registry.re_search Registry.insert_pattern text with
        | Some table_ref => Registry._parse_table_reference table_ref
        | None =>
            match Registry.re_search Registry.update_pattern text with
            | Some table_ref => Registry._parse_table_reference table_ref
            | None =>
                Raise (ValueError
                         ("Could not extract table from query: " ++ text))
            end
        end
    end.
Proof.
  unfold Registry._extract_table_from_query. cbv zeta.
  destruct (Registry.re_search Registry.select_pattern _) eqn:Esel;
    [reflexivity |].
  now rewrite (delete_pattern_after_select _ Esel).
Qed.

(** ** Registry life cycle *)

Section LifecycleMore.

Variable C : Type.
Variable Rng : Type.
Variable db_extract : C -> C * option string.
Variable path_exists : string -> bool.
Variable parse_dump : string -> C -> C * option string.

Local Abbreviation initialize :=
  (Registry.initialize (Rng := Rng) db_extract path_exists parse_dump).

(** X27. A failed [initialize] leaves the registry uninitialized, so that the
    next call reads the source again.  The error tells the source: a
    [RuntimeError] from the live catalog, a [ValueError] from a dump
    file, and for any other source name the [ValueError] that names it,
    raised before anything is read. *)
Theorem initialize_failure_leaves_uninitialized
        (w w1 : Registry.World C Rng) (e : exn) :
  initialize w = (Raise e, w1) ->
  Registry.initialized (Registry.self w1) = false
  /\ Registry.schema_source (Registry.self w1)
     = Registry.schema_source (Registry.self w)
  /\ ((Registry.schema_source (Registry.self w) = "db"
       /\ exists reason,
           e = RuntimeError ("Failed to load schema from database: "
                               ++ reason))
      \/ (Registry.schema_source (Registry.self w) = "file"
          /\ exists msg, e = ValueError msg)
      \/ (e = ValueError ("Unsupported schema source: "
                            ++ Registry.schema_source (Registry.self w))
          /\ w1 = w)).
Proof.
  unfold Registry.initialize.
  destruct (Registry.initialized (Registry.self w)) eqn:Hflag;
    [discriminate |].
  unfold bind.
  destruct (Registry.schema_source (Registry.self w) =? "db") eqn:Edb.
  - apply String.eqb_eq in Edb. unfold Registry._load_schema_from_db.
    destruct (db_extract _) as [c [reason |]]; [| discriminate].
    intros H. inversion H; subst. cbn. split; [exact Hflag |].
    split; [reflexivity |]. left. eauto.
  - destruct (Registry.schema_source (Registry.self w) =? "file") eqn:Efile.
    + apply String.eqb_eq in Efile. unfold Registry._load_schema_from_file.
      destruct (Registry.schema_file (Registry.self w)) as [[| ch path] |].
      * intros H. inversion H; subst. split; [exact Hflag |].
        split; [reflexivity |]. right. left. eauto.
      * destruct (path_exists (String ch path)).
        -- destruct (parse_dump _ _) as [c [reason |]]; [| discriminate].
           intros H. inversion H; subst. cbn. split; [exact Hflag |].
           split; [reflexivity |]. right. left. eauto.
        -- intros H. inversion H; subst. split; [exact Hflag |].
           split; [reflexivity |]. right. left. eauto.
      * intros H. inversion H; subst. split; [exact Hflag |].
        split; [reflexivity |]. right. left. eauto.
    + unfold raise. intros H. inversion H; subst.
      split; [exact Hflag |]. split; [reflexivity |]. right. right.
      now split.
Qed.

End LifecycleMore.

(** The catalog is down: the registry stays uninitialized. *)
Lemma initialize_failure_leaves_uninitialized_witness :
  exists w1,
    Registry.initialize Demo.db_down Demo.path_exists Demo.parse_dump
                        Demo.fresh_world
    = (Raise (RuntimeError
                "Failed to load schema from database: connection refused"),
       w1)
    /\ Registry.initialized (Registry.self w1) = false.
Proof.
  eexists. split; [reflexivity |].
  refine (proj1 (@initialize_failure_leaves_uninitialized
                   Registry.Cache nat Demo.db_down Demo.path_exists
                   Demo.parse_dump Demo.fresh_world _ _ _)).
  reflexivity.
Defined.

(** ** More on the operator *)

Lemma set_fresh_key {V : Type} (k : string) (v : V) (d : dict V) :
  ~ In k (Dict.keys d) -> Dict.set k v d = app d [(k, v)].
Proof.
  induction d as [| [k' v'] d IH]; simpl; intros H; [reflexivity |].
  destruct (String.eqb k' k) eqn:E.
  - apply String.eqb_eq in E. subst. exfalso. apply H. now left.
  - rewrite IH; [reflexivity |]. intros Hin. apply H. now right.
Qed.

Section OperatorReads.

Variable singular_noun : string -> option string.
Variable plural : string -> string.
Variable fromisoformat : string -> option string.
Variable json_loads : string -> option pyval.
Variable Conn : Type.
Variable execute :
  forall m : Operator.fetch_mode,
    string -> option (list pyval) -> option string -> Conn ->
    result (Operator.reply m) * Conn.

Local Abbreviation match_column :=
  (Resolver.match_column singular_noun plural).
Local Abbreviation mkColumnMatchError :=
  (Resolver.mkColumnMatchError singular_noun plural).
Local Abbreviation _format_record :=
  (Operator._format_record singular_noun plural fromisoformat).
Local Abbreviation format_loop :=
  (Operator.format_loop singular_noun plural fromisoformat).
Local Abbreviation _get_table_columns :=
  (Operator._get_table_columns execute).
Local Abbreviation connector_execute :=
  (Operator.connector_execute execute).
Local Abbreviation convert_value := (Operator.convert_value fromisoformat).
Local Abbreviation fetch :=
  (Operator.fetch singular_noun plural fromisoformat execute).
Local Abbreviation get_by_uuid :=
  (Operator.get_by_uuid singular_noun plural json_loads execute).

Local Abbreviation converted record :=
  (map (fun kv : string * pyval => (fst kv, convert_value (fst kv) (snd kv)))
       record).

Lemma format_loop_exact_keys (n : nat) (cols : list string) (items : row) :
  forall (acc : row) (unknown : list string),
    (forall k, In k (Dict.keys items) -> In k cols) ->
    NoDup (app (Dict.keys acc) (Dict.keys items)) ->
    format_loop n cols items acc unknown
    = Ok (app acc (converted items), unknown).
Proof.
  induction items as [| [k v] items IH]; intros acc unknown Hin Hnd.
  - simpl. now rewrite app_nil_r.
  - cbn [Operator.format_loop]. unfold Operator.match_column,
      Resolver.match_column.
    assert (Hk : PyStr.mem k cols = true).
    { apply mem_true_iff. apply Hin. simpl. now left. }
    rewrite Hk. cbn [Dict.keys map fst] in Hnd.
    assert (Hfresh : ~ In k (Dict.keys acc)).
    { apply NoDup_remove_2 in Hnd. intros H. apply Hnd.
      apply in_or_app. now left. }
    rewrite (@set_fresh_key _ k (convert_value k v) acc Hfresh), IH.
    + cbn [map fst snd]. now rewrite <- app_assoc.
    + intros k' Hk'. apply Hin. simpl. now right.
    + unfold Dict.keys. rewrite map_app. cbn [map fst].
      rewrite <- app_assoc. exact Hnd.
Qed.

(** X28. Without a list of allowed columns (none given, or an empty one)
    [_format_record] checks the record against its own keys: it never
    raises, keeps every key in its place, and only turns the timestamp
    texts under [created_at] and [updated_at] into datetimes. *)
Theorem format_record_without_catalog (record : row) :
  Dict.wf record ->
  _format_record record None None
  = Ok (converted record, Dict.keys record)
  /\ _format_record record None (Some [])
     = Ok (converted record, Dict.keys record).
Proof.
  intros Hwf.
  assert (Hloop : format_loop (List.length record) (Dict.keys record) record
                              [] []
                  = Ok (converted record, [])).
  { rewrite format_loop_exact_keys; [reflexivity | auto | exact Hwf]. }
  assert (Hkeys : Dict.keys (converted record) = Dict.keys record).
  { unfold Dict.keys. rewrite map_map. reflexivity. }
  unfold Operator._format_record. fold format_loop.
  rewrite Hloop, Hkeys. split; reflexivity.
Qed.

(** X29. [fetch] orders by the column the requested name resolves to, [DESC]
    after a leading dash and [ASC] otherwise; when the name does not
    resolve, the [ColumnMatchError] is raised before any [SELECT] is
    sent. *)
Theorem fetch_orders_by_resolved_column
        (table order_by schema : string)
        (op op' : Operator.DBOperator Conn) (cols : list string) :
  _get_table_columns table schema op = (Ok cols, op') ->
  order_by <> "" ->
  match match_column (fst (Operator.strip_leading_dash order_by)) cols false
  with
  | Ok c =>
      fetch table None (Some order_by) None None schema op
      = connector_execute Operator.FetchAll
          (PyStr.join " "
             ["SELECT * FROM " ++ schema ++ "." ++ table;
              "ORDER BY " ++ c ++ " "
                ++ (if snd (Operator.strip_leading_dash order_by)
                    then "DESC" else "ASC")])
          None None op'
  | Raise e =>
      fetch table None (Some order_by) None None schema op = (Raise e, op')
  end.
Proof.
  intros Hcols Hne.
  assert (Hrun :
    fetch table None (Some order_by) None None schema op
    = match match_column (fst (Operator.strip_leading_dash order_by)) cols
                         false with
      | Ok c =>
          connector_execute Operator.FetchAll
            (PyStr.join " "
               ["SELECT * FROM " ++ schema ++ "." ++ table;
                "ORDER BY " ++ c ++ " "
                  ++ (if snd (Operator.strip_leading_dash order_by)
                      then "DESC" else "ASC")])
            None None op'
      | Raise e => (Raise e, op')
      end).
  { unfold Operator.fetch, bind at 1. fold _get_table_columns.
    rewrite Hcols. unfold bind at 1, ret at 1.
    destruct order_by as [| ch rest]; [contradiction |].
    unfold bind at 1.
    destruct (Operator.strip_leading_dash (String ch rest)) as [ob desc].
    cbn [fst snd]. unfold bind at 1, lift, Operator.match_column.
    destruct (match_column ob cols false) as [c | e]; reflexivity. }
  destruct (match_column (fst (Operator.strip_leading_dash order_by)) cols
                         false); exact Hrun.
Qed.

Lemma match_column_is_first_suggestion
      (name : string) (available : list string) (c : string) (limit : nat) :
  match_column name available false = Ok c ->
  hd_error (Resolver.find_closest_matches singular_noun plural name available
                                          (S limit))
  = Some c.
Proof.
  unfold Resolver.match_column, Resolver.find_closest_matches.
  destruct (PyStr.mem name available); [intros H; now inversion H |].
  rewrite !find_is_head_of_filter.
  destruct (filter (Resolver.case_hit name) available) as [| c1 l1];
    [| intros H; now inversion H].
  destruct (filter (Resolver.plural_hit singular_noun plural name) available)
    as [| c2 l2]; [| intros H; now inversion H].
  destruct (filter (Resolver.convention_hit name) available) as [| c3 l3];
    [discriminate | intros H; now inversion H].
Qed.

(** X30. [get_by_uuid] takes a key column by its exact name only: a name
    that is not a column is refused with [ColumnMatchError] even when
    [match_column] would resolve it, before anything is asked of the
    table, and the message then suggests the column it resolves to. *)
Theorem get_by_uuid_wants_the_exact_column
        (table : string) (v : Operator.key_value)
        (uuid_column schema : string)
        (op op' : Operator.DBOperator Conn) (cols : list string)
        (c : string) :
  _get_table_columns table schema op = (Ok cols, op') ->
  ~ In uuid_column cols ->
  match_column uuid_column cols false = Ok c ->
  exists closest start,
    hd_error closest = Some c
    /\ get_by_uuid table v (Some uuid_column) schema op
       = (Raise (ColumnMatchError
                   uuid_column cols (Some schema) (Some table)
                   (start ++ ". Did you mean: "
                          ++ PyStr.join ", " closest ++ "?")),
          op').
Proof.
  intros Hcols Hnot Hc.
  pose proof (@match_column_is_first_suggestion uuid_column cols c 2 Hc)
    as Hhd.
  unfold Operator.get_by_uuid, bind at 1. fold _get_table_columns.
  rewrite Hcols. cbv zeta. apply mem_false_iff in Hnot. rewrite Hnot.
  cbn [negb]. unfold raise, Operator.mkColumnMatchError,
                Resolver.mkColumnMatchError.
  destruct (Resolver.find_closest_matches singular_noun plural uuid_column
              cols 3) as [| c0 more] eqn:E; [discriminate |].
  eexists (c0 :: more), _. split; [exact Hhd |]. reflexivity.
Qed.

End OperatorReads.

(** For a plain record. *)
Lemma format_record_without_catalog_witness :
  Operator._format_record Demo.singular_noun Demo.plural Demo.fromisoformat
    [("a", VInt 1); ("b", VNone)] None None
  = Ok ([("a", VInt 1); ("b", VNone)], ["a"; "b"]).
Proof.
  refine (proj1 (@format_record_without_catalog Demo.singular_noun
                   Demo.plural Demo.fromisoformat
                   [("a", VInt 1); ("b", VNone)] _)).
  unfold Dict.wf. simpl.
  repeat (constructor; [simpl; intuition discriminate |]). constructor.
Defined.

(** On the recording connection: newest first. *)
Lemma fetch_orders_by_resolved_column_witness :
  Operator.connector
    (snd (Operator.fetch Demo.singular_noun Demo.plural Demo.fromisoformat
            Demo.execute "t" None (Some "-ID") None None "public"
            Demo.operator))
  = [(Operator.columns_query, Some [VStr "public"; VStr "t"]);
     ("SELECT * FROM public.t ORDER BY id DESC", None)].
Proof.
  rewrite (@fetch_orders_by_resolved_column Demo.singular_noun Demo.plural
             Demo.fromisoformat Demo.Conn Demo.execute "t" "-ID" "public"
             Demo.operator Demo.warm_operator Demo.table_columns eq_refl).
  - reflexivity.
  - discriminate.
Defined.

(** On the recording connection: [ID] is not accepted for [id]. *)
Lemma get_by_uuid_wants_the_exact_column_witness :
  exists closest start,
    hd_error closest = Some "id"
    /\ Demo.get_by_uuid "t" (Operator.KeyText "7") (Some "ID") "public"
                        Demo.operator
       = (Raise (ColumnMatchError
                   "ID" Demo.table_columns (Some "public") (Some "t")
                   (start ++ ". Did you mean: "
                          ++ PyStr.join ", " closest ++ "?")),
          Demo.warm_operator).
Proof.
  apply (@get_by_uuid_wants_the_exact_column Demo.singular_noun Demo.plural
           Demo.json_loads Demo.Conn Demo.execute "t" (Operator.KeyText "7")
           "ID" "public" Demo.operator Demo.warm_operator Demo.table_columns
           "id").
  - reflexivity.
  - intros H. apply mem_true_iff in H. discriminate.
  - reflexivity.
Defined.
